(** * oauth2-nodejs: a shallow embedding of [index.js]

    The module exports [CreateRedirect], [AuthenticateByCode],
    [AuthenticateByToken] and [GetUserInfo]; they share the helpers
    [buildQueryString], [interpretReply] and [request].  The platform
    functions they call ([encodeURIComponent], [querystring.stringify],
    [JSON.parse], [String.prototype.replace/indexOf/substring],
    [Buffer.byteLength], [https.request]) are modelled after ECMAScript and
    the Node.js library. *)

From Stdlib Require Import ZArith NArith List String Ascii Bool Lia.
From stdpp Require Import base tactics option list.

Local Open Scope N_scope.

(** ** JavaScript strings

    A JavaScript string is a sequence of UTF-16 code units; a code unit is
    a number below [2^16]. *)

Definition jsstring := list N.

(** A string literal of the source (ASCII text). *)
Definition str (s : string) : jsstring :=
  map N_of_ascii (list_ascii_of_string s).

Definition jsstring_eqb (a b : jsstring) : bool :=
  bool_decide (a = b).

(** [s.startsWith(p)], on which [indexOf] and [replace] are built. *)
Fixpoint starts_with (p s : jsstring) : bool :=
  match p, s with
  | [], _ => true
  | _ :: _, [] => false
  | a :: p', b :: s' => (a =? b) && starts_with p' s'
  end.

(** Position of the first occurrence of [p] in [s]. *)
Fixpoint find_first (p s : jsstring) : option nat :=
  if starts_with p s then Some 0%nat
  else match s with
       | [] => None
       | _ :: s' => S <$> find_first p s'
       end.

(** [s.indexOf(p)]: the position, or [-1]. *)
Definition indexOf (s p : jsstring) : Z :=
  match find_first p s with
  | Some i => Z.of_nat i
  | None => (-1)%Z
  end.

(** [s.replace(p, r)] for a string pattern [p] and a replacement [r] without
    [$] patterns: only the first occurrence is replaced. *)
Definition replace (s p r : jsstring) : jsstring :=
  match find_first p s with
  | Some i => take i s ++ r ++ drop (i + length p) s
  | None => s
  end.

(** [s.substring(a, b)]: both ends are clamped to [0 .. length] and swapped
    when out of order. *)
Definition clamp (s : jsstring) (i : Z) : nat :=
  Z.to_nat (Z.min (Z.max i 0) (Z.of_nat (length s))).

Definition substring (s : jsstring) (a b : Z) : jsstring :=
  let i := clamp s a in
  let j := clamp s b in
  take (Nat.max i j - Nat.min i j) (drop (Nat.min i j) s).

(** [s.substring(a)]: to the end of the string. *)
Definition substring_from (s : jsstring) (a : Z) : jsstring :=
  substring s a (Z.of_nat (length s)).

(** ** Percent-encoding *)

Definition in_range (lo hi c : N) : bool := (lo <=? c) && (c <=? hi).

Definition is_alpha (c : N) : bool := in_range 65 90 c || in_range 97 122 c.
Definition is_digit (c : N) : bool := in_range 48 57 c.

(** The characters that neither [encodeURIComponent] (uriUnescaped) nor
    [querystring.escape] (Node's [noEscape] table) escapes:
    letters, digits and [- _ . ! ~ * ' ( )]. *)
Definition unreserved (c : N) : bool :=
  is_alpha c || is_digit c ||
  existsb (N.eqb c) [45; 95; 46; 33; 126; 42; 39; 40; 41].

Definition hex_digit (n : N) : N :=
  if n <? 10 then 48 + n else 55 + n.

(** ["%XX"], upper-case, for the octet [b]. *)
Definition pct (b : N) : jsstring :=
  [37; hex_digit (N.land (N.shiftr b 4) 15); hex_digit (N.land b 15)].

Definition is_high_surrogate (c : N) : bool := in_range 55296 56319 c.
Definition is_low_surrogate (c : N) : bool := in_range 56320 57343 c.

Definition cont_byte (v : N) : N := N.lor 128 (N.land v 63).

(** UTF-8 octets of the code point [v]. *)
Definition utf8 (v : N) : list N :=
  if v <? 128 then [v]
  else if v <? 2048 then [N.lor 192 (N.shiftr v 6); cont_byte v]
  else if v <? 65536 then
    [N.lor 224 (N.shiftr v 12); cont_byte (N.shiftr v 6); cont_byte v]
  else
    [N.lor 240 (N.shiftr v 18); cont_byte (N.shiftr v 12);
     cont_byte (N.shiftr v 6); cont_byte v].

Definition pct_utf8 (v : N) : jsstring := concat (map pct (utf8 v)).

(** ** Exceptions *)

Inductive exn := TypeError | URIError.

Inductive outcome (A : Type) :=
  | Ok (a : A)
  | Throw (e : exn).
Arguments Ok {A} a.
Arguments Throw {A} e.

Definition outcome_map {A B} (f : A -> B) (o : outcome A) : outcome B :=
  match o with
  | Ok a => Ok (f a)
  | Throw e => Throw e
  end.

(** [encodeURIComponent(s)] (ECMAScript Encode with the uriUnescaped set):
    a lone surrogate raises URIError. *)
Fixpoint encodeURIComponent (s : jsstring) : outcome jsstring :=
  match s with
  | [] => Ok []
  | c :: r =>
    if unreserved c then outcome_map (cons c) (encodeURIComponent r)
    else if is_low_surrogate c then Throw URIError
    else if negb (is_high_surrogate c) then
      outcome_map (app (pct_utf8 c)) (encodeURIComponent r)
    else
      match r with
      | [] => Throw URIError
      | k :: r' =>
        if is_low_surrogate k then
          outcome_map (app (pct_utf8 ((c - 55296) * 1024 + (k - 56320) + 65536)))
               (encodeURIComponent r')
        else Throw URIError
      end
  end.

(** [querystring.escape(s)] (Node's [encodeStr] with the [noEscape] table):
    a surrogate is combined with the code unit that follows it, whatever it
    is, and raises URIError only at the end of the string. *)
Fixpoint qsEscape (s : jsstring) : outcome jsstring :=
  match s with
  | [] => Ok []
  | c :: r =>
    if c <? 128 then
      outcome_map (app (if unreserved c then [c] else pct c)) (qsEscape r)
    else if c <? 2048 then
      outcome_map (app (pct (N.lor 192 (N.shiftr c 6)) ++ pct (cont_byte c)))
           (qsEscape r)
    else if (c <? 55296) || (57344 <=? c) then
      outcome_map (app (pct (N.lor 224 (N.shiftr c 12)) ++
                 pct (cont_byte (N.shiftr c 6)) ++ pct (cont_byte c)))
           (qsEscape r)
    else
      match r with
      | [] => Throw URIError
      | c2 :: r' =>
        let v := 65536 + N.lor (N.shiftl (N.land c 1023) 10) (N.land c2 1023) in
        outcome_map (app (pct (N.lor 240 (N.shiftr v 18)) ++
                   pct (cont_byte (N.shiftr v 12)) ++
                   pct (cont_byte (N.shiftr v 6)) ++ pct (cont_byte v)))
             (qsEscape r')
      end
  end.

(** [Buffer.byteLength(s)]: length of the UTF-8 encoding, a lone surrogate
    counting as U+FFFD. *)
Fixpoint byteLength (s : jsstring) : N :=
  match s with
  | [] => 0
  | c :: r =>
    if c <? 128 then 1 + byteLength r
    else if c <? 2048 then 2 + byteLength r
    else if is_high_surrogate c then
      match r with
      | k :: r' => if is_low_surrogate k then 4 + byteLength r'
                   else 3 + byteLength r
      | [] => 3
      end
    else 3 + byteLength r
  end.

(** ** Values, objects and the heap

    The arguments of the exported functions and the fields of a provider
    descriptor are [undefined], [null], booleans or strings (numbers and
    nested objects are not passed to this module by its documented use). *)

Inductive value :=
  | VUndefined
  | VNull
  | VBool (b : bool)
  | VStr (s : jsstring).

(** ToBoolean *)
Definition truthy (v : value) : bool :=
  match v with
  | VBool b => b
  | VStr [] => false
  | VStr (_ :: _) => true
  | _ => false
  end.

(** ToString *)
Definition ToString (v : value) : jsstring :=
  match v with
  | VUndefined => str "undefined"
  | VNull => str "null"
  | VBool true => str "true"
  | VBool false => str "false"
  | VStr s => s
  end.

(** An object literal: its own properties in insertion order. *)
Definition object := list (jsstring * value).

(** [o[k]], [undefined] when [k] is not a property. *)
Fixpoint get_prop (o : object) (k : jsstring) : value :=
  match o with
  | [] => VUndefined
  | (k', v) :: o' => if jsstring_eqb k' k then v else get_prop o' k
  end.

(** [o[k] = v]: an existing property keeps its place. *)
Fixpoint set_prop (o : object) (k : jsstring) (v : value) : object :=
  match o with
  | [] => [(k, v)]
  | (k', v') :: o' =>
    if jsstring_eqb k' k then (k', v) :: o' else (k', v') :: set_prop o' k v
  end.

Definition digits_value (s : jsstring) : N :=
  fold_left (fun a c => 10 * a + (c - 48)) s 0.

(** A property name that is a canonical array index ([0 .. 2^32 - 2]). *)
Definition array_index (k : jsstring) : option N :=
  match k with
  | [] => None
  | c :: r =>
    if forallb is_digit k && (negb (c =? 48) || bool_decide (r = []))
       && (digits_value k <? 4294967295)
    then Some (digits_value k) else None
  end.

Fixpoint insert_index (i : N) (k : jsstring) (l : list (N * jsstring))
  : list (N * jsstring) :=
  match l with
  | [] => [(i, k)]
  | (j, k') :: l' =>
    if i <? j then (i, k) :: l else (j, k') :: insert_index i k l'
  end.

Fixpoint index_keys (o : object) : list (N * jsstring) :=
  match o with
  | [] => []
  | (k, _) :: o' =>
    match array_index k with
    | Some i => insert_index i k (index_keys o')
    | None => index_keys o'
    end
  end.

Fixpoint name_keys (o : object) : list jsstring :=
  match o with
  | [] => []
  | (k, _) :: o' =>
    match array_index k with
    | Some _ => name_keys o'
    | None => k :: name_keys o'
    end
  end.

(** [Object.keys(o)]: array indices in ascending order, then the other
    names in insertion order. *)
Definition own_keys (o : object) : list jsstring :=
  map snd (index_keys o) ++ name_keys o.

(** *** Parsed JSON

    A number is kept as the exact decimal [m * 10^e] of its literal (the
    sign of a zero is not kept); the double it rounds to is not computed,
    except for whether it is zero. *)
#[local] Set Warnings "-register-all".

Inductive json :=
  | JNull
  | JBool (b : bool)
  | JNum (m e : Z)
  | JStr (s : jsstring)
  | JArr (l : list json)
  | JObj (l : list (jsstring * json)).

(** The object built by [interpretReply]. *)
Record token := Token {
  accessToken : json;
  refreshToken : json;
  expires : json
}.

Inductive cell :=
  | CObj (o : object)
  | CToken (t : token).

Definition loc := nat.

(** The application's continuation, named by a number. *)
Definition callback := nat.

(** What a continuation is called with: the object made by
    [interpretReply], or the body string. *)
Inductive cbarg :=
  | ArgToken (l : loc)
  | ArgBody (s : jsstring).

(** The [options] literal of [request]. *)
Record options := Options {
  host : jsstring;
  path : jsstring;
  port : N;
  method : jsstring;
  content_type : jsstring;
  content_length : N
}.

(** A [ClientRequest] made by [https.request]: its options, the variables
    its response handler closes over, what [write] sent, whether [end] was
    called, and whether the response's [end] event was handled. *)
Record client_request := ClientRequest {
  req_options : options;
  req_interpretBody : value;
  req_callback : callback;
  req_written : list jsstring;
  req_ended : bool;
  req_answered : bool
}.

Record world := World {
  heap : list cell;
  outbox : list client_request;
  calls : list (callback * cbarg)
}.

(** ** The monad of the embedding: state, and exceptions that keep it *)

Definition M (A : Type) := world -> outcome A * world.

Definition ret {A} (a : A) : M A := fun w => (Ok a, w).

Definition throw {A} (e : exn) : M A := fun w => (Throw e, w).

Definition bind {A B} (c : M A) (k : A -> M B) : M B :=
  fun w =>
    match c w with
    | (Ok a, w') => k a w'
    | (Throw e, w') => (Throw e, w')
    end.

Notation "x <- c ;; k" := (bind c (fun x => k))
  (at level 100, c at next level, right associativity).
Notation "c ;;; k" := (bind c (fun _ => k))
  (at level 100, right associativity).

Definition lift {A} (o : outcome A) : M A := fun w => (o, w).

Definition when (b : bool) (c : M unit) : M unit :=
  if b then c else ret tt.

Fixpoint for_each {A} (l : list A) (f : A -> M unit) : M unit :=
  match l with
  | [] => ret tt
  | a :: l' => f a ;;; for_each l' f
  end.

Definition set_heap (w : world) (h : list cell) : world :=
  World h (outbox w) (calls w).

(** An object or record literal: a new cell. *)
Definition alloc (c : cell) : M loc :=
  fun w => (Ok (length (heap w)), set_heap w (heap w ++ [c])).

(** [p.k] for a name [k] of a descriptor (the record of [interpretReply]
    has none of them); a location without a cell stands for [undefined],
    which has no properties to read. *)
Definition get_field (p : loc) (k : jsstring) : M value :=
  fun w =>
    match heap w !! p with
    | Some (CObj o) => (Ok (get_prop o k), w)
    | Some (CToken _) => (Ok VUndefined, w)
    | None => (Throw TypeError, w)
    end.

(** [p.k = v] *)
Definition set_field (p : loc) (k : jsstring) (v : value) : M unit :=
  fun w =>
    match heap w !! p with
    | Some (CObj o) => (Ok tt, set_heap w (<[p := CObj (set_prop o k v)]> (heap w)))
    | _ => (Throw TypeError, w)
    end.

(** [Object.keys(p)] *)
Definition object_keys (p : loc) : M (list jsstring) :=
  fun w =>
    match heap w !! p with
    | Some (CObj o) => (Ok (own_keys o), w)
    | _ => (Throw TypeError, w)
    end.

(** An assignment to a field of the record at [p]. *)
Definition update_token (p : loc) (f : token -> token) : M unit :=
  fun w =>
    match heap w !! p with
    | Some (CToken t) => (Ok tt, set_heap w (<[p := CToken (f t)]> (heap w)))
    | _ => (Throw TypeError, w)
    end.

(** ** [JSON.parse]

    The parser follows the JSON grammar of ECMAScript: white space is tab,
    line feed, carriage return and space; a string has no raw control
    character; a number has no leading zero.  The recursion is on a fuel
    that [JSON_parse] takes large enough ([JSON_parse_fuel]). *)

Inductive presult (A : Type) :=
  | POk (a : A) (rest : jsstring)
  | PErr
  | PFuel.
Arguments POk {A} a rest.
Arguments PErr {A}.
Arguments PFuel {A}.

Definition is_ws (c : N) : bool :=
  (c =? 9) || (c =? 10) || (c =? 13) || (c =? 32).

Fixpoint skip_ws (s : jsstring) : jsstring :=
  match s with
  | c :: r => if is_ws c then skip_ws r else s
  | [] => []
  end.

Definition hex_value (c : N) : option N :=
  if is_digit c then Some (c - 48)
  else if in_range 65 70 c then Some (c - 55)
  else if in_range 97 102 c then Some (c - 87)
  else None.

Definition hex4 (a b c d : N) : option N :=
  match hex_value a, hex_value b, hex_value c, hex_value d with
  | Some x, Some y, Some z, Some t => Some (((x * 16 + y) * 16 + z) * 16 + t)
  | _, _, _, _ => None
  end.

(** The character after a backslash, [\u] apart. *)
Definition simple_escape (c : N) : option N :=
  if (c =? 34) || (c =? 92) || (c =? 47) then Some c
  else if c =? 98 then Some 8
  else if c =? 102 then Some 12
  else if c =? 110 then Some 10
  else if c =? 114 then Some 13
  else if c =? 116 then Some 9
  else None.

(** The characters of a string, after its opening quote. *)
Fixpoint parse_chars (s acc : jsstring) : option (jsstring * jsstring) :=
  match s with
  | [] => None
  | c :: r =>
    if c =? 34 then Some (rev acc, r)
    else if c =? 92 then
      match r with
      | [] => None
      | e :: r1 =>
        if e =? 117 then
          match r1 with
          | a :: b :: c' :: d :: r2 =>
            match hex4 a b c' d with
            | Some u => parse_chars r2 (u :: acc)
            | None => None
            end
          | _ => None
          end
        else
          match simple_escape e with
          | Some x => parse_chars r1 (x :: acc)
          | None => None
          end
      end
    else if c <? 32 then None
    else parse_chars r (c :: acc)
  end.

Fixpoint span_digits (s : jsstring) : jsstring * jsstring :=
  match s with
  | c :: r =>
    if is_digit c then (c :: (span_digits r).1, (span_digits r).2)
    else ([], s)
  | [] => ([], [])
  end.

(** The fraction of a number: nothing, or a dot and at least one digit. *)
Definition parse_frac (s : jsstring) : option (jsstring * jsstring) :=
  match s with
  | c :: r =>
    if c =? 46 then
      match span_digits r with
      | ([], _) => None
      | (fp, r') => Some (fp, r')
      end
    else Some ([], s)
  | [] => Some ([], [])
  end.

(** The exponent of a number: nothing, or [e]/[E], a sign and digits. *)
Definition parse_exp (s : jsstring) : option (Z * jsstring) :=
  match s with
  | c :: r =>
    if (c =? 101) || (c =? 69) then
      let '(neg, r1) :=
        match r with
        | x :: r' => if x =? 45 then (true, r')
                     else if x =? 43 then (false, r') else (false, r)
        | [] => (false, r)
        end in
      match span_digits r1 with
      | ([], _) => None
      | (ds, r2) =>
        let v := Z.of_N (digits_value ds) in
        Some (if neg then (- v)%Z else v, r2)
      end
    else Some (0%Z, s)
  | [] => Some (0%Z, [])
  end.

Definition parse_number (s : jsstring) : option (Z * Z * jsstring) :=
  let '(neg, s1) :=
    match s with
    | c :: r => if c =? 45 then (true, r) else (false, s)
    | [] => (false, s)
    end in
  match s1 with
  | [] => None
  | c :: r =>
    if is_digit c then
      let '(ip, s2) := if c =? 48 then ([c], r) else span_digits s1 in
      match parse_frac s2 with
      | None => None
      | Some (fp, s3) =>
        match parse_exp s3 with
        | None => None
        | Some (ex, s4) =>
          let m := Z.of_N (digits_value (ip ++ fp)) in
          Some (if neg then (- m)%Z else m,
                (ex - Z.of_nat (length fp))%Z, s4)
        end
      end
    else None
  end.

Definition parse_literal (s : jsstring) : presult json :=
  if starts_with (str "true") s then POk (JBool true) (drop 4 s)
  else if starts_with (str "false") s then POk (JBool false) (drop 5 s)
  else if starts_with (str "null") s then POk JNull (drop 4 s)
  else
    match parse_number s with
    | Some (m, e, r) => POk (JNum m e) r
    | None => PErr
    end.

Fixpoint parse_value (n : nat) (s : jsstring) : presult json :=
  match n with
  | O => PFuel
  | S n =>
    match skip_ws s with
    | [] => PErr
    | c :: r =>
      if c =? 123 then
        match skip_ws r with
        | [] => PErr
        | c1 :: r1 =>
          if c1 =? 125 then POk (JObj []) r1
          else parse_members n (c1 :: r1) []
        end
      else if c =? 91 then
        match skip_ws r with
        | [] => PErr
        | c1 :: r1 =>
          if c1 =? 93 then POk (JArr []) r1
          else parse_elements n (c1 :: r1) []
        end
      else if c =? 34 then
        match parse_chars r [] with
        | Some (x, r1) => POk (JStr x) r1
        | None => PErr
        end
      else parse_literal (c :: r)
    end
  end
with parse_elements (n : nat) (s : jsstring) (acc : list json)
  : presult json :=
  match n with
  | O => PFuel
  | S n =>
    match parse_value n s with
    | POk v r =>
      match skip_ws r with
      | [] => PErr
      | c :: r1 =>
        if c =? 44 then parse_elements n r1 (v :: acc)
        else if c =? 93 then POk (JArr (rev (v :: acc))) r1
        else PErr
      end
    | PErr => PErr
    | PFuel => PFuel
    end
  end
with parse_members (n : nat) (s : jsstring) (acc : list (jsstring * json))
  : presult json :=
  match n with
  | O => PFuel
  | S n =>
    match skip_ws s with
    | [] => PErr
    | q :: r =>
      if q =? 34 then
        match parse_chars r [] with
        | None => PErr
        | Some (k, r1) =>
          match skip_ws r1 with
          | [] => PErr
          | c :: r2 =>
            if c =? 58 then
              match parse_value n r2 with
              | POk v r3 =>
                match skip_ws r3 with
                | [] => PErr
                | d :: r4 =>
                  if d =? 44 then parse_members n r4 ((k, v) :: acc)
                  else if d =? 125 then POk (JObj (rev ((k, v) :: acc))) r4
                  else PErr
                end
              | PErr => PErr
              | PFuel => PFuel
              end
            else PErr
          end
        end
      else PErr
    end
  end.

Definition json_fuel (s : jsstring) : nat := 2 * length s + 2.

(** [JSON.parse(s)]; [None] is a SyntaxError. *)
Definition JSON_parse (s : jsstring) : option json :=
  match parse_value (json_fuel s) s with
  | POk j r => match skip_ws r with [] => Some j | _ :: _ => None end
  | _ => None
  end.

(** ToBoolean of a parsed value: a number is falsy when its double is
    zero, that is when the literal is zero or at most [2^-1075] in
    magnitude. *)
Definition num_is_zero (m e : Z) : bool :=
  ((m =? 0) ||
   ((e <? 0) && (Z.abs m * 2 ^ 1075 <=? 10 ^ (- e))))%Z.

Definition json_truthy (j : json) : bool :=
  match j with
  | JNull => false
  | JBool b => b
  | JNum m e => negb (num_is_zero m e)
  | JStr [] => false
  | JStr (_ :: _) => true
  | JArr _ => true
  | JObj _ => true
  end.

(** An own property of a parsed object: of two members with one name the
    later one stays. *)
Fixpoint obj_get (l : list (jsstring * json)) (k : jsstring) : option json :=
  match l with
  | [] => None
  | (k', v) :: l' =>
    match obj_get l' k with
    | Some v' => Some v'
    | None => if jsstring_eqb k' k then Some v else None
    end
  end.

(** [v[k]] for a name [k] that the built-in prototypes do not define (the
    five names [interpretReply] reads are such names): [None] is
    [undefined]; [null] has no properties to read. *)
Definition json_get (v : json) (k : jsstring) : outcome (option json) :=
  match v with
  | JNull => Throw TypeError
  | JObj l => Ok (obj_get l k)
  | _ => Ok None
  end.

(** ** [querystring.stringify] *)

(** Node's [stringifyPrimitive]: strings as they are, booleans by name,
    anything else the empty string. *)
Definition stringifyPrimitive (v : value) : jsstring :=
  match v with
  | VStr s => s
  | VBool true => str "true"
  | VBool false => str "false"
  | _ => []
  end.

(** One [key=value] field. *)
Definition stringify_field (o : object) (k : jsstring) : outcome jsstring :=
  match qsEscape k with
  | Throw e => Throw e
  | Ok ks =>
    match qsEscape (stringifyPrimitive (get_prop o k)) with
    | Throw e => Throw e
    | Ok vs => Ok (ks ++ str "=" ++ vs)
    end
  end.

(** The loop of [stringify] over [Object.keys(obj)]: [first] tells whether
    the separator is still to be left out. *)
Fixpoint stringify_fields (o : object) (keys : list jsstring) (first : bool)
  : outcome jsstring :=
  match keys with
  | [] => Ok []
  | k :: keys' =>
    match stringify_field o k with
    | Throw e => Throw e
    | Ok f =>
      outcome_map (app ((if first then [] else str "&") ++ f))
                  (stringify_fields o keys' false)
    end
  end.

Definition querystring_stringify (p : loc) : M jsstring :=
  fun w =>
    match heap w !! p with
    | Some (CObj o) => (stringify_fields o (own_keys o) true, w)
    | _ => (Ok [], w)
    end.

(** ** [https.request] and the request object *)

(** Node refuses a path with a character outside [U+0021 .. U+00FF]
    ([ERR_UNESCAPED_CHARACTERS]). *)
Definition valid_path (p : jsstring) : bool := forallb (in_range 33 255) p.

(** The characters of a header value: the tab, [U+0020 .. U+007E] and
    [U+0080 .. U+00FF] (the complement of Node's
    [/[^\t\x20-\x7e\x80-\xff]/]). *)
Definition header_char (c : N) : bool :=
  (c =? 9) || in_range 32 126 c || in_range 128 255 c.

(** The host becomes the value of the [Host] header (the port [443] is the
    default one of [https] and is not appended); Node refuses a value with
    another character ([ERR_INVALID_CHAR]).  An empty host sets no header:
    the request goes to [localhost]. *)
Definition valid_host (hst : jsstring) : bool := forallb header_char hst.

(** The characters of an HTTP token, Node's
    [/^[\^_`a-zA-Z\-0-9!#$%&'*+.|~]+$/]. *)
Definition token_char (c : N) : bool :=
  is_alpha c || is_digit c ||
  existsb (N.eqb c) [94; 95; 96; 45; 33; 35; 36; 37; 38; 39; 42; 43; 46; 124; 126].

(** A method that is not the empty string has to be an HTTP token
    ([ERR_INVALID_HTTP_TOKEN]); the empty string stands for [GET]. *)
Definition valid_method (m : jsstring) : bool := forallb token_char m.

Definition set_outbox (w : world) (o : list client_request) : world :=
  World (heap w) o (calls w).

(** What [https.request] checks before it makes the request; each check
    that fails throws a [TypeError]. *)
Definition accepted (o : options) : bool :=
  valid_path (path o) && valid_method (method o) && valid_host (host o).

(** [https.request(options, handler)]: the handler closes over
    [interpretBody] and [callback].  The request is recorded with the
    options as they were given. *)
Definition https_request (o : options) (interpretBody : value)
    (cb : callback) : M nat :=
  fun w =>
    if accepted o then
      (Ok (length (outbox w)),
       set_outbox w (outbox w ++ [ClientRequest o interpretBody cb [] false false]))
    else (Throw TypeError, w).

Definition update_request (i : nat) (f : client_request -> client_request)
  : M unit :=
  fun w =>
    match outbox w !! i with
    | Some r => (Ok tt, set_outbox w (<[i := f r]> (outbox w)))
    | None => (Throw TypeError, w)
    end.

(** [req.write(payload)] *)
Definition req_write (i : nat) (payload : jsstring) : M unit :=
  update_request i (fun r =>
    ClientRequest (req_options r) (req_interpretBody r) (req_callback r)
                  (req_written r ++ [payload]) (req_ended r) (req_answered r)).

(** [req.end()] *)
Definition req_end (i : nat) : M unit :=
  update_request i (fun r =>
    ClientRequest (req_options r) (req_interpretBody r) (req_callback r)
                  (req_written r) true (req_answered r)).

(** [callback(arg)]: the call is recorded. *)
Definition call (cb : callback) (a : cbarg) : M unit :=
  fun w => (Ok tt, World (heap w) (outbox w) (calls w ++ [(cb, a)])).

(** ** The functions of [index.js] *)

(** [buildQueryString(parameters)] *)
Definition buildQueryString (parameters : loc) : M jsstring :=
  keys <- object_keys parameters ;;
  for_each keys (fun key =>
    v <- get_field parameters key ;;
    e <- lift (encodeURIComponent (ToString v)) ;;
    set_field parameters key (VStr e)) ;;;
  querystring_stringify parameters.

(** [exports.CreateRedirect(provider, redirectUri, locale)] *)
Definition CreateRedirect (provider : loc) (redirectUri locale : value)
  : M jsstring :=
  let locale := if negb (truthy locale) then VStr (str "en") else locale in
  clientId <- get_field provider (str "clientId") ;;
  parameters <- alloc (CObj [
    (str "client_id", clientId);
    (str "display", VStr (str "page"));
    (str "locale", locale);
    (str "redirect_uri", redirectUri);
    (str "response_type", VStr (str "code"))]) ;;
  offline <- get_field provider (str "offline") ;;
  when (truthy offline)
    (set_field parameters (str "access_type") (VStr (str "offline"))) ;;;
  scope <- get_field provider (str "scope") ;;
  when (truthy scope) (set_field parameters (str "scope") scope) ;;;
  state <- get_field provider (str "state") ;;
  when (truthy state) (set_field parameters (str "state") state) ;;;
  authUri <- get_field provider (str "authUri") ;;
  qs <- buildQueryString parameters ;;
  ret (ToString authUri ++ str "?" ++ qs).

(** One line [if (reply[k]) response.f = reply[k];] of [interpretReply]. *)
Definition copy_field (reply : json) (k : jsstring)
    (response : loc) (assign : json -> token -> token) : M unit :=
  v <- lift (json_get reply k) ;;
  match v with
  | Some j => when (json_truthy j) (update_token response (assign j))
  | None => ret tt
  end.

Definition set_accessToken (v : json) (t : token) : token :=
  Token v (refreshToken t) (expires t).
Definition set_refreshToken (v : json) (t : token) : token :=
  Token (accessToken t) v (expires t).
Definition set_expires (v : json) (t : token) : token :=
  Token (accessToken t) (refreshToken t) v.

(** [interpretReply(reply)] *)
Definition interpretReply (reply : jsstring) : M loc :=
  response <- alloc (CToken (Token JNull JNull JNull)) ;;
  let reply :=
    match JSON_parse reply with
    | Some j => j
    | None => JStr reply
    end in
  copy_field reply (str "access_token") response set_accessToken ;;;
  copy_field reply (str "refresh_token") response set_refreshToken ;;;
  copy_field reply (str "state") response set_refreshToken ;;;
  copy_field reply (str "expires") response set_expires ;;;
  copy_field reply (str "expires_in") response set_expires ;;;
  ret response.

(** [request(uri, method, payload, callback, interpretBody)], up to
    [req.end()]. *)
Definition request (uri : value) (method : jsstring) (payload : jsstring)
    (cb : callback) (interpretBody : value) : M unit :=
  let method := match method with [] => str "POST" | _ :: _ => method end in
  uri <- match uri with
         | VStr s => ret (replace s (str "https://") [])
         | _ => throw TypeError
         end ;;
  let options := Options
    (substring uri 0 (indexOf uri (str "/")))
    (substring_from uri (indexOf uri (str "/")))
    443
    method
    (str "application/x-www-form-urlencoded")
    (if jsstring_eqb method (str "POST") then byteLength payload else 0) in
  req <- https_request options interpretBody cb ;;
  when (jsstring_eqb method (str "POST")) (req_write req payload) ;;;
  req_end req.

(** ** The chunks of a response

    A [data] event carries a [Buffer], and [body += d] appends what its
    [toString()] gives: the octets of that chunk decoded as UTF-8, each
    octet sequence that is not UTF-8 replaced by [U+FFFD]. *)

(** A [Buffer]: octets. *)
Definition buffer := list N.

(** The UTF-16 code units of the code point [cp]. *)
Definition code_units (cp : N) : jsstring :=
  if cp <? 65536 then [cp]
  else [55296 + N.shiftr (cp - 65536) 10; 56320 + N.land (cp - 65536) 1023].

(** The state of the decoder inside a sequence: the octets the sequence
    still needs, the code point so far, and the bounds of the next octet. *)
Record decoder := Decoder {
  dec_needed : N;
  dec_point : N;
  dec_lower : N;
  dec_upper : N
}.

(** Between two sequences. *)
Definition idle : decoder := Decoder 0 0 128 191.

Definition replacement : N := 65533.

(** The first octet of a sequence.  [C0], [C1] and [F5 .. FF] start none;
    after [E0], [ED], [F0] and [F4] the second octet is bounded, which
    leaves out the overlong forms, the surrogates and what lies beyond
    [U+10FFFF]. *)
Definition decode_lead (b : N) : decoder * jsstring :=
  if b <? 128 then (idle, [b])
  else if in_range 194 223 b then (Decoder 1 (N.land b 31) 128 191, [])
  else if in_range 224 239 b then
    (Decoder 2 (N.land b 15)
       (if b =? 224 then 160 else 128) (if b =? 237 then 159 else 191), [])
  else if in_range 240 244 b then
    (Decoder 3 (N.land b 7)
       (if b =? 240 then 144 else 128) (if b =? 244 then 143 else 191), [])
  else (idle, [replacement]).

(** One octet.  An octet that cannot go on the sequence ends it with
    [U+FFFD] and is read again as a first octet. *)
Definition decode_octet (st : decoder) (b : N) : decoder * jsstring :=
  if dec_needed st =? 0 then decode_lead b
  else if in_range (dec_lower st) (dec_upper st) b then
    let cp := N.lor (N.shiftl (dec_point st) 6) (N.land b 63) in
    if dec_needed st =? 1 then (idle, code_units cp)
    else (Decoder (dec_needed st - 1) cp 128 191, [])
  else (fst (decode_lead b), replacement :: snd (decode_lead b)).

(** The octets from the state [st] on; a sequence the end cuts short
    gives [U+FFFD]. *)
Fixpoint decode_from (st : decoder) (d : buffer) : jsstring :=
  match d with
  | [] => if dec_needed st =? 0 then [] else [replacement]
  | b :: r => snd (decode_octet st b) ++ decode_from (fst (decode_octet st b)) r
  end.

(** [d.toString()] for a [Buffer] [d]. *)
Definition utf8_decode (d : buffer) : jsstring := decode_from idle d.

(** The state of the decoder after the octets of [d]. *)
Fixpoint decoder_after (st : decoder) (d : buffer) : decoder :=
  match d with
  | [] => st
  | b :: r => decoder_after (fst (decode_octet st b)) r
  end.

(** A chunk that does not end inside a sequence. *)
Definition whole (d : buffer) : bool :=
  dec_needed (decoder_after idle d) =? 0.

(** The request once the [end] event of its response was handled. *)
Definition answered (r : client_request) : client_request :=
  ClientRequest (req_options r) (req_interpretBody r) (req_callback r)
                (req_written r) (req_ended r) true.

(** The response handler of [request] run by the platform for request [i],
    on the strings that [body += d] appends, one for each [data] event,
    then comes [end].  Node emits [end] one time for a response: a request
    that was not ended, or whose response has ended, gets none. *)
Definition respond (i : nat) (chunks : list jsstring) : M unit :=
  fun w =>
    match outbox w !! i with
    | Some r =>
      if req_ended r && negb (req_answered r) then
        (update_request i answered ;;;
         let body := fold_left (fun body d => body ++ d) chunks [] in
         if truthy (req_interpretBody r) then
           t <- interpretReply body ;;
           call (req_callback r) (ArgToken t)
         else call (req_callback r) (ArgBody body)) w
      else (Ok tt, w)
    | None => (Ok tt, w)
    end.

(** The response handler on the chunks as Node emits them: [body += d]
    decodes each [Buffer] on its own. *)
Definition response_handler (i : nat) (chunks : list buffer) : M unit :=
  respond i (map utf8_decode chunks).

(** [exports.AuthenticateByCode(provider, redirectUri, code, callback)] *)
Definition AuthenticateByCode (provider : loc) (redirectUri code : value)
    (cb : callback) : M unit :=
  clientId <- get_field provider (str "clientId") ;;
  clientSecret <- get_field provider (str "clientSecret") ;;
  parameters <- alloc (CObj [
    (str "client_id", clientId);
    (str "client_secret", clientSecret);
    (str "redirect_uri", redirectUri);
    (str "code", code);
    (str "grant_type", VStr (str "authorization_code"))]) ;;
  scope <- get_field provider (str "scope") ;;
  when (truthy scope) (set_field parameters (str "scope") scope) ;;;
  state <- get_field provider (str "state") ;;
  when (truthy state) (set_field parameters (str "state") state) ;;;
  accessTokenUri <- get_field provider (str "accessTokenUri") ;;
  payload <- buildQueryString parameters ;;
  request accessTokenUri (str "POST") payload cb (VBool true).

(** [exports.AuthenticateByToken(provider, refreshToken, callback)] *)
Definition AuthenticateByToken (provider : loc) (refreshToken : value)
    (cb : callback) : M unit :=
  clientId <- get_field provider (str "clientId") ;;
  clientSecret <- get_field provider (str "clientSecret") ;;
  parameters <- alloc (CObj [
    (str "client_id", clientId);
    (str "client_secret", clientSecret);
    (str "refresh_token", refreshToken);
    (str "grant_type", VStr (str "refresh_token"))]) ;;
  scope <- get_field provider (str "scope") ;;
  when (truthy scope) (set_field parameters (str "scope") scope) ;;;
  state <- get_field provider (str "state") ;;
  when (truthy state) (set_field parameters (str "state") state) ;;;
  accessTokenUri <- get_field provider (str "accessTokenUri") ;;
  payload <- buildQueryString parameters ;;
  request accessTokenUri (str "POST") payload cb (VBool true).

(** [exports.GetUserInfo(provider, accessToken, callback)]: [request] gets
    four arguments, so [interpretBody] is [undefined]. *)
Definition GetUserInfo (provider : loc) (accessToken : value)
    (cb : callback) : M unit :=
  parameters <- alloc (CObj [(str "access_token", accessToken)]) ;;
  userInfoUri <- get_field provider (str "userInfoUri") ;;
  payload <- buildQueryString parameters ;;
  request userInfoUri (str "GET") payload cb VUndefined.

(** ** Notions used by the statements *)

(** Well-formed UTF-16: every surrogate is part of a high-low pair. *)
Fixpoint well_formed (s : jsstring) : bool :=
  match s with
  | [] => true
  | c :: r =>
    if is_low_surrogate c then false
    else if is_high_surrogate c then
      match r with
      | k :: r' => is_low_surrogate k && well_formed r'
      | [] => false
      end
    else well_formed r
  end.

(** The characters a percent-encoded text is made of. *)
Definition url_safe (c : N) : bool := unreserved c || (c =? 37).

(** The string [encodeURIComponent] returns, when it returns. *)
Definition uri_encoded (s : jsstring) : jsstring :=
  match encodeURIComponent s with
  | Ok e => e
  | Throw _ => []
  end.

(** The string [querystring.escape] returns, when it returns. *)
Definition escaped (s : jsstring) : jsstring :=
  match qsEscape s with
  | Ok e => e
  | Throw _ => []
  end.

(** What [buildQueryString] makes of a value: [encodeURIComponent] in its
    loop, then [querystring.escape] inside [querystring.stringify]. *)
Definition encoded_twice (s : jsstring) : jsstring :=
  escaped (uri_encoded s).

(** Fields joined by ampersands. *)
Definition join_amp (fields : list jsstring) : jsstring :=
  match fields with
  | [] => []
  | f :: fs => f ++ concat (map (app (str "&")) fs)
  end.

(** A string cut at every [sep]. *)
Fixpoint split_on (sep : N) (s : jsstring) : list jsstring :=
  match s with
  | [] => [[]]
  | c :: r =>
    if c =? sep then [] :: split_on sep r
    else match split_on sep r with
         | f :: fs => (c :: f) :: fs
         | [] => [[c]]
         end
  end.

(** The [key=value] fields of a query string or form body. *)
Definition query_fields (qs : jsstring) : list jsstring := split_on 38 qs.

(** The name of a field: what stands before its first [=]. *)
Fixpoint field_key (f : jsstring) : jsstring :=
  match f with
  | [] => []
  | c :: r => if c =? 61 then [] else c :: field_key r
  end.

(** A text of the source written with ['] where it has the double quote. *)
Definition dq (s : string) : jsstring :=
  map (fun c => if c =? 39 then 34 else c) (str s).

(** The value [interpretReply] goes on with after its [try]. *)
Definition parsed_reply (body : jsstring) : json :=
  match JSON_parse body with
  | Some j => j
  | None => JStr body
  end.

(** The effect of one [if (reply[k]) ...] line on the record. *)
Definition pick (reply : json) (k : jsstring)
    (assign : json -> token -> token) (t : token) : token :=
  match json_get reply k with
  | Ok (Some j) => if json_truthy j then assign j t else t
  | _ => t
  end.

(** The record after the five lines. *)
Definition interpret_token (reply : json) : token :=
  pick reply (str "expires_in") set_expires
    (pick reply (str "expires") set_expires
      (pick reply (str "state") set_refreshToken
        (pick reply (str "refresh_token") set_refreshToken
          (pick reply (str "access_token") set_accessToken
            (Token JNull JNull JNull))))).

(** The object [buildQueryString] leaves behind: every value replaced by
    its encoding. *)
Definition encode_object (o : object) : object :=
  map (fun kv => (kv.1, VStr (uri_encoded (ToString kv.2)))) o.

(** The fields [buildQueryString] returns for an object. *)
Definition object_fields (o : object) : list jsstring :=
  map (fun kv => kv.1 ++ str "=" ++ encoded_twice (ToString kv.2)) o.

(** An object whose names are plain: distinct, no array index among them,
    made of unreserved characters. *)
Definition plain_names (o : object) : Prop :=
  NoDup (map fst o) /\
  Forall (fun kv => array_index kv.1 = None /\ forallb unreserved kv.1 = true) o.

(** An object whose values encode: their strings are well-formed. *)
Definition encodable (o : object) : Prop :=
  Forall (fun kv => well_formed (ToString kv.2) = true) o.

(** A value whose string is well-formed. *)
Definition wf_value (v : value) : Prop := well_formed (ToString v) = true.

(** The fields after the first, each behind its ampersand. *)
Definition tail_join (fields : list jsstring) : jsstring :=
  concat (map (app (str "&")) fields).

(** A world whose newest cell is the object [o]. *)
Definition at_last (h : list cell) (ob : list client_request)
    (cl : list (callback * cbarg)) (o : object) : world :=
  World (h ++ [CObj o]) ob cl.

(** [if (cond) parameters.k = v;] *)
Definition optional_prop (o : object) (k : jsstring) (cond v : value)
  : object :=
  if truthy cond then set_prop o k v else o.

(** The [parameters] object of [CreateRedirect] when it reaches
    [buildQueryString], for a provider with the properties [prov]. *)
Definition redirect_parameters (prov : object) (redirectUri locale : value)
  : object :=
  let locale := if negb (truthy locale) then VStr (str "en") else locale in
  let o := [
    (str "client_id", get_prop prov (str "clientId"));
    (str "display", VStr (str "page"));
    (str "locale", locale);
    (str "redirect_uri", redirectUri);
    (str "response_type", VStr (str "code"))] in
  let o := optional_prop o (str "access_type")
             (get_prop prov (str "offline")) (VStr (str "offline")) in
  let o := optional_prop o (str "scope")
             (get_prop prov (str "scope")) (get_prop prov (str "scope")) in
  optional_prop o (str "state")
    (get_prop prov (str "state")) (get_prop prov (str "state")).

(** The [parameters] object of [AuthenticateByCode]. *)
Definition code_parameters (prov : object) (redirectUri code : value)
  : object :=
  let o := [
    (str "client_id", get_prop prov (str "clientId"));
    (str "client_secret", get_prop prov (str "clientSecret"));
    (str "redirect_uri", redirectUri);
    (str "code", code);
    (str "grant_type", VStr (str "authorization_code"))] in
  let o := optional_prop o (str "scope")
             (get_prop prov (str "scope")) (get_prop prov (str "scope")) in
  optional_prop o (str "state")
    (get_prop prov (str "state")) (get_prop prov (str "state")).

(** The [options] that [request] builds for a string [uri]. *)
Definition request_options (uri method payload : jsstring) : options :=
  let u := replace uri (str "https://") [] in
  Options (substring u 0 (indexOf u (str "/")))
          (substring_from u (indexOf u (str "/")))
          443 method (str "application/x-www-form-urlencoded")
          (if jsstring_eqb method (str "POST") then byteLength payload else 0).

(** The body the response handler has when [end] comes. *)
Definition body_of (chunks : list jsstring) : jsstring :=
  fold_left (fun body d => body ++ d) chunks [].

(** [plain_names], decided. *)
Definition plain_namesb (o : object) : bool :=
  bool_decide (NoDup (map fst o)) &&
  forallb (fun kv => bool_decide (array_index kv.1 = None) &&
                     forallb unreserved kv.1) o.

(** The value of a field: what stands after its first [=]. *)
Definition field_value (f : jsstring) : jsstring :=
  drop (S (length (field_key f))) f.

(** The values a query string gives to the parameter [k]. *)
Definition query_params (qs k : jsstring) : list jsstring :=
  map field_value
      (List.filter (fun f => jsstring_eqb (field_key f) k) (query_fields qs)).

(** A field without ampersand. *)
Definition amp_free (f : jsstring) : bool :=
  forallb (fun c => negb (c =? 38)) f.

(** The characters of a query string: encoded text, [&] and [=]. *)
Definition query_char (c : N) : bool :=
  url_safe c || (c =? 38) || (c =? 61).

(** The locale [CreateRedirect] goes on with. *)
Definition effective_locale (locale : value) : value :=
  if negb (truthy locale) then VStr (str "en") else locale.

(** A world whose newest cell is the record [t]. *)
Definition token_last (h : list cell) (ob : list client_request)
    (cl : list (callback * cbarg)) (t : token) : world :=
  World (h ++ [CToken t]) ob cl.

(** Whether the body is JSON for [null]. *)
Definition is_null_reply (body : jsstring) : bool :=
  match JSON_parse body with
  | Some JNull => true
  | _ => false
  end.

(** What a form decoder makes of a percent-encoded ASCII text: [%XX] is
    the character [XX], and [+] a space. *)
Fixpoint percent_decode (s : jsstring) : jsstring :=
  match s with
  | [] => []
  | c :: r =>
    if c =? 37 then
      match r with
      | a :: b :: r' =>
        match hex_value a, hex_value b with
        | Some x, Some y => (16 * x + y) :: percent_decode r'
        | _, _ => c :: percent_decode r
        end
      | _ => c :: percent_decode r
      end
    else if c =? 43 then 32 :: percent_decode r
    else c :: percent_decode r
  end.

(** A computation keeps the cells [h0]: run in a world whose heap starts
    with [h0], it leaves a world whose heap starts with [h0], and what it
    returns satisfies [Q]. *)
Definition keeps {A} (h0 : list cell) (c : M A) (Q : A -> Prop) : Prop :=
  forall w, h0 `prefix_of` heap w ->
    h0 `prefix_of` heap (c w).2 /\
    forall a, (c w).1 = Ok a -> Q a.



(** A computation that stays off the network: it makes no request and
    calls no continuation. *)
Definition net_quiet {A} (c : M A) : Prop :=
  forall w, outbox (c w).2 = outbox w /\ calls (c w).2 = calls w.

(** A computation that goes to the network once: when it returns it has
    added one request, ended and not yet answered, whose handler holds the
    continuation [cb] and the flag [interpretBody]; when it throws it has
    added none; it calls no continuation. *)
Definition sends_one {A} (cb : callback) (interpretBody : value) (c : M A)
  : Prop :=
  forall w,
    calls (c w).2 = calls w /\
    match (c w).1 with
    | Ok _ =>
      exists r, outbox (c w).2 = outbox w ++ [r] /\
                req_ended r = true /\ req_answered r = false /\
                req_callback r = cb /\ req_interpretBody r = interpretBody
    | Throw _ => outbox (c w).2 = outbox w
    end.

(** A field of the record of [interpretReply] as it can be: [null], or a
    truthy value. *)
Definition null_or_truthy (j : json) : Prop :=
  j = JNull \/ json_truthy j = true.

(** The member [k] of a parsed object, when it is there and truthy. *)
Definition truthy_member (fields : list (jsstring * json)) (k : jsstring)
  : option json :=
  match obj_get fields k with
  | Some v => if json_truthy v then Some v else None
  | None => None
  end.

(** The first of two members that is there, [null] when none is. *)
Definition first_of (a b : option json) : json :=
  match a, b with
  | Some v, _ => v
  | None, Some v => v
  | None, None => JNull
  end.

(** A string without slash. *)
Definition slash_free (s : jsstring) : bool :=
  forallb (fun c => negb (c =? 47)) s.

(** The [parameters] object of [AuthenticateByToken]. *)
Definition token_parameters (prov : object) (refreshToken : value) : object :=
  let o := [
    (str "client_id", get_prop prov (str "clientId"));
    (str "client_secret", get_prop prov (str "clientSecret"));
    (str "refresh_token", refreshToken);
    (str "grant_type", VStr (str "refresh_token"))] in
  let o := optional_prop o (str "scope")
             (get_prop prov (str "scope")) (get_prop prov (str "scope")) in
  optional_prop o (str "state")
    (get_prop prov (str "state")) (get_prop prov (str "state")).

(** The field [k=v] of a form body, [v] as [buildQueryString] encodes it. *)
Definition form_field (k : string) (v : value) : jsstring :=
  str k ++ str "=" ++ encoded_twice (ToString v).

(** The field [k=v] when [v] is truthy, nothing otherwise. *)
Definition optional_field (k : string) (v : value) : list jsstring :=
  if truthy v then [form_field k v] else [].

(** A descriptor to try the statements on. *)
Definition sample_provider : object := [
  (str "clientId", VStr (str "id"));
  (str "clientSecret", VStr (str "s3cr3t"));
  (str "scope", VStr (str "email profile"));
  (str "authUri", VStr (str "https://provider.example/auth"));
  (str "accessTokenUri", VStr (str "https://provider.example/token"));
  (str "userInfoUri", VStr (str "https://provider.example/me"))].

(** The world in which the cell [l] holds the object [o]. *)
Definition at_loc (h : list cell) (ob : list client_request)
    (cl : list (callback * cbarg)) (l : loc) (o : object) : world :=
  World (<[l := CObj o]> h) ob cl.

(** A string of ASCII characters. *)
Definition ascii_only (s : jsstring) : bool := forallb (fun c => c <? 128) s.





(** The member [k] of a parsed object when it is there and truthy, [null]
    otherwise: what a line [if (reply[k]) response.f = reply[k];] leaves in
    a field that was [null]. *)
Definition member_or_null (fields : list (jsstring * json)) (k : jsstring)
  : json :=
  match truthy_member fields k with
  | Some v => v
  | None => JNull
  end.

(** * Properties *)

(** ** Characters *)

Lemma unreserved_ascii c : unreserved c = true -> c < 128.
Proof.
  unfold unreserved, is_alpha, is_digit, in_range; simpl.
  rewrite !orb_true_iff, !andb_true_iff, !N.leb_le, !N.eqb_eq. lia.
Qed.

Lemma unreserved_not_surrogate c :
  unreserved c = true ->
  is_low_surrogate c = false /\ is_high_surrogate c = false.
Proof.
  intros H%unreserved_ascii. unfold is_low_surrogate, is_high_surrogate, in_range.
  rewrite !andb_false_iff, !N.leb_gt. lia.
Qed.

Lemma unreserved_safe c : unreserved c = true -> url_safe c = true.
Proof. unfold url_safe. intros ->. reflexivity. Qed.

Lemma hex_digit_unreserved b : unreserved (hex_digit (N.land b 15)) = true.
Proof.
  assert (H : N.land b 15 < 16).
  { change 15 with (N.ones 4). rewrite N.land_ones. apply N.mod_lt. discriminate. }
  destruct (N.land b 15) as [|p]; [reflexivity|].
  do 4 (destruct p as [p|p|]; try reflexivity; try lia).
Qed.

Lemma pct_safe b : forallb url_safe (pct b) = true.
Proof.
  unfold pct. simpl. rewrite !unreserved_safe by apply hex_digit_unreserved.
  reflexivity.
Qed.

Lemma forallb_app_true {A} (f : A -> bool) (l1 l2 : list A) :
  forallb f l1 = true -> forallb f l2 = true -> forallb f (l1 ++ l2) = true.
Proof. intros H1 H2. rewrite forallb_app, H1, H2. reflexivity. Qed.

Lemma pct_utf8_safe v : forallb url_safe (pct_utf8 v) = true.
Proof.
  unfold pct_utf8. induction (utf8 v) as [|b l IH]; [reflexivity|].
  change (concat (map pct (b :: l))) with (pct b ++ concat (map pct l)).
  apply forallb_app_true; [apply pct_safe | exact IH].
Qed.

#[local] Arguments unreserved : simpl never.
#[local] Arguments is_low_surrogate : simpl never.
#[local] Arguments is_high_surrogate : simpl never.
#[local] Arguments pct : simpl never.
#[local] Arguments pct_utf8 : simpl never.
#[local] Arguments url_safe : simpl never.
#[local] Arguments cont_byte : simpl never.
#[local] Arguments str : simpl never.

Lemma safe_not_separator c :
  url_safe c = true -> (c =? 38) = false /\ (c =? 61) = false.
Proof.
  unfold url_safe, unreserved, is_alpha, is_digit, in_range; simpl.
  rewrite !orb_true_iff, !andb_true_iff, !N.leb_le, !N.eqb_eq, !N.eqb_neq. lia.
Qed.

(** ** The two encoders *)

Lemma outcome_map_ok {A B} (f : A -> B) (o : outcome A) (a : A) :
  o = Ok a -> outcome_map f o = Ok (f a).
Proof. intros ->. reflexivity. Qed.

(** [encodeURIComponent] returns on every well-formed string, and returns
    percent-encoded text. *)
Lemma encodeURIComponent_well_formed s :
  well_formed s = true ->
  exists e, encodeURIComponent s = Ok e /\ forallb url_safe e = true.
Proof.
  assert (H : forall n s, (length s <= n)%nat -> well_formed s = true ->
            exists e, encodeURIComponent s = Ok e /\ forallb url_safe e = true).
  { clear s. induction n as [|n IH]; intros [|c r] Hlen Hwf;
      try (exists []; split; reflexivity); simpl in Hlen; [lia|].
    simpl in Hwf |- *.
    destruct (unreserved c) eqn:Hu.
    - destruct (unreserved_not_surrogate c Hu) as [Hl Hh].
      rewrite Hl, Hh in Hwf.
      destruct (IH r) as (e & He & Hs); [lia|exact Hwf|].
      exists (c :: e). rewrite He. split; [reflexivity|].
      simpl. rewrite (unreserved_safe c Hu), Hs. reflexivity.
    - destruct (is_low_surrogate c); [discriminate|].
      destruct (is_high_surrogate c); simpl.
      + destruct r as [|k r']; [discriminate|].
        apply andb_true_iff in Hwf as [Hk Hwf]. rewrite Hk.
        destruct (IH r') as (e & He & Hs); [simpl in Hlen; lia|exact Hwf|].
        rewrite He. eexists. split; [reflexivity|].
        apply forallb_app_true; [apply pct_utf8_safe|exact Hs].
      + destruct (IH r) as (e & He & Hs); [lia|exact Hwf|].
        rewrite He. eexists. split; [reflexivity|].
        apply forallb_app_true; [apply pct_utf8_safe|exact Hs]. }
  apply (H (length s)). lia.
Qed.

Lemma encodeURIComponent_ok s :
  well_formed s = true -> encodeURIComponent s = Ok (uri_encoded s).
Proof.
  intros (e & He & _)%encodeURIComponent_well_formed.
  unfold uri_encoded. rewrite He. reflexivity.
Qed.

Lemma uri_encoded_safe s : forallb url_safe (uri_encoded s) = true.
Proof.
  unfold uri_encoded.
  assert (H : forall n s e, (length s <= n)%nat ->
            encodeURIComponent s = Ok e -> forallb url_safe e = true).
  { clear s. induction n as [|n IH]; intros [|c r] e Hlen He;
      simpl in Hlen, He; try lia; try (injection He as <-; reflexivity).
    destruct (unreserved c) eqn:Hu.
    - destruct (encodeURIComponent r) as [e'|] eqn:Hr; [|discriminate].
      injection He as <-. simpl.
      rewrite (unreserved_safe c Hu). apply (IH r); [lia|exact Hr].
    - destruct (is_low_surrogate c); [discriminate|].
      destruct (is_high_surrogate c); simpl in He.
      + destruct r as [|k r']; [discriminate|].
        destruct (is_low_surrogate k); [|discriminate].
        destruct (encodeURIComponent r') as [e'|] eqn:Hr; [|discriminate].
        injection He as <-.
        apply forallb_app_true; [apply pct_utf8_safe|].
        apply (IH r'); [simpl in Hlen; lia|exact Hr].
      + destruct (encodeURIComponent r) as [e'|] eqn:Hr; [|discriminate].
        injection He as <-.
        apply forallb_app_true; [apply pct_utf8_safe|].
        apply (IH r); [lia|exact Hr]. }
  destruct (encodeURIComponent s) as [e|] eqn:He; [|reflexivity].
  apply (H (length s) s); [lia|exact He].
Qed.

Lemma safe_ascii c : url_safe c = true -> (c <? 128) = true.
Proof.
  unfold url_safe. rewrite orb_true_iff, N.eqb_eq, N.ltb_lt.
  intros [H%unreserved_ascii| ->]; [exact H|reflexivity].
Qed.

(** [querystring.escape] returns on percent-encoded text, and returns
    percent-encoded text. *)
Lemma qsEscape_safe s :
  forallb url_safe s = true ->
  exists e, qsEscape s = Ok e /\ forallb url_safe e = true.
Proof.
  induction s as [|c r IH]; intros Hs; [exists []; split; reflexivity|].
  simpl in Hs. apply andb_true_iff in Hs as [Hc Hr].
  destruct (IH Hr) as (e & He & Hse).
  simpl. rewrite (safe_ascii c Hc), He. eexists. split; [reflexivity|].
  apply forallb_app_true; [|exact Hse].
  destruct (unreserved c) eqn:Hu; [|apply pct_safe].
  simpl. rewrite (unreserved_safe c Hu). reflexivity.
Qed.

Lemma qsEscape_ok s :
  forallb url_safe s = true -> qsEscape s = Ok (escaped s).
Proof.
  intros (e & He & _)%qsEscape_safe. unfold escaped. rewrite He. reflexivity.
Qed.

Lemma encoded_twice_safe s : forallb url_safe (encoded_twice s) = true.
Proof.
  unfold encoded_twice, escaped.
  destruct (qsEscape_safe (uri_encoded s) (uri_encoded_safe s)) as (e & -> & He).
  exact He.
Qed.

(** A string of unreserved characters goes through both encoders
    unchanged. *)
Lemma encodeURIComponent_unreserved s :
  forallb unreserved s = true -> encodeURIComponent s = Ok s.
Proof.
  induction s as [|c r IH]; [reflexivity|]. simpl.
  intros [Hc Hr]%andb_true_iff. rewrite Hc, (IH Hr). reflexivity.
Qed.

Lemma qsEscape_unreserved s :
  forallb unreserved s = true -> qsEscape s = Ok s.
Proof.
  induction s as [|c r IH]; [reflexivity|]. simpl.
  intros [Hc Hr]%andb_true_iff.
  rewrite (safe_ascii c (unreserved_safe c Hc)), Hc, (IH Hr). reflexivity.
Qed.

Lemma encoded_twice_unreserved s :
  forallb unreserved s = true -> encoded_twice s = s.
Proof.
  intros H. unfold encoded_twice, uri_encoded, escaped.
  rewrite (encodeURIComponent_unreserved s H), (qsEscape_unreserved s H).
  reflexivity.
Qed.

Lemma unreserved_well_formed s :
  forallb unreserved s = true -> well_formed s = true.
Proof.
  induction s as [|c r IH]; [reflexivity|]. simpl.
  intros [Hc Hr]%andb_true_iff.
  destruct (unreserved_not_surrogate c Hc) as [-> ->]. exact (IH Hr).
Qed.

(** ** Objects *)

Lemma jsstring_eqb_refl k : jsstring_eqb k k = true.
Proof. apply bool_decide_eq_true_2. reflexivity. Qed.

Lemma jsstring_eqb_neq k k' : k <> k' -> jsstring_eqb k k' = false.
Proof. apply bool_decide_eq_false_2. Qed.

Lemma get_prop_middle (a b : object) k v :
  ~ In k (map fst a) -> get_prop (a ++ (k, v) :: b) k = v.
Proof.
  induction a as [|[k' v'] a IH]; simpl; intros Hk.
  - rewrite jsstring_eqb_refl. reflexivity.
  - rewrite jsstring_eqb_neq by tauto. apply IH. tauto.
Qed.

Lemma set_prop_middle (a b : object) k v v' :
  ~ In k (map fst a) ->
  set_prop (a ++ (k, v) :: b) k v' = a ++ (k, v') :: b.
Proof.
  induction a as [|[k' v''] a IH]; simpl; intros Hk.
  - rewrite jsstring_eqb_refl. reflexivity.
  - rewrite jsstring_eqb_neq by tauto. rewrite IH by tauto. reflexivity.
Qed.

(** A new name is added after the others. *)
Lemma set_prop_new (o : object) k v :
  ~ In k (map fst o) -> set_prop o k v = o ++ [(k, v)].
Proof.
  induction o as [|[k' v'] o IH]; simpl; intros Hk; [reflexivity|].
  rewrite jsstring_eqb_neq by tauto. rewrite IH by tauto. reflexivity.
Qed.

Lemma own_keys_plain (o : object) :
  Forall (fun kv => array_index kv.1 = None /\ forallb unreserved kv.1 = true) o ->
  own_keys o = map fst o.
Proof.
  intros H. unfold own_keys.
  assert (Hi : index_keys o = [] /\ name_keys o = map fst o).
  { induction H as [|[k v] o [Hk _] _ [IH1 IH2]]; [split; reflexivity|].
    simpl in *. rewrite Hk, IH1, IH2. split; reflexivity. }
  destruct Hi as [-> ->]. reflexivity.
Qed.

Lemma encode_object_keys (o : object) :
  map fst (encode_object o) = map fst o.
Proof. unfold encode_object. rewrite map_map. reflexivity. Qed.

Lemma encode_object_app (a b : object) :
  encode_object (a ++ b) = encode_object a ++ encode_object b.
Proof. apply map_app. Qed.

(** ** The heap: the last cell *)

Lemma lookup_last {A} (h : list A) (c : A) : (h ++ [c]) !! length h = Some c.
Proof. induction h; simpl; auto. Qed.

Lemma insert_last {A} (h : list A) (c c' : A) :
  <[length h := c']> (h ++ [c]) = h ++ [c'].
Proof. induction h; simpl; [reflexivity|]. f_equal. assumption. Qed.

Lemma lookup_before {A} (h k : list A) (p : nat) (c : A) :
  h !! p = Some c -> (h ++ k) !! p = Some c.
Proof. intros H. apply lookup_app_l_Some. exact H. Qed.

(** ** [buildQueryString] *)

Section BuildQueryString.
Variables (h : list cell) (ob : list client_request)
          (cl : list (callback * cbarg)).

Lemma get_field_last o k :
  get_field (length h) k (at_last h ob cl o) = (Ok (get_prop o k), at_last h ob cl o).
Proof. unfold get_field, at_last. simpl. rewrite lookup_last. reflexivity. Qed.

Lemma set_field_last o k v :
  set_field (length h) k v (at_last h ob cl o) = (Ok tt, at_last h ob cl (set_prop o k v)).
Proof.
  unfold set_field, at_last, set_heap. simpl.
  rewrite lookup_last, insert_last. reflexivity.
Qed.

Lemma object_keys_last o :
  object_keys (length h) (at_last h ob cl o) = (Ok (own_keys o), at_last h ob cl o).
Proof. unfold object_keys, at_last. simpl. rewrite lookup_last. reflexivity. Qed.

(** The [forEach] loop, at the point where the properties [a] have been
    encoded and the properties [b] are still to do. *)
Lemma encode_loop (a b : object) :
  NoDup (map fst (a ++ b)) -> encodable b ->
  for_each (map fst b) (fun key =>
      v <- get_field (length h) key ;;
      e <- lift (encodeURIComponent (ToString v)) ;;
      set_field (length h) key (VStr e))
    (at_last h ob cl (encode_object a ++ b))
  = (Ok tt, at_last h ob cl (encode_object (a ++ b))).
Proof.
  revert a. induction b as [|[k v] b IH]; intros a Hnd Henc.
  - simpl. rewrite !app_nil_r. reflexivity.
  - inversion Henc as [|? ? Hv Hb]; subst. simpl in Hv.
    assert (Hk : ~ In k (map fst (encode_object a))).
    { rewrite encode_object_keys. rewrite map_app in Hnd.
      apply NoDup_ListNoDup in Hnd.
      apply NoDup_remove_2 in Hnd. rewrite in_app_iff in Hnd. tauto. }
    cbn [map fst for_each]. unfold bind at 1 2.
    rewrite get_field_last, (get_prop_middle _ _ _ _ Hk).
    unfold bind at 1. unfold lift. rewrite (encodeURIComponent_ok _ Hv).
    rewrite set_field_last, (set_prop_middle _ _ _ _ _ Hk).
    specialize (IH (a ++ [(k, v)])).
    rewrite encode_object_app, <- !app_assoc in IH. simpl in IH.
    apply IH; [exact Hnd|exact Hb].
Qed.
End BuildQueryString.

(** ** [querystring.stringify] on an encoded object *)

Lemma stringify_field_encoded (a b : object) k v :
  ~ In k (map fst a) -> forallb unreserved k = true ->
  stringify_field (encode_object (a ++ (k, v) :: b)) k
  = Ok (k ++ str "=" ++ encoded_twice (ToString v)).
Proof.
  intros Hk Hu. unfold stringify_field.
  rewrite (qsEscape_unreserved k Hu), encode_object_app. simpl.
  rewrite get_prop_middle by (rewrite encode_object_keys; exact Hk).
  simpl. rewrite (qsEscape_ok _ (uri_encoded_safe _)). reflexivity.
Qed.

Lemma stringify_fields_encoded (a b : object) (first : bool) :
  plain_names (a ++ b) ->
  stringify_fields (encode_object (a ++ b)) (map fst b) first
  = Ok (if first then join_amp (object_fields b)
        else tail_join (object_fields b)).
Proof.
  revert a first. induction b as [|[k v] b IH]; intros a first [Hnd Hpl].
  - destruct first; reflexivity.
  - assert (Hk : ~ In k (map fst a)).
    { rewrite map_app in Hnd. apply NoDup_ListNoDup in Hnd.
      apply NoDup_remove_2 in Hnd. rewrite in_app_iff in Hnd. tauto. }
    assert (Hu : forallb unreserved k = true).
    { apply Forall_app in Hpl as [_ Hpl]. inversion Hpl as [|? ? [_ H] _].
      exact H. }
    cbn [map fst stringify_fields].
    rewrite (stringify_field_encoded a b k v Hk Hu).
    specialize (IH (a ++ [(k, v)]) false).
    rewrite <- app_assoc in IH. simpl in IH.
    rewrite IH by (split; assumption).
    destruct first; reflexivity.
Qed.

Section BuildQueryStringResult.
Variables (h : list cell) (ob : list client_request)
          (cl : list (callback * cbarg)).

(** [buildQueryString] on the newest object: every value is replaced by
    its encoding, and the fields come out in the order of the object. *)
Lemma buildQueryString_last (o : object) :
  plain_names o -> encodable o ->
  buildQueryString (length h) (at_last h ob cl o)
  = (Ok (join_amp (object_fields o)), at_last h ob cl (encode_object o)).
Proof.
  intros Hpl Henc. unfold buildQueryString. unfold bind at 1.
  rewrite object_keys_last, (own_keys_plain o (proj2 Hpl)).
  unfold bind at 1.
  pose proof (encode_loop h ob cl [] o (proj1 Hpl) Henc) as Hloop.
  simpl in Hloop. rewrite Hloop. simpl.
  unfold querystring_stringify, at_last. simpl. rewrite lookup_last.
  rewrite (own_keys_plain (encode_object o)).
  - rewrite encode_object_keys.
    pose proof (stringify_fields_encoded [] o true Hpl) as Hs.
    simpl in Hs. rewrite Hs. reflexivity.
  - destruct Hpl as [_ Hpl]. unfold encode_object.
    apply Forall_map. exact Hpl.
Qed.
End BuildQueryStringResult.

(** ** Running the monad *)

Lemma bind_ok {A B} (c : M A) (k : A -> M B) w a w' :
  c w = (Ok a, w') -> bind c k w = k a w'.
Proof. unfold bind. intros ->. reflexivity. Qed.

Lemma bind_throw {A B} (c : M A) (k : A -> M B) w e w' :
  c w = (Throw e, w') -> bind c k w = (Throw e, w').
Proof. unfold bind. intros ->. reflexivity. Qed.

Ltac run_with lem := erewrite bind_ok by (apply lem; eassumption).

Section Provider.
Variables (h : list cell) (ob : list client_request)
          (cl : list (callback * cbarg)).
Variables (p : loc) (prov : object).
Hypothesis provider_at : h !! p = Some (CObj prov).

Lemma get_field_provider k :
  get_field p k (World h ob cl) = (Ok (get_prop prov k), World h ob cl).
Proof. unfold get_field. simpl. rewrite provider_at. reflexivity. Qed.

Lemma get_field_provider_last o k :
  get_field p k (at_last h ob cl o)
  = (Ok (get_prop prov k), at_last h ob cl o).
Proof.
  unfold get_field, at_last. simpl.
  rewrite (lookup_before _ _ _ _ provider_at). reflexivity.
Qed.

Lemma alloc_object o :
  alloc (CObj o) (World h ob cl) = (Ok (length h), at_last h ob cl o).
Proof. reflexivity. Qed.

Lemma optional_set o k c v :
  when (truthy c) (set_field (length h) k v) (at_last h ob cl o)
  = (Ok tt, at_last h ob cl (optional_prop o k c v)).
Proof.
  unfold when, optional_prop. destruct (truthy c); [|reflexivity].
  apply set_field_last.
Qed.

(** [CreateRedirect] up to the call of [buildQueryString]. *)
Lemma CreateRedirect_parameters redirectUri locale :
  CreateRedirect p redirectUri locale (World h ob cl)
  = (qs <- buildQueryString (length h) ;;
     ret (ToString (get_prop prov (str "authUri")) ++ str "?" ++ qs))
      (at_last h ob cl (redirect_parameters prov redirectUri locale)).
Proof.
  unfold CreateRedirect.
  run_with get_field_provider. run_with alloc_object.
  run_with get_field_provider_last. run_with optional_set.
  run_with get_field_provider_last. run_with optional_set.
  run_with get_field_provider_last. run_with optional_set.
  run_with get_field_provider_last. reflexivity.
Qed.
End Provider.

(** ** The parameter objects *)

Lemma plain_names_check (o : object) : plain_namesb o = true -> plain_names o.
Proof.
  unfold plain_namesb, plain_names. intros [Hnd Hall]%andb_true_iff. split.
  - exact (proj1 (bool_decide_eq_true _) Hnd).
  - apply Forall_forall. intros kv Hin.
    rewrite forallb_forall in Hall.
    specialize (Hall kv (proj1 (list_elem_of_In _ _) Hin)).
    apply andb_true_iff in Hall as [H1 H2]. split; [|exact H2].
    exact (proj1 (bool_decide_eq_true _) H1).
Qed.

Lemma get_prop_encodable (o : object) k : encodable o -> wf_value (get_prop o k).
Proof.
  induction 1 as [|[k' v] o Hv _ IH]; [reflexivity|].
  simpl. destruct (jsstring_eqb k' k); [exact Hv|exact IH].
Qed.

Lemma set_prop_encodable (o : object) k v :
  encodable o -> wf_value v -> encodable (set_prop o k v).
Proof.
  intros Ho Hv. induction Ho as [|[k' v'] o Hv' Ho IH]; simpl.
  - repeat constructor. exact Hv.
  - destruct (jsstring_eqb k' k); constructor; assumption.
Qed.

Lemma optional_prop_encodable (o : object) k c v :
  encodable o -> wf_value v -> encodable (optional_prop o k c v).
Proof.
  intros Ho Hv. unfold optional_prop.
  destruct (truthy c); [apply set_prop_encodable|]; assumption.
Qed.

Lemma default_locale_wf locale :
  wf_value locale ->
  wf_value (if negb (truthy locale) then VStr (str "en") else locale).
Proof. intros H. destruct (truthy locale); [exact H|reflexivity]. Qed.

Lemma redirect_parameters_encodable prov redirectUri locale :
  encodable prov -> wf_value redirectUri -> wf_value locale ->
  encodable (redirect_parameters prov redirectUri locale).
Proof.
  intros Hp Hr Hl. unfold redirect_parameters.
  repeat apply optional_prop_encodable; try (apply get_prop_encodable; exact Hp);
    try reflexivity.
  repeat constructor; simpl; try reflexivity; try assumption.
  - apply get_prop_encodable; exact Hp.
  - apply default_locale_wf. exact Hl.
Qed.

Lemma redirect_parameters_plain prov redirectUri locale :
  plain_names (redirect_parameters prov redirectUri locale).
Proof.
  apply plain_names_check. unfold redirect_parameters, optional_prop.
  destruct (truthy (get_prop prov (str "offline")));
    destruct (truthy (get_prop prov (str "scope")));
    destruct (truthy (get_prop prov (str "state"))); vm_compute; reflexivity.
Qed.

(** ** Fields of a query string *)

Lemma split_on_amp_free f : amp_free f = true -> split_on 38 f = [f].
Proof.
  induction f as [|c f IH]; [reflexivity|]. simpl.
  intros [Hc Hf]%andb_true_iff. apply negb_true_iff in Hc.
  rewrite Hc, (IH Hf). reflexivity.
Qed.

Lemma split_on_field f r :
  amp_free f = true -> split_on 38 (f ++ 38 :: r) = f :: split_on 38 r.
Proof.
  induction f as [|c f IH]; [reflexivity|]. simpl.
  intros [Hc Hf]%andb_true_iff. apply negb_true_iff in Hc.
  rewrite Hc, (IH Hf). reflexivity.
Qed.

Lemma split_on_tail_join f fs :
  amp_free f = true -> Forall (fun g => amp_free g = true) fs ->
  split_on 38 (f ++ tail_join fs) = f :: fs.
Proof.
  intros Hf Hfs. revert f Hf. induction Hfs as [|g fs Hg _ IH]; intros f Hf.
  - unfold tail_join. simpl. rewrite app_nil_r. apply split_on_amp_free, Hf.
  - change (tail_join (g :: fs)) with (38 :: (g ++ tail_join fs)).
    rewrite (split_on_field f _ Hf), (IH g Hg). reflexivity.
Qed.

Lemma query_fields_join f fs :
  Forall (fun g => amp_free g = true) (f :: fs) ->
  query_fields (join_amp (f :: fs)) = f :: fs.
Proof.
  intros H. inversion H; subst. apply split_on_tail_join; assumption.
Qed.

Lemma unreserved_not_equals k :
  forallb unreserved k = true ->
  forallb (fun c => negb (c =? 61) && negb (c =? 38)) k = true.
Proof.
  intros H. apply forallb_forall. intros c Hc.
  rewrite forallb_forall in H. specialize (H c Hc).
  destruct (safe_not_separator c (unreserved_safe c H)) as [-> ->]. reflexivity.
Qed.

Lemma safe_amp_free s : forallb url_safe s = true -> amp_free s = true.
Proof.
  intros H. apply forallb_forall. intros c Hc.
  rewrite forallb_forall in H.
  destruct (safe_not_separator c (H c Hc)) as [-> _]. reflexivity.
Qed.

Lemma amp_free_app a b : amp_free (a ++ b) = amp_free a && amp_free b.
Proof. apply forallb_app. Qed.

Lemma unreserved_amp_free k : forallb unreserved k = true -> amp_free k = true.
Proof.
  intros H. apply safe_amp_free, forallb_forall. intros c Hc.
  rewrite forallb_forall in H. apply unreserved_safe, H, Hc.
Qed.

Lemma field_amp_free k v :
  forallb unreserved k = true ->
  amp_free (k ++ str "=" ++ encoded_twice v) = true.
Proof.
  intros Hk. rewrite !amp_free_app.
  rewrite (safe_amp_free _ (encoded_twice_safe v)), (unreserved_amp_free k Hk).
  reflexivity.
Qed.

Lemma field_key_field k v :
  forallb unreserved k = true -> field_key (k ++ str "=" ++ v) = k.
Proof.
  intros Hk%unreserved_not_equals.
  induction k as [|c k IH]; [reflexivity|]. simpl in *.
  apply andb_true_iff in Hk as [Hc Hk].
  apply andb_true_iff in Hc as [Hc _]. apply negb_true_iff in Hc.
  rewrite Hc, (IH Hk). reflexivity.
Qed.

Lemma field_value_field k v :
  forallb unreserved k = true -> field_value (k ++ str "=" ++ v) = v.
Proof.
  intros Hk. unfold field_value. rewrite (field_key_field k v Hk).
  change (str "=" ++ v) with (61 :: v).
  induction k as [|c k IH]; [reflexivity|].
  simpl in Hk. apply andb_true_iff in Hk as [_ Hk]. exact (IH Hk).
Qed.

Lemma object_fields_amp_free (o : object) :
  plain_names o -> Forall (fun g => amp_free g = true) (object_fields o).
Proof.
  intros [_ Hpl]. unfold object_fields. apply Forall_map.
  eapply Forall_impl; [exact Hpl|]. intros [k v] [_ Hk]. simpl.
  apply field_amp_free, Hk.
Qed.

(** The fields of the string [buildQueryString] returns are those of the
    object, one by one. *)
Lemma query_fields_object (o : object) :
  plain_names o -> o <> [] ->
  query_fields (join_amp (object_fields o)) = object_fields o.
Proof.
  intros Hpl Hne. pose proof (object_fields_amp_free o Hpl) as H.
  destruct o as [|kv o]; [congruence|]. apply query_fields_join. exact H.
Qed.

Lemma query_params_object (o : object) k :
  plain_names o -> o <> [] ->
  query_params (join_amp (object_fields o)) k
  = map (fun kv => encoded_twice (ToString kv.2))
        (List.filter (fun kv => jsstring_eqb kv.1 k) o).
Proof.
  intros Hpl Hne. unfold query_params.
  rewrite (query_fields_object o Hpl Hne). destruct Hpl as [_ Hpl].
  clear Hne. unfold object_fields.
  induction Hpl as [|[k' v] o [_ Hk] _ IH]; [reflexivity|].
  cbn [map List.filter fst snd].
  rewrite (field_key_field k' _ Hk).
  destruct (jsstring_eqb k' k); cbn [map fst snd]; rewrite IH; [|reflexivity].
  rewrite (field_value_field k' _ Hk). reflexivity.
Qed.

Section Redirect.
Variables (h : list cell) (ob : list client_request)
          (cl : list (callback * cbarg)).
Variables (p : loc) (prov : object).
Hypothesis provider_at : h !! p = Some (CObj prov).
Hypothesis provider_wf : encodable prov.

(** [CreateRedirect] returns, with the fields of its [parameters] object
    behind the provider's [authUri]; the object, encoded, is the one new
    cell. *)
Lemma CreateRedirect_run redirectUri locale :
  wf_value redirectUri -> wf_value locale ->
  CreateRedirect p redirectUri locale (World h ob cl)
  = (Ok (ToString (get_prop prov (str "authUri")) ++ str "?" ++
         join_amp (object_fields
                     (redirect_parameters prov redirectUri locale))),
     at_last h ob cl
       (encode_object (redirect_parameters prov redirectUri locale))).
Proof.
  intros Hr Hl.
  rewrite (CreateRedirect_parameters h ob cl p prov provider_at).
  erewrite bind_ok; [reflexivity|].
  apply buildQueryString_last.
  - apply redirect_parameters_plain.
  - apply redirect_parameters_encodable; assumption.
Qed.
End Redirect.


Lemma safe_query_char s : forallb url_safe s = true -> forallb query_char s = true.
Proof.
  intros H. apply forallb_forall. intros c Hc. rewrite forallb_forall in H.
  unfold query_char. rewrite (H c Hc). reflexivity.
Qed.

Lemma field_query_chars k v :
  forallb unreserved k = true ->
  forallb query_char (k ++ str "=" ++ encoded_twice v) = true.
Proof.
  intros Hk. rewrite !forallb_app.
  rewrite (safe_query_char _ (encoded_twice_safe v)).
  rewrite (safe_query_char k).
  - reflexivity.
  - apply forallb_forall. intros c Hc. rewrite forallb_forall in Hk.
    apply unreserved_safe, Hk, Hc.
Qed.

Lemma tail_join_chars fs :
  Forall (fun f => forallb query_char f = true) fs ->
  forallb query_char (tail_join fs) = true.
Proof.
  induction 1 as [|f fs Hf _ IH]; [reflexivity|].
  change (tail_join (f :: fs)) with (str "&" ++ f ++ tail_join fs).
  rewrite !forallb_app, Hf, IH. reflexivity.
Qed.

Lemma object_query_chars (o : object) :
  plain_names o -> forallb query_char (join_amp (object_fields o)) = true.
Proof.
  intros [_ Hpl].
  assert (H : Forall (fun f => forallb query_char f = true) (object_fields o)).
  { unfold object_fields. apply Forall_map.
    eapply Forall_impl; [exact Hpl|]. intros [k v] [_ Hk].
    apply field_query_chars, Hk. }
  destruct H as [|f fs Hf Hfs]; [reflexivity|].
  change (join_amp (f :: fs)) with (f ++ tail_join fs).
  rewrite forallb_app, Hf, (tail_join_chars fs Hfs).
  reflexivity.
Qed.

Lemma redirect_parameters_locale prov redirectUri locale :
  List.filter (fun kv => jsstring_eqb kv.1 (str "locale"))
              (redirect_parameters prov redirectUri locale)
  = [(str "locale", effective_locale locale)].
Proof.
  unfold redirect_parameters, optional_prop.
  destruct (truthy (get_prop prov (str "offline")));
    destruct (truthy (get_prop prov (str "scope")));
    destruct (truthy (get_prop prov (str "state"))); vm_compute; reflexivity.
Qed.

Lemma redirect_parameters_nonempty prov redirectUri locale :
  redirect_parameters prov redirectUri locale <> [].
Proof.
  intros H.
  pose proof (redirect_parameters_locale prov redirectUri locale) as Hl.
  rewrite H in Hl. discriminate.
Qed.











(** ** [interpretReply] *)

Section InterpretReply.
Variables (h : list cell) (ob : list client_request)
          (cl : list (callback * cbarg)).

Lemma update_token_last t f :
  update_token (length h) f (token_last h ob cl t)
  = (Ok tt, token_last h ob cl (f t)).
Proof.
  unfold update_token, token_last, set_heap. simpl.
  rewrite lookup_last, insert_last. reflexivity.
Qed.

Lemma copy_field_last reply k assign t :
  reply <> JNull ->
  copy_field reply k (length h) assign (token_last h ob cl t)
  = (Ok tt, token_last h ob cl (pick reply k assign t)).
Proof.
  intros Hnn. unfold copy_field, pick.
  assert (Hget : exists v, json_get reply k = Ok v)
    by (destruct reply; try congruence; eexists; reflexivity).
  destruct Hget as [v Hv]. rewrite Hv.
  erewrite bind_ok by reflexivity.
  destruct v as [j|]; [|reflexivity].
  unfold when. destruct (json_truthy j); [|reflexivity].
  apply update_token_last.
Qed.

Lemma copy_field_null k assign w :
  copy_field JNull k (length h) assign w = (Throw TypeError, w).
Proof. reflexivity. Qed.

(** On a reply that is not [null], [interpretReply] returns a new record
    that holds what the five lines put into it. *)
Lemma interpretReply_run body :
  parsed_reply body <> JNull ->
  interpretReply body (World h ob cl)
  = (Ok (length h),
     token_last h ob cl (interpret_token (parsed_reply body))).
Proof.
  intros Hnn. unfold interpretReply. fold (parsed_reply body).
  erewrite bind_ok by reflexivity.
  change (set_heap (World h ob cl) (heap (World h ob cl) ++ [CToken (Token JNull JNull JNull)]))
    with (token_last h ob cl (Token JNull JNull JNull)).
  change (length (heap (World h ob cl))) with (length h).
  do 5 (erewrite bind_ok by (apply copy_field_last; exact Hnn)).
  reflexivity.
Qed.

(** On [null] the first line throws. *)
Lemma interpretReply_throw body :
  parsed_reply body = JNull ->
  interpretReply body (World h ob cl)
  = (Throw TypeError, token_last h ob cl (Token JNull JNull JNull)).
Proof.
  intros Hn. unfold interpretReply. fold (parsed_reply body). rewrite Hn.
  reflexivity.
Qed.
End InterpretReply.

Lemma parsed_reply_null body :
  parsed_reply body = JNull <-> JSON_parse body = Some JNull.
Proof.
  unfold parsed_reply. destruct (JSON_parse body) as [j|]; split;
    congruence.
Qed.

(** C4: on a body that is not JSON, [interpretReply] returns, and the
    record it returns holds [null] in all three fields. *)
Theorem interpretReply_not_json
    (h : list cell) (ob : list client_request) (cl : list (callback * cbarg))
    (body : jsstring) :
  JSON_parse body = None ->
  interpretReply body (World h ob cl)
  = (Ok (length h), World (h ++ [CToken (Token JNull JNull JNull)]) ob cl).
Proof.
  intros Hp. rewrite interpretReply_run.
  - unfold parsed_reply. rewrite Hp. reflexivity.
  - unfold parsed_reply. rewrite Hp. discriminate.
Qed.

Lemma interpretReply_not_json_witness :
  JSON_parse (str "not json") = None /\
  interpretReply (str "not json") (World [] [] [])
  = (Ok 0%nat, World [CToken (Token JNull JNull JNull)] [] []).
Proof.
  split; [reflexivity|].
  apply (interpretReply_not_json [] [] [] (str "not json")). reflexivity.
Defined.

(** C10: on the body [null] [interpretReply] throws a TypeError; on every
    body it throws exactly when the body is JSON for [null], and returns
    otherwise. *)
Theorem interpretReply_null
    (h : list cell) (ob : list client_request) (cl : list (callback * cbarg))
    (body : jsstring) :
  (interpretReply (str "null") (World h ob cl)).1 = Throw TypeError /\
  (interpretReply body (World h ob cl)).1
  = if is_null_reply body then Throw TypeError else Ok (length h).
Proof.
  split.
  - rewrite interpretReply_throw; reflexivity.
  - unfold is_null_reply.
    destruct (JSON_parse body) as [j|] eqn:Hp.
    + destruct j;
        try (rewrite interpretReply_run;
             [reflexivity|unfold parsed_reply; rewrite Hp; discriminate]).
      rewrite interpretReply_throw; [reflexivity|].
      unfold parsed_reply. rewrite Hp. reflexivity.
    + rewrite interpretReply_run;
        [reflexivity|unfold parsed_reply; rewrite Hp; discriminate].
Qed.

Lemma pick_expires_refreshToken reply k t :
  refreshToken (pick reply k set_expires t) = refreshToken t.
Proof.
  unfold pick. destruct (json_get reply k) as [[j|]|]; try reflexivity.
  destruct (json_truthy j); reflexivity.
Qed.

Lemma pick_truthy fields k assign t v :
  obj_get fields k = Some v -> json_truthy v = true ->
  pick (JObj fields) k assign t = assign v t.
Proof. intros Hg Ht. unfold pick. simpl. rewrite Hg, Ht. reflexivity. Qed.

Lemma pick_falsy fields k assign t v :
  obj_get fields k = Some v -> json_truthy v = false ->
  pick (JObj fields) k assign t = t.
Proof. intros Hg Ht. unfold pick. simpl. rewrite Hg, Ht. reflexivity. Qed.

Lemma pick_member fields k assign t :
  pick (JObj fields) k assign t
  = match truthy_member fields k with
    | Some v => assign v t
    | None => t
    end.
Proof.
  unfold pick, truthy_member. simpl.
  destruct (obj_get fields k) as [v|]; [|reflexivity].
  destruct (json_truthy v); reflexivity.
Qed.

Lemma truthy_member_at fields k v :
  obj_get fields k = Some v ->
  truthy_member fields k = if json_truthy v then Some v else None.
Proof. intros H. unfold truthy_member. rewrite H. reflexivity. Qed.

(** C1, as it holds: when the body parses to an object with a [state],
    the [refreshToken] of the record [interpretReply] returns is that
    [state] when it is truthy, whatever [refresh_token] was; when it is
    falsy the line is skipped, and the [refreshToken] is the
    [refresh_token] of the body when that is there and truthy, and [null]
    otherwise. *)
Theorem interpretReply_state_overwrites
    (h : list cell) (ob : list client_request) (cl : list (callback * cbarg))
    (body : jsstring) (fields : list (jsstring * json)) (s : json) :
  JSON_parse body = Some (JObj fields) ->
  obj_get fields (str "state") = Some s ->
  exists t,
    interpretReply body (World h ob cl)
    = (Ok (length h), World (h ++ [CToken t]) ob cl) /\
    refreshToken t
    = if json_truthy s then s
      else member_or_null fields (str "refresh_token").
Proof.
  intros Hp Hs.
  assert (Hr : parsed_reply body = JObj fields)
    by (unfold parsed_reply; rewrite Hp; reflexivity).
  exists (interpret_token (JObj fields)). split.
  - rewrite interpretReply_run; rewrite Hr; [reflexivity|discriminate].
  - unfold interpret_token, member_or_null.
    rewrite !pick_expires_refreshToken, !pick_member.
    rewrite (truthy_member_at fields (str "state") s Hs).
    destruct (json_truthy s); [reflexivity|].
    destruct (truthy_member fields (str "refresh_token"));
      destruct (truthy_member fields (str "access_token")); reflexivity.
Qed.

Lemma interpretReply_state_overwrites_witness :
  exists t,
    interpretReply (dq "{'refresh_token':'R','state':'S'}") (World [] [] [])
    = (Ok 0%nat, World [CToken t] [] []) /\
    refreshToken t = JStr (str "S").
Proof.
  destruct (interpretReply_state_overwrites [] [] []
              (dq "{'refresh_token':'R','state':'S'}")
              [(str "refresh_token", JStr (str "R"));
               (str "state", JStr (str "S"))]
              (JStr (str "S")) eq_refl eq_refl) as (t & Hrun & Ht).
  exists t. split; [exact Hrun|exact Ht].
Defined.

(** C1, as stated, fails: with an empty [state] beside a [refresh_token],
    the [refreshToken] of the result is the refresh token, not the state. *)
Lemma interpretReply_state_empty_counterexample :
  JSON_parse (dq "{'refresh_token':'R','state':''}")
  = Some (JObj [(str "refresh_token", JStr (str "R")); (str "state", JStr [])]) /\
  interpretReply (dq "{'refresh_token':'R','state':''}") (World [] [] [])
  = (Ok 0%nat, World [CToken (Token JNull (JStr (str "R")) JNull)] [] []) /\
  JStr (str "R") <> JStr [].
Proof. split; [reflexivity|split; [reflexivity|discriminate]]. Qed.

(** C5, as it holds: the body [{"access_token":"A","expires_in":120}]
    gives [accessToken] ["A"], [refreshToken] [null] and [expires] [120];
    and when the body parses to an object with an [expires_in], the
    [expires] of the result is that [expires_in] when it is truthy,
    whatever [expires] was; when it is falsy the line is skipped, and the
    [expires] of the result is the [expires] of the body when that is
    there and truthy, and [null] otherwise. *)
Theorem interpretReply_expires_in
    (h : list cell) (ob : list client_request) (cl : list (callback * cbarg)) :
  interpretReply (dq "{'access_token':'A','expires_in':120}") (World h ob cl)
  = (Ok (length h),
     World (h ++ [CToken (Token (JStr (str "A")) JNull (JNum 120 0))]) ob cl) /\
  forall (body : jsstring) (fields : list (jsstring * json)) (v : json),
    JSON_parse body = Some (JObj fields) ->
    obj_get fields (str "expires_in") = Some v ->
    exists t,
      interpretReply body (World h ob cl)
      = (Ok (length h), World (h ++ [CToken t]) ob cl) /\
      expires t
      = if json_truthy v then v else member_or_null fields (str "expires").
Proof.
  split.
  - rewrite interpretReply_run; [reflexivity|discriminate].
  - intros body fields v Hp Hv.
    assert (Hr : parsed_reply body = JObj fields)
      by (unfold parsed_reply; rewrite Hp; reflexivity).
    exists (interpret_token (JObj fields)). split.
    + rewrite interpretReply_run; rewrite Hr; [reflexivity|discriminate].
    + unfold interpret_token, member_or_null. rewrite !pick_member.
      rewrite (truthy_member_at fields (str "expires_in") v Hv).
      destruct (json_truthy v); [reflexivity|].
      destruct (truthy_member fields (str "expires"));
        destruct (truthy_member fields (str "state"));
        destruct (truthy_member fields (str "refresh_token"));
        destruct (truthy_member fields (str "access_token")); reflexivity.
Qed.

Lemma interpretReply_expires_in_witness :
  exists t,
    interpretReply (dq "{'expires':3600,'expires_in':120}") (World [] [] [])
    = (Ok 0%nat, World [CToken t] [] []) /\
    expires t = JNum 120 0.
Proof.
  destruct (proj2 (interpretReply_expires_in [] [] [])
              (dq "{'expires':3600,'expires_in':120}")
              [(str "expires", JNum 3600 0); (str "expires_in", JNum 120 0)]
              (JNum 120 0) eq_refl eq_refl) as (t & Hrun & Ht).
  exists t. split; [exact Hrun|exact Ht].
Defined.

(** C5, as stated, fails: with [expires_in] zero beside an [expires], the
    [expires] of the result is taken from [expires]. *)
Lemma interpretReply_expires_in_zero_counterexample :
  JSON_parse (dq "{'expires':3600,'expires_in':0}")
  = Some (JObj [(str "expires", JNum 3600 0); (str "expires_in", JNum 0 0)]) /\
  interpretReply (dq "{'expires':3600,'expires_in':0}") (World [] [] [])
  = (Ok 0%nat, World [CToken (Token JNull JNull (JNum 3600 0))] [] []) /\
  JNum 3600 0 <> JNum 0 0.
Proof. split; [reflexivity|split; [reflexivity|discriminate]]. Qed.

(** ** [request] *)

Section Request.
Variables (h : list cell) (ob : list client_request)
          (cl : list (callback * cbarg)).

Lemma update_request_last r f :
  update_request (length ob) f (World h (ob ++ [r]) cl)
  = (Ok tt, World h (ob ++ [f r]) cl).
Proof.
  unfold update_request, set_outbox. simpl.
  rewrite lookup_last, insert_last. reflexivity.
Qed.

(** For a string [uri] whose host and path Node accepts, and a method that
    is an HTTP token, [request] makes one request, writes the payload when
    the method is [POST], and ends it. *)
Lemma request_run uri method payload cb interpretBody :
  method <> [] ->
  accepted (request_options uri method payload) = true ->
  request (VStr uri) method payload cb interpretBody (World h ob cl)
  = (Ok tt,
     World h
       (ob ++ [ClientRequest (request_options uri method payload)
                 interpretBody cb
                 (if jsstring_eqb method (str "POST") then [payload] else [])
                 true false])
       cl).
Proof.
  intros Hm Hpath. unfold request.
  destruct method as [|c m]; [congruence|].
  erewrite bind_ok by reflexivity.
  fold (request_options uri (c :: m) payload).
  erewrite bind_ok.
  2:{ unfold https_request. rewrite Hpath. reflexivity. }
  unfold set_outbox. simpl heap. simpl outbox. simpl calls.
  unfold req_write, req_end, when.
  destruct (jsstring_eqb (c :: m) (str "POST")).
  - erewrite bind_ok by apply update_request_last.
    rewrite update_request_last. reflexivity.
  - erewrite bind_ok by reflexivity.
    rewrite update_request_last. reflexivity.
Qed.

End Request.

(** ** The response *)

Section Respond.
Variables (w : world) (i : nat) (r : client_request).
Hypothesis pending : outbox w !! i = Some r.

Lemma mark_answered :
  update_request i answered w
  = (Ok tt, World (heap w) (<[i := answered r]> (outbox w)) (calls w)).
Proof. unfold update_request. rewrite pending. reflexivity. Qed.

(** The body goes through [interpretReply], and the continuation is
    called with the record. *)
Lemma respond_interpreted chunks :
  req_ended r = true -> req_answered r = false ->
  truthy (req_interpretBody r) = true ->
  is_null_reply (body_of chunks) = false ->
  respond i chunks w
  = (Ok tt,
     World (heap w ++
              [CToken (interpret_token (parsed_reply (body_of chunks)))])
           (<[i := answered r]> (outbox w))
           (calls w ++ [(req_callback r, ArgToken (length (heap w)))])).
Proof.
  intros He Ha Hi Hn. unfold respond. rewrite pending, He, Ha, Hi. simpl.
  erewrite bind_ok by apply mark_answered.
  fold (body_of chunks).
  erewrite bind_ok.
  2:{ apply interpretReply_run. rewrite parsed_reply_null.
      unfold is_null_reply in Hn.
      destruct (JSON_parse (body_of chunks)) as [[]|]; congruence. }
  reflexivity.
Qed.

(** On the body [null] the handler throws before the continuation is
    called. *)
Lemma respond_null chunks :
  req_ended r = true -> req_answered r = false ->
  truthy (req_interpretBody r) = true ->
  is_null_reply (body_of chunks) = true ->
  (respond i chunks w).1 = Throw TypeError /\
  calls (respond i chunks w).2 = calls w.
Proof.
  intros He Ha Hi Hn. unfold respond. rewrite pending, He, Ha, Hi. simpl.
  erewrite bind_ok by apply mark_answered.
  fold (body_of chunks).
  erewrite bind_throw.
  2:{ apply interpretReply_throw. rewrite parsed_reply_null.
      unfold is_null_reply in Hn.
      destruct (JSON_parse (body_of chunks)) as [[]|]; congruence. }
  split; reflexivity.
Qed.

(** The body goes to the continuation as it is. *)
Lemma respond_raw chunks :
  req_ended r = true -> req_answered r = false ->
  truthy (req_interpretBody r) = false ->
  respond i chunks w
  = (Ok tt,
     World (heap w) (<[i := answered r]> (outbox w))
           (calls w ++ [(req_callback r, ArgBody (body_of chunks))])).
Proof.
  intros He Ha Hi. unfold respond. rewrite pending, He, Ha, Hi. simpl.
  erewrite bind_ok by apply mark_answered. reflexivity.
Qed.

(** A response that has ended does not come again. *)
Lemma respond_answered chunks :
  req_answered r = true -> respond i chunks w = (Ok tt, w).
Proof.
  intros Ha. unfold respond. rewrite pending, Ha, andb_false_r.
  reflexivity.
Qed.
End Respond.

(** ** The token exchange and the user info request *)

Lemma code_parameters_plain prov redirectUri code :
  plain_names (code_parameters prov redirectUri code).
Proof.
  apply plain_names_check. unfold code_parameters, optional_prop.
  destruct (truthy (get_prop prov (str "scope")));
    destruct (truthy (get_prop prov (str "state"))); vm_compute; reflexivity.
Qed.

Lemma code_parameters_encodable prov redirectUri code :
  encodable prov -> wf_value redirectUri -> wf_value code ->
  encodable (code_parameters prov redirectUri code).
Proof.
  intros Hp Hr Hc. unfold code_parameters.
  repeat apply optional_prop_encodable; try (apply get_prop_encodable; exact Hp).
  repeat constructor; simpl; try reflexivity; try assumption;
    apply get_prop_encodable; exact Hp.
Qed.

Section Exchange.
Variables (h : list cell) (ob : list client_request)
          (cl : list (callback * cbarg)).
Variables (p : loc) (prov : object).
Hypothesis provider_at : h !! p = Some (CObj prov).
Hypothesis provider_wf : encodable prov.

(** [AuthenticateByCode] on a descriptor whose [accessTokenUri] is a
    string with a host and a path Node accepts: the fields of [parameters]
    are written as the body of one [POST] request, which is ended. *)
Lemma AuthenticateByCode_run redirectUri code cb uri :
  wf_value redirectUri -> wf_value code ->
  get_prop prov (str "accessTokenUri") = VStr uri ->
  accepted (request_options uri (str "POST") []) = true ->
  AuthenticateByCode p redirectUri code cb (World h ob cl)
  = let payload :=
      join_amp (object_fields (code_parameters prov redirectUri code)) in
    (Ok tt,
     World (h ++ [CObj (encode_object (code_parameters prov redirectUri code))])
           (ob ++ [ClientRequest (request_options uri (str "POST") payload)
                     (VBool true) cb [payload] true false])
           cl).
Proof.
  intros Hr Hc Huri Hpath. unfold AuthenticateByCode.
  run_with get_field_provider. run_with get_field_provider.
  run_with alloc_object.
  run_with get_field_provider_last. run_with optional_set.
  run_with get_field_provider_last. run_with optional_set.
  run_with get_field_provider_last.
  fold (code_parameters prov redirectUri code).
  erewrite bind_ok.
  2:{ apply buildQueryString_last;
        [apply code_parameters_plain
        |apply code_parameters_encodable; assumption]. }
  rewrite Huri. unfold at_last. rewrite request_run; [reflexivity|discriminate|].
  exact Hpath.
Qed.


(** [GetUserInfo] on a descriptor whose [userInfoUri] is a string with a
    host and a path Node accepts: one [GET] request is made and ended; its
    options come from [userInfoUri] alone and nothing is written to it. *)
Lemma GetUserInfo_run accessToken cb uri :
  wf_value accessToken ->
  get_prop prov (str "userInfoUri") = VStr uri ->
  accepted (request_options uri (str "GET") []) = true ->
  GetUserInfo p accessToken cb (World h ob cl)
  = (Ok tt,
     World (h ++ [CObj [(str "access_token",
                         VStr (uri_encoded (ToString accessToken)))]])
           (ob ++ [ClientRequest (request_options uri (str "GET") [])
                     VUndefined cb [] true false])
           cl).
Proof.
  intros Ht Huri Hpath. unfold GetUserInfo.
  run_with alloc_object. run_with get_field_provider_last.
  erewrite bind_ok.
  2:{ apply buildQueryString_last.
      - apply plain_names_check. vm_compute. reflexivity.
      - repeat constructor. exact Ht. }
  rewrite Huri. unfold at_last. rewrite request_run; [reflexivity|discriminate|].
  exact Hpath.
Qed.
End Exchange.

(** ** The encoding is applied twice *)

(** C3: for the mapping [{a: "x y", b: "1"}] [buildQueryString] returns
    [a=x%2520y&b=1]: [encodeURIComponent] makes the space [%20] and
    [querystring.stringify] then escapes its percent sign, so a decoder
    reads [x%20y] for [a], where one encoding would give it [x y]. *)
Theorem buildQueryString_space :
  buildQueryString 0%nat
    (World [CObj [(str "a", VStr (str "x y")); (str "b", VStr (str "1"))]] [] [])
  = (Ok (str "a=x%2520y&b=1"),
     World [CObj [(str "a", VStr (str "x%20y")); (str "b", VStr (str "1"))]]
           [] []) /\
  map percent_decode (query_params (str "a=x%2520y&b=1") (str "a"))
  = [str "x%20y"] /\
  map percent_decode (query_params (str "a=x%20y&b=1") (str "a"))
  = [str "x y"].
Proof. repeat split; vm_compute; reflexivity. Qed.

(** C7: for the code [4/abc], [AuthenticateByCode] makes one [POST]
    request whose body carries [code=4%252Fabc]: a form decoder reads
    [4%2Fabc], not the code that was given, and the redirect URI fares the
    same. *)
Theorem AuthenticateByCode_slash_code :
  (AuthenticateByCode 0%nat (VStr (str "https://app.example/cb"))
     (VStr (str "4/abc")) 7%nat
     (World [CObj [(str "clientId", VStr (str "id"));
                   (str "clientSecret", VStr (str "s3cr3t"));
                   (str "accessTokenUri",
                    VStr (str "https://provider.example/token"))]] [] [])).1
  = Ok tt /\
  outbox
    (AuthenticateByCode 0%nat (VStr (str "https://app.example/cb"))
       (VStr (str "4/abc")) 7%nat
       (World [CObj [(str "clientId", VStr (str "id"));
                     (str "clientSecret", VStr (str "s3cr3t"));
                     (str "accessTokenUri",
                      VStr (str "https://provider.example/token"))]] [] [])).2
  = [ClientRequest
       (Options (str "provider.example") (str "/token") 443 (str "POST")
                (str "application/x-www-form-urlencoded") 130)
       (VBool true) 7%nat
       [str "client_id=id&client_secret=s3cr3t&redirect_uri=https%253A%252F%252Fapp.example%252Fcb&code=4%252Fabc&grant_type=authorization_code"]
       true false] /\
  map percent_decode
      (query_params
         (str "client_id=id&client_secret=s3cr3t&redirect_uri=https%253A%252F%252Fapp.example%252Fcb&code=4%252Fabc&grant_type=authorization_code")
         (str "code"))
  = [str "4%2Fabc"].
Proof. repeat split; vm_compute; reflexivity. Qed.

(** C2: [GetUserInfo] makes one [GET] request whose path is the path of
    [userInfoUri] and nothing more: the payload [access_token=T] that
    [buildQueryString] returned is neither appended to the path nor
    written, so the request carries no access token. *)
Theorem GetUserInfo_payload_dropped :
  GetUserInfo 0%nat (VStr (str "T")) 7%nat
    (World [CObj [(str "userInfoUri", VStr (str "https://api.example.com/me"))]]
           [] [])
  = (Ok tt,
     World [CObj [(str "userInfoUri", VStr (str "https://api.example.com/me"))];
            CObj [(str "access_token", VStr (str "T"))]]
           [ClientRequest
              (Options (str "api.example.com") (str "/me") 443 (str "GET")
                       (str "application/x-www-form-urlencoded") 0)
              VUndefined 7%nat [] true false]
           []) /\
  buildQueryString 1%nat
    (World [CObj [(str "userInfoUri", VStr (str "https://api.example.com/me"))];
            CObj [(str "access_token", VStr (str "T"))]] [] [])
  = (Ok (str "access_token=T"),
     World [CObj [(str "userInfoUri", VStr (str "https://api.example.com/me"))];
            CObj [(str "access_token", VStr (str "T"))]] [] []).
Proof. split; vm_compute; reflexivity. Qed.

(** ** The frame: cells that exist are not touched *)

Section Frame.
Variable h0 : list cell.





Lemma keeps_weaken {A} (c : M A) (Q R : A -> Prop) :
  keeps h0 c Q -> (forall a, Q a -> R a) -> keeps h0 c R.
Proof.
  intros Hc HQR w Hw. destruct (Hc w Hw) as [Hpre HQ].
  split; [exact Hpre|]. intros a Ha. apply HQR, HQ, Ha.
Qed.













End Frame.



Section FrameOfTheModule.
Variable h0 : list cell.









End FrameOfTheModule.



(** ** [JSON.parse]: the fuel is enough *)

Lemma skip_ws_length s : (length (skip_ws s) <= length s)%nat.
Proof.
  induction s as [|c r IH]; simpl; [lia|].
  destruct (is_ws c); simpl; lia.
Qed.

Lemma skip_ws_cons s c r :
  skip_ws s = c :: r -> (S (length r) <= length s)%nat.
Proof.
  intros H. pose proof (skip_ws_length s) as Hl. rewrite H in Hl.
  exact Hl.
Qed.

Lemma parse_chars_length s acc x r :
  parse_chars s acc = Some (x, r) -> (length r < length s)%nat.
Proof.
  assert (H : forall n s acc, (length s <= n)%nat ->
            parse_chars s acc = Some (x, r) -> (length r < length s)%nat).
  { clear s acc. induction n as [|n IH]; intros [|c s] acc Hn Hp;
      simpl in Hn, Hp; try discriminate; try lia.
    destruct (c =? 34); [injection Hp as _ <-; simpl; lia|].
    destruct (c =? 92).
    - destruct s as [|e s1]; [discriminate|].
      destruct (e =? 117).
      + destruct s1 as [|a [|b [|c' [|d s2]]]]; try discriminate.
        destruct (hex4 a b c' d); [|discriminate].
        apply IH in Hp; simpl in *; lia.
      + destruct (simple_escape e); [|discriminate].
        apply IH in Hp; simpl in *; lia.
    - destruct (c <? 32); [discriminate|].
      apply IH in Hp; simpl in *; lia. }
  apply (H (length s) s acc). lia.
Qed.

Lemma span_digits_length s : (length (span_digits s).2 <= length s)%nat.
Proof.
  induction s as [|c r IH]; simpl; [lia|].
  destruct (is_digit c); simpl; lia.
Qed.

Lemma parse_frac_length s fp r :
  parse_frac s = Some (fp, r) -> (length r <= length s)%nat.
Proof.
  unfold parse_frac. destruct s as [|c s]; [intros [= _ <-]; simpl; lia|].
  destruct (c =? 46).
  - pose proof (span_digits_length s) as Hl.
    destruct (span_digits s) as [[|d ds] r']; [discriminate|].
    intros [= _ <-]. simpl in *. lia.
  - intros [= _ <-]. lia.
Qed.

Lemma parse_exp_length s e r :
  parse_exp s = Some (e, r) -> (length r <= length s)%nat.
Proof.
  unfold parse_exp. destruct s as [|c s]; [intros [= _ <-]; simpl; lia|].
  destruct ((c =? 101) || (c =? 69)); [|intros [= _ <-]; lia].
  destruct s as [|x s'].
  - simpl. discriminate.
  - destruct (x =? 45); [|destruct (x =? 43)];
      match goal with
      | |- match span_digits ?r1 with _ => _ end = _ -> _ =>
        pose proof (span_digits_length r1) as Hs;
        destruct (span_digits r1) as [[|d ds] r2]; [discriminate|];
        intros [= _ <-]; simpl in *; lia
      end.
Qed.

Lemma parse_number_length s m e r :
  parse_number s = Some (m, e, r) -> (length r <= length s)%nat.
Proof.
  unfold parse_number.
  assert (H : forall (neg : bool) (s1 : jsstring),
            (length s1 <= length s)%nat ->
            match s1 with
            | [] => None
            | c :: r0 =>
              if is_digit c then
                let '(ip, s2) := if c =? 48 then ([c], r0) else span_digits s1 in
                match parse_frac s2 with
                | None => None
                | Some (fp, s3) =>
                  match parse_exp s3 with
                  | None => None
                  | Some (ex, s4) =>
                    let m := Z.of_N (digits_value (ip ++ fp)) in
                    Some (if neg then (- m)%Z else m,
                          (ex - Z.of_nat (length fp))%Z, s4)
                  end
                end
              else None
            end = Some (m, e, r) -> (length r <= length s)%nat).
  { intros neg [|c r0] Hl; [discriminate|].
    destruct (is_digit c); [|discriminate].
    pose proof (span_digits_length (c :: r0)) as Hs.
    destruct (if c =? 48 then ([c], r0) else span_digits (c :: r0))
      as [ip s2] eqn:Hip.
    assert (H2 : (length s2 <= length (c :: r0))%nat).
    { destruct (c =? 48); [injection Hip as _ <-; simpl; lia|].
      rewrite Hip in Hs. exact Hs. }
    destruct (parse_frac s2) as [[fp s3]|] eqn:Hf; [|discriminate].
    apply parse_frac_length in Hf.
    destruct (parse_exp s3) as [[ex s4]|] eqn:He; [|discriminate].
    apply parse_exp_length in He.
    intros [= _ _ <-]. lia. }
  destruct s as [|c s']; [discriminate|].
  destruct (c =? 45); intros Hp.
  - exact (H true s' ltac:(simpl; lia) Hp).
  - exact (H false (c :: s') ltac:(simpl; lia) Hp).
Qed.

Lemma starts_with_length p s :
  starts_with p s = true -> (length p <= length s)%nat.
Proof.
  revert s. induction p as [|a p IH]; intros [|b s]; simpl;
    try discriminate; try lia.
  intros [_ H]%andb_true_iff. apply IH in H. lia.
Qed.

Lemma parse_literal_length s j r :
  parse_literal s = POk j r -> (length r <= length s)%nat.
Proof.
  unfold parse_literal.
  destruct (starts_with (str "true") s);
    [intros [= _ <-]; rewrite length_drop; lia|].
  destruct (starts_with (str "false") s);
    [intros [= _ <-]; rewrite length_drop; lia|].
  destruct (starts_with (str "null") s);
    [intros [= _ <-]; rewrite length_drop; lia|].
  destruct (parse_number s) as [[[m e] r']|] eqn:Hn; [|discriminate].
  intros [= _ <-]. exact (parse_number_length s m e r' Hn).
Qed.

Lemma parse_literal_fuel s : parse_literal s <> PFuel.
Proof.
  unfold parse_literal.
  repeat (match goal with
          | |- (if ?b then _ else _) <> _ => destruct b; [discriminate|]
          end).
  destruct (parse_number s) as [[[m e] r']|]; discriminate.
Qed.

Lemma parse_length n :
  (forall s j r, parse_value n s = POk j r -> (length r <= length s)%nat) /\
  (forall s acc j r,
     parse_elements n s acc = POk j r -> (length r <= length s)%nat) /\
  (forall s acc j r,
     parse_members n s acc = POk j r -> (length r <= length s)%nat).
Proof.
  induction n as [|n (IHv & IHe & IHm)]; [repeat split; discriminate|].
  split; [|split].
  - intros s j r. simpl.
    destruct (skip_ws s) as [|c r0] eqn:Hs; [discriminate|].
    apply skip_ws_cons in Hs.
    destruct (c =? 123).
    { destruct (skip_ws r0) as [|c1 r1] eqn:Hs1; [discriminate|].
      apply skip_ws_cons in Hs1.
      destruct (c1 =? 125); [intros [= _ <-]; lia|].
      intros H%IHm. simpl in H. lia. }
    destruct (c =? 91).
    { destruct (skip_ws r0) as [|c1 r1] eqn:Hs1; [discriminate|].
      apply skip_ws_cons in Hs1.
      destruct (c1 =? 93); [intros [= _ <-]; lia|].
      intros H%IHe. simpl in H. lia. }
    destruct (c =? 34).
    { destruct (parse_chars r0 []) as [[x r1]|] eqn:Hc; [|discriminate].
      apply parse_chars_length in Hc. intros [= _ <-]. lia. }
    intros H%parse_literal_length. simpl in H. lia.
  - intros s acc j r. simpl.
    destruct (parse_value n s) as [v r0| |] eqn:Hv; try discriminate.
    apply IHv in Hv.
    destruct (skip_ws r0) as [|c r1] eqn:Hs; [discriminate|].
    apply skip_ws_cons in Hs.
    destruct (c =? 44); [intros H%IHe; lia|].
    destruct (c =? 93); [intros [= _ <-]; lia|discriminate].
  - intros s acc j r. simpl.
    destruct (skip_ws s) as [|q r0] eqn:Hs; [discriminate|].
    apply skip_ws_cons in Hs.
    destruct (q =? 34); [|discriminate].
    destruct (parse_chars r0 []) as [[k r1]|] eqn:Hc; [|discriminate].
    apply parse_chars_length in Hc.
    destruct (skip_ws r1) as [|c r2] eqn:Hs1; [discriminate|].
    apply skip_ws_cons in Hs1.
    destruct (c =? 58); [|discriminate].
    destruct (parse_value n r2) as [v r3| |] eqn:Hv; try discriminate.
    apply IHv in Hv.
    destruct (skip_ws r3) as [|d r4] eqn:Hs2; [discriminate|].
    apply skip_ws_cons in Hs2.
    destruct (d =? 44); [intros H%IHm; lia|].
    destruct (d =? 125); [intros [= _ <-]; lia|discriminate].
Qed.

Lemma parse_fuel n :
  (forall s, (2 * length s < n)%nat -> parse_value n s <> PFuel) /\
  (forall s acc, (2 * length s + 1 < n)%nat ->
     parse_elements n s acc <> PFuel) /\
  (forall s acc, (2 * length s + 1 < n)%nat ->
     parse_members n s acc <> PFuel).
Proof.
  induction n as [|n (IHv & IHe & IHm)]; [repeat split; intros; lia|].
  destruct (parse_length n) as (Lv & _ & _).
  split; [|split].
  - intros s Hn. simpl.
    destruct (skip_ws s) as [|c r0] eqn:Hs; [discriminate|].
    apply skip_ws_cons in Hs.
    destruct (c =? 123).
    { destruct (skip_ws r0) as [|c1 r1] eqn:Hs1; [discriminate|].
      apply skip_ws_cons in Hs1.
      destruct (c1 =? 125); [discriminate|].
      apply IHm. simpl. lia. }
    destruct (c =? 91).
    { destruct (skip_ws r0) as [|c1 r1] eqn:Hs1; [discriminate|].
      apply skip_ws_cons in Hs1.
      destruct (c1 =? 93); [discriminate|].
      apply IHe. simpl. lia. }
    destruct (c =? 34).
    { destruct (parse_chars r0 []) as [[x r1]|]; discriminate. }
    apply parse_literal_fuel.
  - intros s acc Hn. simpl.
    destruct (parse_value n s) as [v r0| |] eqn:Hv; try discriminate.
    + apply Lv in Hv.
      destruct (skip_ws r0) as [|c r1] eqn:Hs; [discriminate|].
      apply skip_ws_cons in Hs.
      destruct (c =? 44); [apply IHe; lia|].
      destruct (c =? 93); discriminate.
    + exfalso. apply (IHv s); [lia|exact Hv].
  - intros s acc Hn. simpl.
    destruct (skip_ws s) as [|q r0] eqn:Hs; [discriminate|].
    apply skip_ws_cons in Hs.
    destruct (q =? 34); [|discriminate].
    destruct (parse_chars r0 []) as [[k r1]|] eqn:Hc; [|discriminate].
    apply parse_chars_length in Hc.
    destruct (skip_ws r1) as [|c r2] eqn:Hs1; [discriminate|].
    apply skip_ws_cons in Hs1.
    destruct (c =? 58); [|discriminate].
    destruct (parse_value n r2) as [v r3| |] eqn:Hv; try discriminate.
    + apply Lv in Hv.
      destruct (skip_ws r3) as [|d r4] eqn:Hs2; [discriminate|].
      apply skip_ws_cons in Hs2.
      destruct (d =? 44); [apply IHm; lia|].
      destruct (d =? 125); discriminate.
    + exfalso. apply (IHv r2); [lia|exact Hv].
Qed.

(** [JSON_parse] never stops for want of fuel: its [None] is a syntax
    error. *)
Lemma JSON_parse_fuel s : parse_value (json_fuel s) s <> PFuel.
Proof. apply parse_fuel. unfold json_fuel. lia. Qed.


(** ** The model on the examples of the documentation *)

Example encodeURIComponent_space :
  encodeURIComponent (str "x y/z") = Ok (str "x%20y%2Fz").
Proof. reflexivity. Qed.

Example qsEscape_percent :
  qsEscape (str "x%20y") = Ok (str "x%2520y").
Proof. reflexivity. Qed.

Example encodeURIComponent_two_bytes :
  encodeURIComponent [233] = Ok (str "%C3%A9").
Proof. reflexivity. Qed.

Example encodeURIComponent_pair :
  encodeURIComponent [55357; 56832] = Ok (str "%F0%9F%98%80").
Proof. reflexivity. Qed.

Example encodeURIComponent_lone_surrogate :
  encodeURIComponent [55357; 65] = Throw URIError.
Proof. reflexivity. Qed.

Example replace_https :
  replace (str "https://graph.facebook.com/oauth/access_token")
          (str "https://") [] = str "graph.facebook.com/oauth/access_token".
Proof. reflexivity. Qed.

Example JSON_parse_nested :
  JSON_parse (dq " [1.5e3, -0, true, null, {'a': [] , 'b':'A\n'}] ")
  = Some (JArr [JNum 15 2; JNum 0 0; JBool true; JNull;
                JObj [(str "a", JArr []); (str "b", JStr [65; 10])]]).
Proof. vm_compute. reflexivity. Qed.

Example JSON_parse_leading_zero : JSON_parse (str "01") = None.
Proof. reflexivity. Qed.

Example JSON_parse_trailing_comma : JSON_parse (str "[1,]") = None.
Proof. reflexivity. Qed.

Example json_truthy_underflow :
  option_map json_truthy (JSON_parse (str "1e-400")) = Some false /\
  option_map json_truthy (JSON_parse (str "1e-300")) = Some true.
Proof. split; vm_compute; reflexivity. Qed.

(** The redirect of the README. *)
Example CreateRedirect_readme :
  (CreateRedirect 0%nat
     (VStr (str "https://awesome-domain.com/my-awesome-oauth-callback"))
     (VStr (str "en"))
     (World [CObj [(str "clientId", VStr (str "my-client-id"));
                   (str "scope", VStr (str "email"));
                   (str "authUri",
                    VStr (str "https://graph.facebook.com/oauth/authorize"))]]
            [] [])).1
  = Ok (str "https://graph.facebook.com/oauth/authorize?client_id=my-client-id&display=page&locale=en&redirect_uri=https%253A%252F%252Fawesome-domain.com%252Fmy-awesome-oauth-callback&response_type=code&scope=email").
Proof. vm_compute. reflexivity. Qed.

(** [Object.keys] puts array indices first. *)
Example own_keys_order :
  own_keys [(str "b", VNull); (str "10", VNull); (str "2", VNull);
            (str "01", VNull)]
  = [str "2"; str "10"; str "b"; str "01"].
Proof. reflexivity. Qed.

(** The response to the request of [AuthenticateByCode], in two chunks,
    reaches the continuation as a record. *)
Example response_in_two_chunks :
  calls
    (response_handler 0%nat [dq "{'access_token':"; dq "'A','expires_in':120}"]
       (AuthenticateByCode 0%nat (VStr (str "https://app.example/cb"))
          (VStr (str "c0de")) 7%nat
          (World [CObj [(str "clientId", VStr (str "id"));
                        (str "clientSecret", VStr (str "s3cr3t"));
                        (str "accessTokenUri",
                         VStr (str "https://provider.example/token"))]]
                 [] [])).2).2
  = [(7%nat, ArgToken 2%nat)].
Proof. vm_compute. reflexivity. Qed.

(** [U+00E9] in one chunk, and cut between its two octets: each half is
    replaced on its own. *)
Example utf8_decode_cut :
  concat (map utf8_decode [[195; 169]]) = [233] /\
  concat (map utf8_decode [[195]; [169]]) = [65533; 65533].
Proof. split; reflexivity. Qed.

Example utf8_decode_pair :
  utf8_decode [240; 159; 152; 128] = [55357; 56832].
Proof. reflexivity. Qed.

Example utf8_decode_surrogate :
  utf8_decode [237; 160; 128] = [65533; 65533; 65533].
Proof. reflexivity. Qed.

(** A method with a space, and a host with a line feed: [https.request]
    throws, and no request is made. *)
Example request_method_with_space :
  request (VStr (str "https://provider.example/me")) (str "GE T") [] 7%nat
          VUndefined (World [] [] [])
  = (Throw TypeError, World [] [] []).
Proof. vm_compute. reflexivity. Qed.

Example request_host_with_line_feed :
  request (VStr (str "https://" ++ [104; 10; 120] ++ str "/me")) (str "GET") []
          7%nat VUndefined (World [] [] [])
  = (Throw TypeError, World [] [] []).
Proof. vm_compute. reflexivity. Qed.


(** ** The network: what is sent, and when *)

Section Quiet.
Lemma quiet_ret {A} (a : A) : net_quiet (ret a).
Proof. intros w. split; reflexivity. Qed.

Lemma quiet_throw {A} e : net_quiet (@throw A e).
Proof. intros w. split; reflexivity. Qed.

Lemma quiet_lift {A} (o : outcome A) : net_quiet (lift o).
Proof. intros w. split; reflexivity. Qed.

Lemma quiet_bind {A B} (c : M A) (k : A -> M B) :
  net_quiet c -> (forall a, net_quiet (k a)) -> net_quiet (bind c k).
Proof.
  intros Hc Hk w. destruct (Hc w) as [Ho Hl]. unfold bind.
  destruct (c w) as [[a|e] w'] eqn:Hcw; simpl in *.
  - destruct (Hk a w') as [Ho' Hl']. split; congruence.
  - split; assumption.
Qed.

Lemma quiet_alloc c : net_quiet (alloc c).
Proof. intros w. split; reflexivity. Qed.

Lemma quiet_get_field p k : net_quiet (get_field p k).
Proof.
  intros w. unfold get_field. destruct (heap w !! p) as [[]|]; split; reflexivity.
Qed.

Lemma quiet_set_field p k v : net_quiet (set_field p k v).
Proof.
  intros w. unfold set_field. destruct (heap w !! p) as [[]|]; split; reflexivity.
Qed.

Lemma quiet_object_keys p : net_quiet (object_keys p).
Proof.
  intros w. unfold object_keys. destruct (heap w !! p) as [[]|]; split; reflexivity.
Qed.

Lemma quiet_querystring_stringify p : net_quiet (querystring_stringify p).
Proof.
  intros w. unfold querystring_stringify.
  destruct (heap w !! p) as [[]|]; split; reflexivity.
Qed.

Lemma quiet_update_token p f : net_quiet (update_token p f).
Proof.
  intros w. unfold update_token. destruct (heap w !! p) as [[]|]; split; reflexivity.
Qed.

Lemma quiet_when b (c : M unit) : net_quiet c -> net_quiet (when b c).
Proof. intros Hc. destruct b; [exact Hc|apply quiet_ret]. Qed.

Lemma quiet_for_each {A} (l : list A) (f : A -> M unit) :
  (forall a, net_quiet (f a)) -> net_quiet (for_each l f).
Proof.
  intros Hf. induction l as [|a l IH]; simpl; [apply quiet_ret|].
  apply quiet_bind; [apply Hf|intros _; exact IH].
Qed.
End Quiet.

Ltac quiet_step :=
  first
    [ apply quiet_get_field | apply quiet_set_field | apply quiet_object_keys
    | apply quiet_querystring_stringify | apply quiet_update_token
    | apply quiet_alloc | apply quiet_lift | apply quiet_ret | apply quiet_throw
    | apply quiet_when; quiet_step ].

Ltac quiet_chain :=
  repeat (apply quiet_bind; [quiet_step|intros ?]); try quiet_step.

Lemma quiet_buildQueryString l : net_quiet (buildQueryString l).
Proof.
  unfold buildQueryString.
  apply quiet_bind; [quiet_step|intros keys].
  apply quiet_bind; [|intros _; quiet_step].
  apply quiet_for_each. intros key. quiet_chain.
Qed.

Lemma quiet_interpretReply body : net_quiet (interpretReply body).
Proof.
  unfold interpretReply. apply quiet_bind; [quiet_step|intros l].
  assert (H : forall reply k assign, net_quiet (copy_field reply k l assign)).
  { intros reply k assign. unfold copy_field.
    apply quiet_bind; [quiet_step|intros [j|]]; quiet_step. }
  do 5 (apply quiet_bind; [apply H|intros _]). quiet_step.
Qed.

(** X1: [CreateRedirect] does no network I/O: whatever its arguments and
    whether it returns or throws, it makes no request and calls no
    continuation. *)
Theorem CreateRedirect_no_network
    (provider : loc) (redirectUri locale : value) (w : world) :
  outbox (CreateRedirect provider redirectUri locale w).2 = outbox w /\
  calls (CreateRedirect provider redirectUri locale w).2 = calls w.
Proof.
  revert w. change (net_quiet (CreateRedirect provider redirectUri locale)).
  unfold CreateRedirect. quiet_chain.
  apply quiet_bind; [apply quiet_buildQueryString|intros qs]. quiet_step.
Qed.

Lemma sends_one_bind {A B} cb ib (c : M A) (k : A -> M B) :
  net_quiet c -> (forall a, sends_one cb ib (k a)) ->
  sends_one cb ib (bind c k).
Proof.
  intros Hc Hk w. destruct (Hc w) as [Ho Hl]. unfold bind.
  destruct (c w) as [[a|e] w'] eqn:Hcw; simpl in *.
  - destruct (Hk a w') as [Hl' Hr]. rewrite Hl', Hl. split; [reflexivity|].
    destruct (k a w').1; rewrite <- Ho; exact Hr.
  - split; assumption.
Qed.

(** [request] either throws and leaves the world as it was, or returns
    with one more request, ended. *)
Lemma request_outcome uri method payload cb interpretBody h ob cl :
  request uri method payload cb interpretBody (World h ob cl)
  = (Throw TypeError, World h ob cl) \/
  exists r,
    request uri method payload cb interpretBody (World h ob cl)
    = (Ok tt, World h (ob ++ [r]) cl) /\
    req_ended r = true /\ req_answered r = false /\
    req_callback r = cb /\ req_interpretBody r = interpretBody.
Proof.
  unfold request.
  destruct uri as [| |b|s]; try (left; reflexivity).
  erewrite bind_ok by reflexivity.
  set (m := match method with [] => str "POST" | _ :: _ => method end).
  set (o := Options _ _ _ _ _ _).
  destruct (accepted o) eqn:Hpath.
  - right. erewrite bind_ok.
    2:{ unfold https_request. rewrite Hpath. reflexivity. }
    unfold set_outbox. cbn [heap outbox calls].
    unfold req_write, req_end, when.
    destruct (jsstring_eqb m (str "POST")).
    + erewrite bind_ok by apply update_request_last.
      rewrite update_request_last. eexists. repeat split; reflexivity.
    + erewrite bind_ok by reflexivity.
      rewrite update_request_last. eexists. repeat split; reflexivity.
  - left. erewrite bind_throw; [reflexivity|].
    unfold https_request. rewrite Hpath. reflexivity.
Qed.

Lemma request_sends_one uri method payload cb interpretBody :
  sends_one cb interpretBody (request uri method payload cb interpretBody).
Proof.
  intros [h ob cl].
  destruct (request_outcome uri method payload cb interpretBody h ob cl)
    as [->|(r & -> & Hr)].
  - split; reflexivity.
  - split; [reflexivity|]. exists r. split; [reflexivity|exact Hr].
Qed.

Ltac sends_chain :=
  repeat (apply sends_one_bind; [quiet_step|intros ?]).

Lemma AuthenticateByCode_sends_one provider redirectUri code cb :
  sends_one cb (VBool true) (AuthenticateByCode provider redirectUri code cb).
Proof.
  unfold AuthenticateByCode. sends_chain.
  apply sends_one_bind; [apply quiet_buildQueryString|intros payload].
  apply request_sends_one.
Qed.

Lemma AuthenticateByToken_sends_one provider refreshToken cb :
  sends_one cb (VBool true) (AuthenticateByToken provider refreshToken cb).
Proof.
  unfold AuthenticateByToken. sends_chain.
  apply sends_one_bind; [apply quiet_buildQueryString|intros payload].
  apply request_sends_one.
Qed.

Lemma GetUserInfo_sends_one provider accessToken cb :
  sends_one cb VUndefined (GetUserInfo provider accessToken cb).
Proof.
  unfold GetUserInfo. sends_chain.
  apply sends_one_bind; [apply quiet_buildQueryString|intros payload].
  apply request_sends_one.
Qed.

(** X2: whatever their arguments, [AuthenticateByCode],
    [AuthenticateByToken] and [GetUserInfo] never call the continuation
    themselves; when one of them returns it has made exactly one request,
    ended and awaiting its response, whose handler holds the continuation
    and the flag ([true] for the two exchanges, [undefined] for the user
    info); when it throws it has made none. *)
Theorem exported_calls_send_one
    (provider : loc) (redirectUri code refreshToken accessToken : value)
    (cb : callback) :
  sends_one cb (VBool true)
    (AuthenticateByCode provider redirectUri code cb) /\
  sends_one cb (VBool true)
    (AuthenticateByToken provider refreshToken cb) /\
  sends_one cb VUndefined (GetUserInfo provider accessToken cb).
Proof.
  split; [|split].
  - apply AuthenticateByCode_sends_one.
  - apply AuthenticateByToken_sends_one.
  - apply GetUserInfo_sends_one.
Qed.


(** ** [interpretReply]: what the record holds *)

Lemma pick_null_or_truthy reply k assign t :
  (forall j t', json_truthy j = true ->
     null_or_truthy (accessToken t') /\ null_or_truthy (refreshToken t') /\
     null_or_truthy (expires t') ->
     null_or_truthy (accessToken (assign j t')) /\
     null_or_truthy (refreshToken (assign j t')) /\
     null_or_truthy (expires (assign j t'))) ->
  null_or_truthy (accessToken t) /\ null_or_truthy (refreshToken t) /\
  null_or_truthy (expires t) ->
  null_or_truthy (accessToken (pick reply k assign t)) /\
  null_or_truthy (refreshToken (pick reply k assign t)) /\
  null_or_truthy (expires (pick reply k assign t)).
Proof.
  intros Ha Ht. unfold pick.
  destruct (json_get reply k) as [[j|]|]; try exact Ht.
  destruct (json_truthy j) eqn:Hj; [|exact Ht]. apply Ha; assumption.
Qed.

(** X3: whatever the body, unless it is JSON for [null], [interpretReply]
    returns a new record in which each of [accessToken], [refreshToken]
    and [expires] is [null] or a truthy value: a falsy member of the reply
    (empty string, zero, [false], [null]) never gets into it. *)
Theorem interpretReply_null_or_truthy
    (h : list cell) (ob : list client_request) (cl : list (callback * cbarg))
    (body : jsstring) :
  is_null_reply body = false ->
  exists t,
    interpretReply body (World h ob cl)
    = (Ok (length h), World (h ++ [CToken t]) ob cl) /\
    null_or_truthy (accessToken t) /\
    null_or_truthy (refreshToken t) /\
    null_or_truthy (expires t).
Proof.
  intros Hn. exists (interpret_token (parsed_reply body)). split.
  - apply interpretReply_run. rewrite parsed_reply_null.
    unfold is_null_reply in Hn.
    destruct (JSON_parse body) as [[]|]; congruence.
  - unfold interpret_token.
    repeat (apply pick_null_or_truthy;
            [intros j t' Hj (H1 & H2 & H3); simpl;
             repeat split; try assumption; right; exact Hj|]).
    repeat split; left; reflexivity.
Qed.

Lemma interpretReply_null_or_truthy_witness :
  exists t,
    interpretReply (dq "{'access_token':'','refresh_token':null,'expires':0}")
      (World [] [] [])
    = (Ok 0%nat, World [CToken t] [] []) /\
    null_or_truthy (accessToken t) /\
    null_or_truthy (refreshToken t) /\
    null_or_truthy (expires t).
Proof.
  apply (interpretReply_null_or_truthy [] [] []
           (dq "{'access_token':'','refresh_token':null,'expires':0}")).
  reflexivity.
Defined.

(** X4: when the body parses to an object, the record of [interpretReply]
    has for [accessToken] the member [access_token] when truthy; for
    [refreshToken] the member [state] when truthy, else [refresh_token]
    when truthy; for [expires] the member [expires_in] when truthy, else
    [expires] when truthy; and [null] otherwise.  The values are taken as
    they are, whatever their JSON type. *)
Theorem interpretReply_object
    (h : list cell) (ob : list client_request) (cl : list (callback * cbarg))
    (body : jsstring) (fields : list (jsstring * json)) :
  JSON_parse body = Some (JObj fields) ->
  interpretReply body (World h ob cl)
  = (Ok (length h),
     World (h ++ [CToken (Token
              (first_of (truthy_member fields (str "access_token")) None)
              (first_of (truthy_member fields (str "state"))
                        (truthy_member fields (str "refresh_token")))
              (first_of (truthy_member fields (str "expires_in"))
                        (truthy_member fields (str "expires"))))])
           ob cl).
Proof.
  intros Hp.
  assert (Hr : parsed_reply body = JObj fields)
    by (unfold parsed_reply; rewrite Hp; reflexivity).
  rewrite interpretReply_run by (rewrite Hr; discriminate).
  rewrite Hr. unfold token_last, interpret_token, pick, truthy_member.
  cbn [json_get].
  destruct (obj_get fields (str "access_token")) as [a|];
    [destruct (json_truthy a)|];
    (destruct (obj_get fields (str "refresh_token")) as [r|];
       [destruct (json_truthy r)|]);
    (destruct (obj_get fields (str "state")) as [s|];
       [destruct (json_truthy s)|]);
    (destruct (obj_get fields (str "expires")) as [e|];
       [destruct (json_truthy e)|]);
    (destruct (obj_get fields (str "expires_in")) as [e'|];
       [destruct (json_truthy e')|]); reflexivity.
Qed.

Lemma interpretReply_object_witness :
  interpretReply
    (dq "{'access_token':12,'refresh_token':'R','state':'','expires':'3600','expires_in':0}")
    (World [] [] [])
  = (Ok 0%nat,
     World [CToken (Token (JNum 12 0) (JStr (str "R")) (JStr (str "3600")))]
           [] []).
Proof.
  apply (interpretReply_object [] [] []
    (dq "{'access_token':12,'refresh_token':'R','state':'','expires':'3600','expires_in':0}")
    [(str "access_token", JNum 12 0); (str "refresh_token", JStr (str "R"));
     (str "state", JStr []); (str "expires", JStr (str "3600"));
     (str "expires_in", JNum 0 0)]).
  reflexivity.
Defined.

(** X5: a reply that parses to a string, a number, a boolean or an array,
    or to an object with none of the five members [interpretReply] reads
    (an OAuth error response, say), gives a record with [null] in all three
    fields: the error is not told apart from an empty reply. *)
Theorem interpretReply_no_members
    (h : list cell) (ob : list client_request) (cl : list (callback * cbarg))
    (body : jsstring) (j : json) :
  JSON_parse body = Some j ->
  j <> JNull ->
  (forall fields k, j = JObj fields ->
     In k [str "access_token"; str "refresh_token"; str "state";
           str "expires"; str "expires_in"] ->
     obj_get fields k = None) ->
  interpretReply body (World h ob cl)
  = (Ok (length h), World (h ++ [CToken (Token JNull JNull JNull)]) ob cl).
Proof.
  intros Hp Hnn Hnone.
  assert (Hr : parsed_reply body = j)
    by (unfold parsed_reply; rewrite Hp; reflexivity).
  rewrite interpretReply_run by (rewrite Hr; exact Hnn).
  rewrite Hr. unfold token_last, interpret_token, pick.
  destruct j as [|b|m e|s|l|fields]; try reflexivity.
  cbn [json_get].
  rewrite !(Hnone fields _ eq_refl) by (simpl; tauto). reflexivity.
Qed.

Lemma interpretReply_no_members_witness :
  interpretReply
    (dq "{'error':'invalid_grant','error_description':'expired'}")
    (World [] [] [])
  = (Ok 0%nat, World [CToken (Token JNull JNull JNull)] [] []).
Proof.
  apply (interpretReply_no_members [] [] []
    (dq "{'error':'invalid_grant','error_description':'expired'}")
    (JObj [(str "error", JStr (str "invalid_grant"));
           (str "error_description", JStr (str "expired"))])).
  - reflexivity.
  - discriminate.
  - intros fields k [= <-] Hk. simpl in Hk.
    destruct Hk as [<-|[<-|[<-|[<-|[<-|[]]]]]]; reflexivity.
Defined.

(** ** [request]: host and path *)

Lemma starts_with_app p r : starts_with p (p ++ r) = true.
Proof.
  induction p as [|a p IH]; [reflexivity|].
  simpl. rewrite N.eqb_refl, IH. reflexivity.
Qed.

Lemma find_first_here p s : starts_with p s = true -> find_first p s = Some 0%nat.
Proof. intros H. destruct s; simpl; rewrite H; reflexivity. Qed.

Lemma replace_prefix p r : replace (p ++ r) p [] = r.
Proof.
  unfold replace. rewrite (find_first_here p (p ++ r) (starts_with_app p r)).
  simpl. apply drop_app_length.
Qed.

Lemma slash_free_cons c s :
  slash_free (c :: s) = negb (c =? 47) && slash_free s.
Proof. reflexivity. Qed.

Lemma find_first_slash_cons c s :
  (c =? 47) = false ->
  find_first [47] (c :: s) = S <$> find_first [47] s.
Proof.
  intros Hc.
  change (find_first [47] (c :: s))
    with (if (47 =? c) && true then Some 0%nat else S <$> find_first [47] s).
  rewrite N.eqb_sym, Hc. reflexivity.
Qed.

Lemma find_first_slash hst rest :
  slash_free hst = true ->
  find_first [47] (hst ++ 47 :: rest) = Some (length hst).
Proof.
  induction hst as [|c hst IH]; [reflexivity|].
  rewrite slash_free_cons. intros [Hc Hh]%andb_true_iff.
  apply negb_true_iff in Hc.
  change ((c :: hst) ++ 47 :: rest) with (c :: (hst ++ 47 :: rest)).
  rewrite (find_first_slash_cons _ _ Hc), (IH Hh). reflexivity.
Qed.

Lemma find_first_no_slash s : slash_free s = true -> find_first [47] s = None.
Proof.
  induction s as [|c s IH]; [reflexivity|].
  rewrite slash_free_cons. intros [Hc Hs]%andb_true_iff.
  apply negb_true_iff in Hc.
  rewrite (find_first_slash_cons _ _ Hc), (IH Hs). reflexivity.
Qed.

Lemma substring_take (s : jsstring) (n : nat) :
  (n <= length s)%nat -> substring s 0 (Z.of_nat n) = take n s.
Proof.
  intros Hn. unfold substring, clamp.
  replace (Z.to_nat (Z.min (Z.max 0 0) (Z.of_nat (length s)))) with 0%nat by lia.
  replace (Z.to_nat (Z.min (Z.max (Z.of_nat n) 0) (Z.of_nat (length s))))
    with n by lia.
  rewrite Nat.max_0_l, Nat.min_0_l, Nat.sub_0_r. reflexivity.
Qed.

Lemma substring_from_drop (s : jsstring) (n : nat) :
  (n <= length s)%nat -> substring_from s (Z.of_nat n) = drop n s.
Proof.
  intros Hn. unfold substring_from, substring, clamp.
  replace (Z.to_nat (Z.min (Z.max (Z.of_nat n) 0) (Z.of_nat (length s))))
    with n by lia.
  replace (Z.to_nat (Z.min (Z.max (Z.of_nat (length s)) 0)
                           (Z.of_nat (length s))))
    with (length s) by lia.
  rewrite Nat.min_l, Nat.max_r by lia.
  apply take_ge. rewrite length_drop. lia.
Qed.

Lemma substring_before_start (s : jsstring) : substring s 0 (-1) = [].
Proof.
  unfold substring, clamp.
  replace (Z.to_nat (Z.min (Z.max 0 0) (Z.of_nat (length s)))) with 0%nat by lia.
  replace (Z.to_nat (Z.min (Z.max (-1) 0) (Z.of_nat (length s))))
    with 0%nat by lia.
  reflexivity.
Qed.

Lemma substring_from_before_start (s : jsstring) : substring_from s (-1) = s.
Proof.
  unfold substring_from, substring, clamp.
  replace (Z.to_nat (Z.min (Z.max (-1) 0) (Z.of_nat (length s))))
    with 0%nat by lia.
  replace (Z.to_nat (Z.min (Z.max (Z.of_nat (length s)) 0)
                           (Z.of_nat (length s))))
    with (length s) by lia.
  rewrite Nat.min_0_l, Nat.max_0_l, Nat.sub_0_r. simpl.
  apply take_ge. lia.
Qed.

(** The options for [https://host/path]. *)
Lemma request_options_url hst rest method payload :
  slash_free hst = true ->
  request_options (str "https://" ++ hst ++ 47 :: rest) method payload
  = Options hst (47 :: rest) 443 method
            (str "application/x-www-form-urlencoded")
            (if jsstring_eqb method (str "POST") then byteLength payload else 0).
Proof.
  intros Hh. unfold request_options, indexOf.
  rewrite replace_prefix.
  change (str "/") with [47]. rewrite (find_first_slash hst rest Hh).
  rewrite substring_take, substring_from_drop
    by (rewrite length_app; simpl; lia).
  rewrite take_app_length, drop_app_length. reflexivity.
Qed.

(** The options for [https://host], without a path. *)
Lemma request_options_bare hst method payload :
  slash_free hst = true ->
  request_options (str "https://" ++ hst) method payload
  = Options [] hst 443 method
            (str "application/x-www-form-urlencoded")
            (if jsstring_eqb method (str "POST") then byteLength payload else 0).
Proof.
  intros Hh. unfold request_options, indexOf.
  rewrite replace_prefix.
  change (str "/") with [47]. rewrite (find_first_no_slash hst Hh).
  rewrite substring_before_start, substring_from_before_start. reflexivity.
Qed.

(** What Node checks, for the options of [https://host/path]. *)
Lemma accepted_url hst rest m payload :
  slash_free hst = true ->
  valid_host hst = true ->
  valid_path (47 :: rest) = true ->
  valid_method m = true ->
  accepted (request_options (str "https://" ++ hst ++ 47 :: rest) m payload)
  = true.
Proof.
  intros Hh Hv Hp Hm. rewrite (request_options_url hst rest m payload Hh).
  unfold accepted. cbn [path method host]. rewrite Hp, Hm, Hv. reflexivity.
Qed.

(** What Node checks, for the options of [https://host]. *)
Lemma accepted_bare hst m payload :
  slash_free hst = true ->
  valid_path hst = true ->
  valid_method m = true ->
  accepted (request_options (str "https://" ++ hst) m payload) = true.
Proof.
  intros Hh Hp Hm. rewrite (request_options_bare hst m payload Hh).
  unfold accepted. cbn [path method host]. rewrite Hp, Hm. reflexivity.
Qed.

(** X6: for a URI [https://host/path], with a [host] without slash that
    Node accepts as the [Host] header, a path Node accepts and a method
    that is an HTTP token, [request] makes one request to port 443 of
    [host] with the path [/path]; under [POST] the payload is written as
    the body and its byte length is given as [content-length]; under
    another method nothing is written and the length is zero. *)
Theorem request_host_and_path
    (h : list cell) (ob : list client_request) (cl : list (callback * cbarg))
    (hst rest method payload : jsstring) (cb : callback)
    (interpretBody : value) :
  slash_free hst = true ->
  valid_host hst = true ->
  valid_path (47 :: rest) = true ->
  method <> [] ->
  valid_method method = true ->
  request (VStr (str "https://" ++ hst ++ 47 :: rest)) method payload cb
          interpretBody (World h ob cl)
  = (Ok tt,
     World h
       (ob ++ [ClientRequest
                 (Options hst (47 :: rest) 443 method
                    (str "application/x-www-form-urlencoded")
                    (if jsstring_eqb method (str "POST")
                     then byteLength payload else 0))
                 interpretBody cb
                 (if jsstring_eqb method (str "POST") then [payload] else [])
                 true false])
       cl).
Proof.
  intros Hh Hv Hp Hm Ht.
  rewrite request_run; [|exact Hm|apply accepted_url; assumption].
  rewrite (request_options_url hst rest method payload Hh). reflexivity.
Qed.

Lemma request_host_and_path_witness :
  request (VStr (str "https://" ++ str "graph.facebook.com" ++
                 47 :: str "oauth/access_token"))
          (str "POST") (str "a=b") 7%nat (VBool true) (World [] [] [])
  = (Ok tt,
     World []
       [ClientRequest
          (Options (str "graph.facebook.com") (47 :: str "oauth/access_token")
             443 (str "POST") (str "application/x-www-form-urlencoded")
             (if jsstring_eqb (str "POST") (str "POST")
              then byteLength (str "a=b") else 0))
          (VBool true) 7%nat
          (if jsstring_eqb (str "POST") (str "POST") then [str "a=b"] else [])
          true false]
       []).
Proof.
  apply (request_host_and_path [] [] [] (str "graph.facebook.com")
           (str "oauth/access_token") (str "POST") (str "a=b") 7%nat
           (VBool true));
    [reflexivity|reflexivity|reflexivity|discriminate|reflexivity].
Defined.

(** X7: for a URI [https://host] without any path, [indexOf('/')] is
    [-1]: the request [request] makes, for a method that is an HTTP token
    and a [host] Node accepts as a path, has the empty string as its host
    and the whole [host] as its path. *)
Theorem request_without_path
    (h : list cell) (ob : list client_request) (cl : list (callback * cbarg))
    (hst method payload : jsstring) (cb : callback) (interpretBody : value) :
  slash_free hst = true ->
  valid_path hst = true ->
  method <> [] ->
  valid_method method = true ->
  request (VStr (str "https://" ++ hst)) method payload cb interpretBody
          (World h ob cl)
  = (Ok tt,
     World h
       (ob ++ [ClientRequest
                 (Options [] hst 443 method
                    (str "application/x-www-form-urlencoded")
                    (if jsstring_eqb method (str "POST")
                     then byteLength payload else 0))
                 interpretBody cb
                 (if jsstring_eqb method (str "POST") then [payload] else [])
                 true false])
       cl).
Proof.
  intros Hh Hp Hm Ht.
  rewrite request_run; [|exact Hm|apply accepted_bare; assumption].
  rewrite (request_options_bare hst method payload Hh). reflexivity.
Qed.

Lemma request_without_path_witness :
  request (VStr (str "https://" ++ str "provider.example")) (str "GET") []
          7%nat VUndefined (World [] [] [])
  = (Ok tt,
     World []
       [ClientRequest
          (Options [] (str "provider.example") 443 (str "GET")
             (str "application/x-www-form-urlencoded")
             (if jsstring_eqb (str "GET") (str "POST")
              then byteLength [] else 0))
          VUndefined 7%nat
          (if jsstring_eqb (str "GET") (str "POST") then [[]] else [])
          true false]
       []).
Proof.
  apply (request_without_path [] [] [] (str "provider.example") (str "GET") []
           7%nat VUndefined);
    [reflexivity|reflexivity|discriminate|reflexivity].
Defined.


(** ** The two exchanges: what is sent *)

Lemma byteLength_ascii s :
  forallb (fun c => c <? 128) s = true -> byteLength s = N.of_nat (length s).
Proof.
  induction s as [|c r IH]; [reflexivity|].
  intros [Hc Hr]%andb_true_iff.
  change (byteLength (c :: r))
    with (if c <? 128 then 1 + byteLength r
          else if c <? 2048 then 2 + byteLength r
          else if is_high_surrogate c then
            match r with
            | k :: r' => if is_low_surrogate k then 4 + byteLength r'
                         else 3 + byteLength r
            | [] => 3
            end
          else 3 + byteLength r).
  rewrite Hc, (IH Hr). simpl length. lia.
Qed.

Lemma query_char_ascii s :
  forallb query_char s = true -> forallb (fun c => c <? 128) s = true.
Proof.
  intros H. apply forallb_forall. intros c Hc.
  rewrite forallb_forall in H. specialize (H c Hc).
  unfold query_char in H.
  apply orb_true_iff in H as [H|H%N.eqb_eq]; [|subst; reflexivity].
  apply orb_true_iff in H as [H|H%N.eqb_eq]; [|subst; reflexivity].
  apply safe_ascii, H.
Qed.

(** The body [buildQueryString] returns has as many bytes as characters. *)
Lemma payload_byteLength (o : object) :
  plain_names o ->
  byteLength (join_amp (object_fields o))
  = N.of_nat (length (join_amp (object_fields o))).
Proof.
  intros Hpl. apply byteLength_ascii, query_char_ascii, object_query_chars, Hpl.
Qed.

Lemma token_parameters_plain prov refreshToken :
  plain_names (token_parameters prov refreshToken).
Proof.
  apply plain_names_check. unfold token_parameters, optional_prop.
  destruct (truthy (get_prop prov (str "scope")));
    destruct (truthy (get_prop prov (str "state"))); vm_compute; reflexivity.
Qed.

Lemma token_parameters_encodable prov refreshToken :
  encodable prov -> wf_value refreshToken ->
  encodable (token_parameters prov refreshToken).
Proof.
  intros Hp Hr. unfold token_parameters.
  repeat apply optional_prop_encodable; try (apply get_prop_encodable; exact Hp).
  repeat constructor; simpl; try reflexivity; try assumption;
    apply get_prop_encodable; exact Hp.
Qed.

Lemma token_parameters_shape prov refreshToken :
  token_parameters prov refreshToken
  = [(str "client_id", get_prop prov (str "clientId"));
     (str "client_secret", get_prop prov (str "clientSecret"));
     (str "refresh_token", refreshToken);
     (str "grant_type", VStr (str "refresh_token"))]
    ++ (if truthy (get_prop prov (str "scope"))
        then [(str "scope", get_prop prov (str "scope"))] else [])
    ++ (if truthy (get_prop prov (str "state"))
        then [(str "state", get_prop prov (str "state"))] else []).
Proof.
  unfold token_parameters, optional_prop.
  destruct (truthy (get_prop prov (str "scope")));
    destruct (truthy (get_prop prov (str "state"))); vm_compute; reflexivity.
Qed.

Lemma code_parameters_shape prov redirectUri code :
  code_parameters prov redirectUri code
  = [(str "client_id", get_prop prov (str "clientId"));
     (str "client_secret", get_prop prov (str "clientSecret"));
     (str "redirect_uri", redirectUri);
     (str "code", code);
     (str "grant_type", VStr (str "authorization_code"))]
    ++ (if truthy (get_prop prov (str "scope"))
        then [(str "scope", get_prop prov (str "scope"))] else [])
    ++ (if truthy (get_prop prov (str "state"))
        then [(str "state", get_prop prov (str "state"))] else []).
Proof.
  unfold code_parameters, optional_prop.
  destruct (truthy (get_prop prov (str "scope")));
    destruct (truthy (get_prop prov (str "state"))); vm_compute; reflexivity.
Qed.

Lemma grant_type_refresh :
  form_field "grant_type" (VStr (str "refresh_token"))
  = str "grant_type=refresh_token".
Proof. vm_compute. reflexivity. Qed.

Lemma grant_type_code :
  form_field "grant_type" (VStr (str "authorization_code"))
  = str "grant_type=authorization_code".
Proof. vm_compute. reflexivity. Qed.

Lemma object_fields_optional (k : string) (v : value) :
  object_fields (if truthy v then [(str k, v)] else []) = optional_field k v.
Proof. unfold optional_field. destruct (truthy v); reflexivity. Qed.

Lemma object_fields_app (a b : object) :
  object_fields (a ++ b) = object_fields a ++ object_fields b.
Proof. apply map_app. Qed.

Lemma token_parameters_fields prov refreshToken :
  object_fields (token_parameters prov refreshToken)
  = [form_field "client_id" (get_prop prov (str "clientId"));
     form_field "client_secret" (get_prop prov (str "clientSecret"));
     form_field "refresh_token" refreshToken;
     str "grant_type=refresh_token"]
    ++ optional_field "scope" (get_prop prov (str "scope"))
    ++ optional_field "state" (get_prop prov (str "state")).
Proof.
  rewrite token_parameters_shape, !object_fields_app.
  rewrite (object_fields_optional "scope"), (object_fields_optional "state").
  rewrite <- grant_type_refresh. reflexivity.
Qed.

Lemma code_parameters_fields prov redirectUri code :
  object_fields (code_parameters prov redirectUri code)
  = [form_field "client_id" (get_prop prov (str "clientId"));
     form_field "client_secret" (get_prop prov (str "clientSecret"));
     form_field "redirect_uri" redirectUri;
     form_field "code" code;
     str "grant_type=authorization_code"]
    ++ optional_field "scope" (get_prop prov (str "scope"))
    ++ optional_field "state" (get_prop prov (str "state")).
Proof.
  rewrite code_parameters_shape, !object_fields_app.
  rewrite (object_fields_optional "scope"), (object_fields_optional "state").
  rewrite <- grant_type_code. reflexivity.
Qed.

Section ExchangeRequests.
Variables (h : list cell) (ob : list client_request)
          (cl : list (callback * cbarg)).
Variables (p : loc) (prov : object).
Hypothesis provider_at : h !! p = Some (CObj prov).
Hypothesis provider_wf : encodable prov.

Lemma AuthenticateByToken_run refreshToken cb uri :
  wf_value refreshToken ->
  get_prop prov (str "accessTokenUri") = VStr uri ->
  accepted (request_options uri (str "POST") []) = true ->
  AuthenticateByToken p refreshToken cb (World h ob cl)
  = let payload :=
      join_amp (object_fields (token_parameters prov refreshToken)) in
    (Ok tt,
     World (h ++ [CObj (encode_object (token_parameters prov refreshToken))])
           (ob ++ [ClientRequest (request_options uri (str "POST") payload)
                     (VBool true) cb [payload] true false])
           cl).
Proof.
  intros Hr Huri Hpath. unfold AuthenticateByToken.
  run_with get_field_provider. run_with get_field_provider.
  run_with alloc_object.
  run_with get_field_provider_last. run_with optional_set.
  run_with get_field_provider_last. run_with optional_set.
  run_with get_field_provider_last.
  fold (token_parameters prov refreshToken).
  erewrite bind_ok.
  2:{ apply buildQueryString_last;
        [apply token_parameters_plain
        |apply token_parameters_encodable; assumption]. }
  rewrite Huri. unfold at_last. rewrite request_run; [reflexivity|discriminate|].
  exact Hpath.
Qed.
End ExchangeRequests.

(** X8: on a descriptor with well-formed strings whose [accessTokenUri] is
    [https://host/path], with a host and a path Node accepts,
    [AuthenticateByToken] makes one [POST] request to [host] and [/path];
    its body holds, in this order, [client_id],
    [client_secret], [refresh_token] and [grant_type=refresh_token], then
    [scope] and [state] when the descriptor has them truthy, and no other
    field; the content length is the length of the body. *)
Theorem AuthenticateByToken_request
    (h : list cell) (ob : list client_request) (cl : list (callback * cbarg))
    (p : loc) (prov : object) (refreshToken : value) (cb : callback)
    (hst rest : jsstring) :
  h !! p = Some (CObj prov) ->
  encodable prov ->
  wf_value refreshToken ->
  get_prop prov (str "accessTokenUri")
  = VStr (str "https://" ++ hst ++ 47 :: rest) ->
  slash_free hst = true ->
  valid_host hst = true ->
  valid_path (47 :: rest) = true ->
  exists payload,
    AuthenticateByToken p refreshToken cb (World h ob cl)
    = (Ok tt,
       World (h ++ [CObj (encode_object (token_parameters prov refreshToken))])
             (ob ++ [ClientRequest
                       (Options hst (47 :: rest) 443 (str "POST")
                          (str "application/x-www-form-urlencoded")
                          (N.of_nat (length payload)))
                       (VBool true) cb [payload] true false])
             cl) /\
    query_fields payload
    = [form_field "client_id" (get_prop prov (str "clientId"));
       form_field "client_secret" (get_prop prov (str "clientSecret"));
       form_field "refresh_token" refreshToken;
       str "grant_type=refresh_token"]
      ++ optional_field "scope" (get_prop prov (str "scope"))
      ++ optional_field "state" (get_prop prov (str "state")).
Proof.
  intros Hp Hwf Hr Huri Hh Hhost Hpath.
  pose proof (token_parameters_plain prov refreshToken) as Hpl.
  exists (join_amp (object_fields (token_parameters prov refreshToken))).
  split.
  - rewrite (AuthenticateByToken_run h ob cl p prov Hp Hwf refreshToken cb _
               Hr Huri)
      by (apply accepted_url; [exact Hh|exact Hhost|exact Hpath|reflexivity]).
    cbv zeta. rewrite (request_options_url hst rest _ _ Hh).
    rewrite (payload_byteLength _ Hpl). reflexivity.
  - rewrite query_fields_object, token_parameters_fields; [reflexivity|exact Hpl|].
    intros He. pose proof (token_parameters_fields prov refreshToken) as Hf.
    rewrite He in Hf. discriminate.
Qed.

Lemma AuthenticateByToken_request_witness :
  exists payload,
    AuthenticateByToken 0%nat (VStr (str "r/1")) 7%nat
      (World [CObj sample_provider] [] [])
    = (Ok tt,
       World ([CObj sample_provider] ++
              [CObj (encode_object
                       (token_parameters sample_provider (VStr (str "r/1"))))])
             ([] ++ [ClientRequest
                       (Options (str "provider.example") (47 :: str "token")
                          443 (str "POST")
                          (str "application/x-www-form-urlencoded")
                          (N.of_nat (length payload)))
                       (VBool true) 7%nat [payload] true false])
             []) /\
    query_fields payload
    = [str "client_id=id"; str "client_secret=s3cr3t";
       str "refresh_token=r%252F1"; str "grant_type=refresh_token";
       str "scope=email%2520profile"].
Proof.
  destruct (AuthenticateByToken_request [CObj sample_provider] [] [] 0%nat
              sample_provider (VStr (str "r/1")) 7%nat
              (str "provider.example") (str "token"))
    as (payload & Hrun & Hfields); try reflexivity.
  - repeat constructor.
  - exists payload. split; [exact Hrun|]. rewrite Hfields.
    vm_compute. reflexivity.
Defined.

(** X9: on a descriptor with well-formed strings whose [accessTokenUri] is
    [https://host/path], with a host and a path Node accepts,
    [AuthenticateByCode] makes one [POST] request to [host] and [/path];
    its body holds, in this order, [client_id],
    [client_secret], [redirect_uri], [code] and
    [grant_type=authorization_code], then [scope] and [state] when the
    descriptor has them truthy, and no other field; the content length is
    the length of the body. *)
Theorem AuthenticateByCode_request
    (h : list cell) (ob : list client_request) (cl : list (callback * cbarg))
    (p : loc) (prov : object) (redirectUri code : value) (cb : callback)
    (hst rest : jsstring) :
  h !! p = Some (CObj prov) ->
  encodable prov ->
  wf_value redirectUri -> wf_value code ->
  get_prop prov (str "accessTokenUri")
  = VStr (str "https://" ++ hst ++ 47 :: rest) ->
  slash_free hst = true ->
  valid_host hst = true ->
  valid_path (47 :: rest) = true ->
  exists payload,
    AuthenticateByCode p redirectUri code cb (World h ob cl)
    = (Ok tt,
       World (h ++ [CObj (encode_object
                            (code_parameters prov redirectUri code))])
             (ob ++ [ClientRequest
                       (Options hst (47 :: rest) 443 (str "POST")
                          (str "application/x-www-form-urlencoded")
                          (N.of_nat (length payload)))
                       (VBool true) cb [payload] true false])
             cl) /\
    query_fields payload
    = [form_field "client_id" (get_prop prov (str "clientId"));
       form_field "client_secret" (get_prop prov (str "clientSecret"));
       form_field "redirect_uri" redirectUri;
       form_field "code" code;
       str "grant_type=authorization_code"]
      ++ optional_field "scope" (get_prop prov (str "scope"))
      ++ optional_field "state" (get_prop prov (str "state")).
Proof.
  intros Hp Hwf Hr Hc Huri Hh Hhost Hpath.
  pose proof (code_parameters_plain prov redirectUri code) as Hpl.
  exists (join_amp (object_fields (code_parameters prov redirectUri code))).
  split.
  - rewrite (AuthenticateByCode_run h ob cl p prov Hp Hwf redirectUri code cb _
               Hr Hc Huri)
      by (apply accepted_url; [exact Hh|exact Hhost|exact Hpath|reflexivity]).
    cbv zeta. rewrite (request_options_url hst rest _ _ Hh).
    rewrite (payload_byteLength _ Hpl). reflexivity.
  - rewrite query_fields_object, code_parameters_fields; [reflexivity|exact Hpl|].
    intros He. pose proof (code_parameters_fields prov redirectUri code) as Hf.
    rewrite He in Hf. discriminate.
Qed.

Lemma AuthenticateByCode_request_witness :
  exists payload,
    AuthenticateByCode 0%nat (VStr (str "https://app.example/cb"))
      (VStr (str "c0de")) 7%nat (World [CObj sample_provider] [] [])
    = (Ok tt,
       World ([CObj sample_provider] ++
              [CObj (encode_object
                       (code_parameters sample_provider
                          (VStr (str "https://app.example/cb"))
                          (VStr (str "c0de"))))])
             ([] ++ [ClientRequest
                       (Options (str "provider.example") (47 :: str "token")
                          443 (str "POST")
                          (str "application/x-www-form-urlencoded")
                          (N.of_nat (length payload)))
                       (VBool true) 7%nat [payload] true false])
             []) /\
    query_fields payload
    = [str "client_id=id"; str "client_secret=s3cr3t";
       str "redirect_uri=https%253A%252F%252Fapp.example%252Fcb";
       str "code=c0de"; str "grant_type=authorization_code";
       str "scope=email%2520profile"].
Proof.
  destruct (AuthenticateByCode_request [CObj sample_provider] [] [] 0%nat
              sample_provider (VStr (str "https://app.example/cb"))
              (VStr (str "c0de")) 7%nat
              (str "provider.example") (str "token"))
    as (payload & Hrun & Hfields); try reflexivity.
  - repeat constructor.
  - exists payload. split; [exact Hrun|]. rewrite Hfields.
    vm_compute. reflexivity.
Defined.

(** ** The response handler *)

Lemma body_of_concat chunks : body_of chunks = concat chunks.
Proof.
  unfold body_of.
  assert (H : forall acc, fold_left (fun body d => body ++ d) chunks acc
                          = acc ++ concat chunks).
  { induction chunks as [|d ds IH]; intros acc; simpl.
    - rewrite app_nil_r. reflexivity.
    - rewrite IH, <- app_assoc. reflexivity. }
  exact (H []).
Qed.

(** *** Decoding the chunks *)

(** Between two sequences the decoder has no memory. *)
Lemma decode_from_idle st d :
  dec_needed st = 0 -> decode_from st d = decode_from idle d.
Proof.
  intros H. destruct d as [|b r]; cbn [decode_from].
  - rewrite H. reflexivity.
  - unfold decode_octet. rewrite H. reflexivity.
Qed.

(** After a chunk that does not end inside a sequence, what follows is
    decoded as it would be on its own. *)
Lemma decode_from_app st a b :
  dec_needed (decoder_after st a) = 0 ->
  decode_from st (a ++ b) = decode_from st a ++ decode_from idle b.
Proof.
  revert st. induction a as [|x a IH]; intros st H.
  - cbn [decoder_after] in H. cbn [app decode_from]. rewrite H.
    apply decode_from_idle, H.
  - cbn [decoder_after] in H.
    change ((x :: a) ++ b) with (x :: (a ++ b)). cbn [decode_from].
    rewrite (IH _ H), app_assoc. reflexivity.
Qed.

Lemma utf8_decode_app a b :
  whole a = true -> utf8_decode (a ++ b) = utf8_decode a ++ utf8_decode b.
Proof.
  intros H. apply decode_from_app. apply N.eqb_eq, H.
Qed.

(** Chunks none of which ends inside a sequence: decoding them one by one
    gives what decoding the whole response gives. *)
Lemma utf8_decode_chunks (chunks : list buffer) :
  forallb whole chunks = true ->
  concat (map utf8_decode chunks) = utf8_decode (concat chunks).
Proof.
  induction chunks as [|d ds IH]; [reflexivity|].
  cbn [forallb map concat]. intros [Hd Hds]%andb_true_iff.
  rewrite (utf8_decode_app d _ Hd), (IH Hds). reflexivity.
Qed.

(** ASCII octets are their own decoding. *)
Lemma utf8_decode_ascii (d : buffer) :
  ascii_only d = true -> utf8_decode d = d /\ whole d = true.
Proof.
  unfold utf8_decode, whole, ascii_only.
  induction d as [|b r IH]; [split; reflexivity|].
  cbn [forallb]. intros [Hb Hr]%andb_true_iff.
  cbn [decode_from decoder_after].
  assert (Hstep : decode_octet idle b = (idle, [b]))
    by (unfold decode_octet, decode_lead; cbn [dec_needed idle]; simpl;
        rewrite Hb; reflexivity).
  rewrite Hstep. cbn [fst snd]. destruct (IH Hr) as [-> ->].
  split; reflexivity.
Qed.

(** X10: when the response of a request made with [interpretBody] ends,
    the body the handler has is the chunks put together in order, each
    [Buffer] decoded as UTF-8 on its own; unless that body is JSON for
    [null], the handler calls the continuation one time, with a new record
    that [interpretReply] makes of that body.  When no chunk ends inside a
    multi-byte sequence, the body is the decoding of the whole
    response. *)
Theorem response_interpreted_once
    (w : world) (i : nat) (r : client_request) (chunks : list buffer) :
  outbox w !! i = Some r ->
  req_ended r = true -> req_answered r = false ->
  truthy (req_interpretBody r) = true ->
  is_null_reply (concat (map utf8_decode chunks)) = false ->
  exists w',
    response_handler i chunks w = (Ok tt, w') /\
    calls w' = calls w ++ [(req_callback r, ArgToken (length (heap w)))] /\
    heap w'
    = heap w ++ [CToken (interpret_token
                           (parsed_reply (concat (map utf8_decode chunks))))] /\
    (forallb whole chunks = true ->
     concat (map utf8_decode chunks) = utf8_decode (concat chunks)).
Proof.
  intros Hi He Ha Ht Hn. unfold response_handler.
  rewrite <- body_of_concat in *.
  rewrite (respond_interpreted w i r Hi _ He Ha Ht Hn).
  eexists. split; [reflexivity|]. split; [reflexivity|].
  split; [reflexivity|]. rewrite body_of_concat. apply utf8_decode_chunks.
Qed.

Lemma response_interpreted_once_witness :
  exists w',
    response_handler 0%nat [dq "{'access_token':"; dq "'A','expires_in':120}"]
      (World []
         [ClientRequest
            (Options (str "provider.example") (str "/token") 443 (str "POST")
               (str "application/x-www-form-urlencoded") 0)
            (VBool true) 7%nat [] true false] [])
    = (Ok tt, w') /\
    calls w' = [(7%nat, ArgToken 0%nat)] /\
    heap w' = [CToken (Token (JStr (str "A")) JNull (JNum 120 0))] /\
    (forallb whole [dq "{'access_token':"; dq "'A','expires_in':120}"] = true ->
     concat (map utf8_decode [dq "{'access_token':"; dq "'A','expires_in':120}"])
     = utf8_decode (concat [dq "{'access_token':"; dq "'A','expires_in':120}"])).
Proof.
  destruct (response_interpreted_once
              (World []
                 [ClientRequest
                    (Options (str "provider.example") (str "/token") 443
                       (str "POST") (str "application/x-www-form-urlencoded") 0)
                    (VBool true) 7%nat [] true false] [])
              0%nat
              (ClientRequest
                 (Options (str "provider.example") (str "/token") 443
                    (str "POST") (str "application/x-www-form-urlencoded") 0)
                 (VBool true) 7%nat [] true false)
              [dq "{'access_token':"; dq "'A','expires_in':120}"]
              eq_refl eq_refl eq_refl eq_refl eq_refl)
    as (w' & Hrun & Hcalls & Hheap & Hwhole).
  exists w'. split; [exact Hrun|]. split; [exact Hcalls|].
  split; [exact Hheap|exact Hwhole].
Defined.

(** X11: when the response of a request made without [interpretBody] ends,
    the handler calls the continuation one time, with the body: the chunks
    put together in order, each [Buffer] decoded as UTF-8 on its own, and
    nothing parsed, whatever the body is; the heap is not touched.  For
    ASCII chunks the body is the octets of the response. *)
Theorem response_raw_once
    (w : world) (i : nat) (r : client_request) (chunks : list buffer) :
  outbox w !! i = Some r ->
  req_ended r = true -> req_answered r = false ->
  truthy (req_interpretBody r) = false ->
  exists w',
    response_handler i chunks w = (Ok tt, w') /\
    calls w'
    = calls w ++ [(req_callback r,
                   ArgBody (concat (map utf8_decode chunks)))] /\
    heap w' = heap w /\
    (forallb ascii_only chunks = true ->
     concat (map utf8_decode chunks) = concat chunks).
Proof.
  intros Hi He Ha Ht. unfold response_handler.
  rewrite (respond_raw w i r Hi _ He Ha Ht), body_of_concat.
  eexists. split; [reflexivity|]. split; [reflexivity|].
  split; [reflexivity|]. intros Hascii. f_equal.
  induction chunks as [|d ds IH]; [reflexivity|].
  cbn [forallb] in Hascii. apply andb_true_iff in Hascii as [Hd Hds].
  cbn [map]. rewrite (proj1 (utf8_decode_ascii d Hd)), (IH Hds). reflexivity.
Qed.

Lemma response_raw_once_witness :
  exists w',
    response_handler 0%nat [str "nu"; str "ll"]
      (World []
         [ClientRequest
            (Options (str "provider.example") (str "/me") 443 (str "GET")
               (str "application/x-www-form-urlencoded") 0)
            VUndefined 7%nat [] true false] [])
    = (Ok tt, w') /\
    calls w' = [(7%nat, ArgBody (str "null"))] /\
    heap w' = [] /\
    (forallb ascii_only [str "nu"; str "ll"] = true ->
     concat (map utf8_decode [str "nu"; str "ll"]) = concat [str "nu"; str "ll"]).
Proof.
  destruct (response_raw_once
              (World []
                 [ClientRequest
                    (Options (str "provider.example") (str "/me") 443 (str "GET")
                       (str "application/x-www-form-urlencoded") 0)
                    VUndefined 7%nat [] true false] [])
              0%nat
              (ClientRequest
                 (Options (str "provider.example") (str "/me") 443 (str "GET")
                    (str "application/x-www-form-urlencoded") 0)
                 VUndefined 7%nat [] true false)
              [str "nu"; str "ll"]
              eq_refl eq_refl eq_refl eq_refl)
    as (w' & Hrun & Hcalls & Hheap & Hascii).
  exists w'. split; [exact Hrun|]. split; [exact Hcalls|].
  split; [exact Hheap|exact Hascii].
Defined.

(** The requests after the handler of request [i] has run: the same, or
    the same with request [i] marked as answered. *)
Lemma respond_outbox (w : world) (i : nat) (chunks : list jsstring) :
  outbox (respond i chunks w).2 = outbox w \/
  exists r, outbox w !! i = Some r /\
            outbox (respond i chunks w).2 = <[i := answered r]> (outbox w).
Proof.
  unfold respond. destruct (outbox w !! i) as [r|] eqn:Hi; [|left; reflexivity].
  destruct (req_ended r && negb (req_answered r)); [|left; reflexivity].
  right. exists r. split; [reflexivity|].
  erewrite bind_ok by (apply mark_answered; exact Hi).
  cbv zeta. destruct (truthy (req_interpretBody r)); [|reflexivity].
  unfold bind.
  match goal with
  | |- context [interpretReply ?b ?w1] =>
    destruct (quiet_interpretReply b w1) as [Ho _];
    destruct (interpretReply b w1) as [[t|e] w2]
  end; simpl in *; exact Ho.
Qed.

(** X12: when the response of a request made with [interpretBody] ends
    with a body that is JSON for [null], the handler throws a TypeError and
    the continuation is not called, neither then nor later. *)
Theorem response_null_never_called
    (w : world) (i : nat) (r : client_request) (chunks : list jsstring) :
  outbox w !! i = Some r ->
  req_ended r = true -> req_answered r = false ->
  truthy (req_interpretBody r) = true ->
  is_null_reply (concat chunks) = true ->
  (respond i chunks w).1 = Throw TypeError /\
  calls (respond i chunks w).2 = calls w /\
  forall chunks',
    respond i chunks' (respond i chunks w).2
    = (Ok tt, (respond i chunks w).2).
Proof.
  intros Hi He Ha Ht Hn. rewrite <- body_of_concat in Hn.
  destruct (respond_null w i r Hi chunks He Ha Ht Hn) as [Hthrow Hcalls].
  split; [exact Hthrow|]. split; [exact Hcalls|]. intros chunks'.
  destruct (respond_outbox w i chunks) as [Ho|(r' & Hr' & Ho)].
  - exfalso. revert Ho. unfold respond. rewrite Hi, He, Ha. simpl.
    erewrite bind_ok by (apply mark_answered; exact Hi).
    fold (body_of chunks). rewrite Ht.
    erewrite bind_throw.
    2:{ apply interpretReply_throw. rewrite parsed_reply_null.
        unfold is_null_reply in Hn.
        destruct (JSON_parse (body_of chunks)) as [[]|]; congruence. }
    simpl. intros Ho.
    assert (Hl : <[i := answered r]> (outbox w) !! i = Some (answered r))
      by (apply list_lookup_insert_eq, (lookup_lt_Some _ _ _ Hi)).
    rewrite Ho, Hi in Hl. injection Hl as Hl. rewrite Hl in Ha.
    discriminate.
  - apply (respond_answered _ i (answered r')); [|reflexivity].
    rewrite Ho. apply list_lookup_insert_eq, (lookup_lt_Some _ _ _ Hi).
Qed.

Lemma response_null_never_called_witness :
  (respond 0%nat [str " null "]
     (World []
        [ClientRequest
           (Options (str "provider.example") (str "/token") 443 (str "POST")
              (str "application/x-www-form-urlencoded") 0)
           (VBool true) 7%nat [] true false] [])).1
  = Throw TypeError /\
  calls
    (respond 0%nat [str " null "]
       (World []
          [ClientRequest
             (Options (str "provider.example") (str "/token") 443 (str "POST")
                (str "application/x-www-form-urlencoded") 0)
             (VBool true) 7%nat [] true false] [])).2
  = [] /\
  forall chunks',
    respond 0%nat chunks'
      (respond 0%nat [str " null "]
         (World []
            [ClientRequest
               (Options (str "provider.example") (str "/token") 443
                  (str "POST") (str "application/x-www-form-urlencoded") 0)
               (VBool true) 7%nat [] true false] [])).2
    = (Ok tt,
       (respond 0%nat [str " null "]
          (World []
             [ClientRequest
                (Options (str "provider.example") (str "/token") 443
                   (str "POST") (str "application/x-www-form-urlencoded") 0)
                (VBool true) 7%nat [] true false] [])).2).
Proof.
  apply (response_null_never_called
           (World []
              [ClientRequest
                 (Options (str "provider.example") (str "/token") 443
                    (str "POST") (str "application/x-www-form-urlencoded") 0)
                 (VBool true) 7%nat [] true false] [])
           0%nat
           (ClientRequest
              (Options (str "provider.example") (str "/token") 443
                 (str "POST") (str "application/x-www-form-urlencoded") 0)
              (VBool true) 7%nat [] true false));
    reflexivity.
Defined.

(** X13: the handler of one request leaves the other requests as they
    are: requests in flight do not interfere. *)
Theorem response_leaves_other_requests
    (w : world) (i j : nat) (chunks : list jsstring) :
  i <> j ->
  outbox (respond i chunks w).2 !! j = outbox w !! j /\
  length (outbox (respond i chunks w).2) = length (outbox w).
Proof.
  intros Hij. destruct (respond_outbox w i chunks) as [->|(r & _ & ->)].
  - split; reflexivity.
  - split; [apply list_lookup_insert_ne; exact Hij|apply length_insert].
Qed.

Lemma response_leaves_other_requests_witness :
  outbox
    (respond 0%nat [str "body"]
       (World []
          [ClientRequest
             (Options (str "a.example") (str "/me") 443 (str "GET")
                (str "application/x-www-form-urlencoded") 0)
             VUndefined 7%nat [] true false;
           ClientRequest
             (Options (str "b.example") (str "/me") 443 (str "GET")
                (str "application/x-www-form-urlencoded") 0)
             VUndefined 8%nat [] true false] [])).2 !! 1%nat
  = [ClientRequest
       (Options (str "a.example") (str "/me") 443 (str "GET")
          (str "application/x-www-form-urlencoded") 0)
       VUndefined 7%nat [] true false;
     ClientRequest
       (Options (str "b.example") (str "/me") 443 (str "GET")
          (str "application/x-www-form-urlencoded") 0)
       VUndefined 8%nat [] true false] !! 1%nat.
Proof.
  apply (response_leaves_other_requests
           (World []
              [ClientRequest
                 (Options (str "a.example") (str "/me") 443 (str "GET")
                    (str "application/x-www-form-urlencoded") 0)
                 VUndefined 7%nat [] true false;
               ClientRequest
                 (Options (str "b.example") (str "/me") 443 (str "GET")
                    (str "application/x-www-form-urlencoded") 0)
                 VUndefined 8%nat [] true false] [])
           0%nat 1%nat [str "body"]).
  discriminate.
Defined.

(** ** [buildQueryString] on any object of the heap *)

Lemma encodeURIComponent_ill_formed s :
  well_formed s = false -> encodeURIComponent s = Throw URIError.
Proof.
  assert (H : forall n s, (length s <= n)%nat -> well_formed s = false ->
            encodeURIComponent s = Throw URIError).
  { clear s. induction n as [|n IH]; intros [|c r] Hlen Hwf;
      try discriminate; simpl in Hlen; [lia|].
    simpl in Hwf |- *.
    destruct (unreserved c) eqn:Hu.
    - destruct (unreserved_not_surrogate c Hu) as [Hl Hh].
      rewrite Hl, Hh in Hwf. rewrite (IH r) by (assumption || lia). reflexivity.
    - destruct (is_low_surrogate c); [reflexivity|].
      destruct (is_high_surrogate c); simpl.
      + destruct r as [|k r']; [reflexivity|].
        destruct (is_low_surrogate k); [|reflexivity]. simpl in Hwf.
        rewrite (IH r') by (assumption || (simpl in Hlen; lia)). reflexivity.
      + rewrite (IH r) by (assumption || lia). reflexivity. }
  apply (H (length s)). lia.
Qed.

Section AnyObject.
Variables (h : list cell) (ob : list client_request)
          (cl : list (callback * cbarg)) (l : loc).
Hypothesis allocated : (l < length h)%nat.

Lemma get_field_at o k :
  get_field l k (at_loc h ob cl l o) = (Ok (get_prop o k), at_loc h ob cl l o).
Proof.
  unfold get_field, at_loc. simpl.
  rewrite list_lookup_insert_eq by exact allocated. reflexivity.
Qed.

Lemma set_field_at o k v :
  set_field l k v (at_loc h ob cl l o)
  = (Ok tt, at_loc h ob cl l (set_prop o k v)).
Proof.
  unfold set_field, at_loc, set_heap. simpl.
  rewrite list_lookup_insert_eq by exact allocated.
  rewrite list_insert_insert_eq. reflexivity.
Qed.

Lemma object_keys_at o :
  object_keys l (at_loc h ob cl l o) = (Ok (own_keys o), at_loc h ob cl l o).
Proof.
  unfold object_keys, at_loc. simpl.
  rewrite list_lookup_insert_eq by exact allocated. reflexivity.
Qed.

(** The [forEach] loop over the names of [b], the properties [a] being
    encoded already and the properties [c] coming after. *)
Lemma encode_loop_at (a b c : object) :
  NoDup (map fst (a ++ b ++ c)) -> encodable b ->
  for_each (map fst b) (fun key =>
      v <- get_field l key ;;
      e <- lift (encodeURIComponent (ToString v)) ;;
      set_field l key (VStr e))
    (at_loc h ob cl l (encode_object a ++ b ++ c))
  = (Ok tt, at_loc h ob cl l (encode_object (a ++ b) ++ c)).
Proof.
  revert a. induction b as [|[k v] b IH]; intros a Hnd Henc.
  - simpl. rewrite !app_nil_r. reflexivity.
  - inversion Henc as [|? ? Hv Hb]; subst. simpl in Hv.
    assert (Hk : ~ In k (map fst (encode_object a))).
    { rewrite encode_object_keys. rewrite map_app in Hnd.
      apply NoDup_ListNoDup in Hnd.
      apply NoDup_remove_2 in Hnd. rewrite in_app_iff in Hnd. tauto. }
    cbn [map fst for_each app]. unfold bind at 1 2.
    rewrite get_field_at, (get_prop_middle _ _ _ _ Hk).
    unfold bind at 1. unfold lift. rewrite (encodeURIComponent_ok _ Hv).
    rewrite set_field_at, (set_prop_middle _ _ _ _ _ Hk).
    specialize (IH (a ++ [(k, v)])).
    rewrite encode_object_app, <- !app_assoc in IH. simpl in IH.
    apply IH; [exact Hnd|exact Hb].
Qed.

Lemma for_each_app {A} (l1 l2 : list A) (f : A -> M unit) w :
  for_each (l1 ++ l2) f w = (for_each l1 f ;;; for_each l2 f) w.
Proof.
  revert w. induction l1 as [|a l1 IH]; intros w; simpl.
  - reflexivity.
  - unfold bind. destruct (f a w) as [[[]|e] w']; [apply IH|reflexivity].
Qed.

Lemma buildQueryString_at (o : object) :
  plain_names o -> encodable o ->
  buildQueryString l (at_loc h ob cl l o)
  = (Ok (join_amp (object_fields o)), at_loc h ob cl l (encode_object o)).
Proof.
  intros Hpl Henc. unfold buildQueryString.
  erewrite bind_ok by apply object_keys_at.
  rewrite (own_keys_plain o (proj2 Hpl)).
  pose proof (encode_loop_at [] o []) as Hloop.
  rewrite !app_nil_r in Hloop. simpl in Hloop.
  erewrite bind_ok by (apply Hloop; [exact (proj1 Hpl)|exact Henc]).
  unfold querystring_stringify, at_loc. simpl.
  rewrite list_lookup_insert_eq by exact allocated.
  rewrite (own_keys_plain (encode_object o)).
  - rewrite encode_object_keys.
    pose proof (stringify_fields_encoded [] o true Hpl) as Hs.
    simpl in Hs. rewrite Hs. reflexivity.
  - destruct Hpl as [_ Hpl]. unfold encode_object.
    apply Forall_map. exact Hpl.
Qed.

Lemma buildQueryString_throw_at (b1 b2 : object) k v :
  plain_names (b1 ++ (k, v) :: b2) -> encodable b1 ->
  well_formed (ToString v) = false ->
  buildQueryString l (at_loc h ob cl l (b1 ++ (k, v) :: b2))
  = (Throw URIError, at_loc h ob cl l (encode_object b1 ++ (k, v) :: b2)).
Proof.
  intros Hpl Henc Hv. unfold buildQueryString.
  erewrite bind_ok by apply object_keys_at.
  rewrite (own_keys_plain _ (proj2 Hpl)).
  apply bind_throw. rewrite map_app, for_each_app.
  pose proof (encode_loop_at [] b1 ((k, v) :: b2)) as Hloop.
  simpl in Hloop.
  erewrite bind_ok by (apply Hloop; [exact (proj1 Hpl)|exact Henc]).
  cbn [map fst for_each]. apply bind_throw.
  assert (Hk : ~ In k (map fst (encode_object b1))).
  { rewrite encode_object_keys. destruct Hpl as [Hnd _].
    rewrite map_app in Hnd. apply NoDup_ListNoDup in Hnd.
    apply NoDup_remove_2 in Hnd. rewrite in_app_iff in Hnd. tauto. }
  erewrite bind_ok by apply get_field_at.
  rewrite (get_prop_middle _ _ _ _ Hk).
  apply bind_throw. unfold lift.
  rewrite (encodeURIComponent_ill_formed _ Hv). reflexivity.
Qed.
End AnyObject.

Lemma at_loc_id h ob cl l o :
  h !! l = Some (CObj o) -> at_loc h ob cl l o = World h ob cl.
Proof. intros H. unfold at_loc. f_equal. apply list_insert_id. exact H. Qed.

(** X14: [buildQueryString] on an object of the heap whose names are plain
    and whose values are well-formed returns its [name=value] fields in the
    order of the object, joined by [&] and made of unreserved characters,
    [%], [&] and [=] only; and it overwrites every value of that object by
    its [encodeURIComponent] form, leaving the other cells as they are. *)
Theorem buildQueryString_overwrites
    (h : list cell) (ob : list client_request) (cl : list (callback * cbarg))
    (l : loc) (o : object) :
  h !! l = Some (CObj o) ->
  plain_names o -> encodable o ->
  buildQueryString l (World h ob cl)
  = (Ok (join_amp (object_fields o)),
     World (<[l := CObj (encode_object o)]> h) ob cl) /\
  forallb query_char (join_amp (object_fields o)) = true.
Proof.
  intros Hl Hpl Henc. split; [|apply object_query_chars, Hpl].
  rewrite <- (at_loc_id h ob cl l o Hl).
  apply buildQueryString_at; [exact (lookup_lt_Some _ _ _ Hl)| |]; assumption.
Qed.

Lemma buildQueryString_overwrites_witness :
  buildQueryString 1%nat
    (World [CObj sample_provider;
            CObj [(str "q", VStr (str "a&b")); (str "ok", VBool true)]] [] [])
  = (Ok (join_amp (object_fields
                     [(str "q", VStr (str "a&b")); (str "ok", VBool true)])),
     World (<[1%nat := CObj (encode_object
                [(str "q", VStr (str "a&b")); (str "ok", VBool true)])]>
              [CObj sample_provider;
               CObj [(str "q", VStr (str "a&b")); (str "ok", VBool true)]])
           [] []) /\
  forallb query_char
    (join_amp (object_fields
                 [(str "q", VStr (str "a&b")); (str "ok", VBool true)]))
  = true.
Proof.
  apply (buildQueryString_overwrites
           [CObj sample_provider;
            CObj [(str "q", VStr (str "a&b")); (str "ok", VBool true)]]
           [] [] 1%nat
           [(str "q", VStr (str "a&b")); (str "ok", VBool true)]).
  - reflexivity.
  - apply plain_names_check. vm_compute. reflexivity.
  - repeat constructor.
Defined.

(** X15: when a value of the object is not well-formed UTF-16 (it has a
    lone surrogate), [buildQueryString] throws a URIError at that
    property: the values before it are overwritten by their encodings
    already, that value and those after it are as they were. *)
Theorem buildQueryString_lone_surrogate
    (h : list cell) (ob : list client_request) (cl : list (callback * cbarg))
    (l : loc) (b1 b2 : object) (k : jsstring) (v : value) :
  h !! l = Some (CObj (b1 ++ (k, v) :: b2)) ->
  plain_names (b1 ++ (k, v) :: b2) ->
  encodable b1 ->
  well_formed (ToString v) = false ->
  buildQueryString l (World h ob cl)
  = (Throw URIError,
     World (<[l := CObj (encode_object b1 ++ (k, v) :: b2)]> h) ob cl).
Proof.
  intros Hl Hpl Henc Hv.
  rewrite <- (at_loc_id h ob cl l _ Hl).
  apply buildQueryString_throw_at;
    [exact (lookup_lt_Some _ _ _ Hl)| | |]; assumption.
Qed.

Lemma buildQueryString_lone_surrogate_witness :
  buildQueryString 0%nat
    (World [CObj ([(str "a", VStr (str "x y"))] ++
                  (str "b", VStr [55357]) :: [(str "c", VStr (str "z w"))])]
           [] [])
  = (Throw URIError,
     World (<[0%nat := CObj (encode_object [(str "a", VStr (str "x y"))] ++
                             (str "b", VStr [55357]) ::
                             [(str "c", VStr (str "z w"))])]>
              [CObj ([(str "a", VStr (str "x y"))] ++
                     (str "b", VStr [55357]) ::
                     [(str "c", VStr (str "z w"))])])
           [] []).
Proof.
  apply (buildQueryString_lone_surrogate
           [CObj ([(str "a", VStr (str "x y"))] ++
                  (str "b", VStr [55357]) :: [(str "c", VStr (str "z w"))])]
           [] [] 0%nat [(str "a", VStr (str "x y"))]
           [(str "c", VStr (str "z w"))] (str "b") (VStr [55357])).
  - reflexivity.
  - apply plain_names_check. vm_compute. reflexivity.
  - repeat constructor.
  - reflexivity.
Defined.

(** ** The exported functions at their edges *)

Lemma redirect_parameters_shape prov redirectUri locale :
  redirect_parameters prov redirectUri locale
  = [(str "client_id", get_prop prov (str "clientId"));
     (str "display", VStr (str "page"));
     (str "locale", effective_locale locale)]
    ++ (str "redirect_uri", redirectUri)
    :: [(str "response_type", VStr (str "code"))]
    ++ (if truthy (get_prop prov (str "offline"))
        then [(str "access_type", VStr (str "offline"))] else [])
    ++ (if truthy (get_prop prov (str "scope"))
        then [(str "scope", get_prop prov (str "scope"))] else [])
    ++ (if truthy (get_prop prov (str "state"))
        then [(str "state", get_prop prov (str "state"))] else []).
Proof.
  unfold redirect_parameters, optional_prop.
  destruct (truthy (get_prop prov (str "offline")));
    destruct (truthy (get_prop prov (str "scope")));
    destruct (truthy (get_prop prov (str "state"))); vm_compute; reflexivity.
Qed.

Lemma at_last_at_loc h ob cl o :
  at_last h ob cl o = at_loc (h ++ [CObj o]) ob cl (length h) o.
Proof.
  symmetry. unfold at_last. apply at_loc_id. apply lookup_last.
Qed.

Lemma length_last {A} (h : list A) (c : A) : (length h < length (h ++ [c]))%nat.
Proof. rewrite length_app. simpl. lia. Qed.

(** [buildQueryString] on the newest object, when one of its values is
    not well-formed. *)
Lemma buildQueryString_last_throw h ob cl (b1 b2 : object) k v :
  plain_names (b1 ++ (k, v) :: b2) -> encodable b1 ->
  well_formed (ToString v) = false ->
  (buildQueryString (length h) (at_last h ob cl (b1 ++ (k, v) :: b2))).1
  = Throw URIError.
Proof.
  intros Hpl Henc Hv. rewrite at_last_at_loc.
  rewrite (buildQueryString_throw_at _ ob cl (length h) (length_last h _)
             b1 b2 k v Hpl Henc Hv).
  reflexivity.
Qed.

Lemma bind_throw_fst {A B} (c : M A) (k : A -> M B) w e :
  (c w).1 = Throw e -> (bind c k w).1 = Throw e.
Proof.
  unfold bind. destruct (c w) as [[a|e'] w']; simpl; [discriminate|].
  intros [= ->]. reflexivity.
Qed.

(** X16: a lone surrogate in an argument makes the exported function throw
    a URIError out of [buildQueryString]: [CreateRedirect] for its
    [redirectUri], [AuthenticateByCode] for its [code], [GetUserInfo] for
    its [accessToken]; the two that go to the network make no request
    then. *)
Theorem lone_surrogate_argument
    (h : list cell) (ob : list client_request) (cl : list (callback * cbarg))
    (p : loc) (prov : object) (redirectUri locale bad : value)
    (cb : callback) :
  h !! p = Some (CObj prov) ->
  encodable prov ->
  wf_value redirectUri -> wf_value locale ->
  well_formed (ToString bad) = false ->
  (CreateRedirect p bad locale (World h ob cl)).1 = Throw URIError /\
  ((AuthenticateByCode p redirectUri bad cb (World h ob cl)).1
   = Throw URIError /\
   outbox (AuthenticateByCode p redirectUri bad cb (World h ob cl)).2 = ob) /\
  ((GetUserInfo p bad cb (World h ob cl)).1 = Throw URIError /\
   outbox (GetUserInfo p bad cb (World h ob cl)).2 = ob).
Proof.
  intros Hp Hwf Hr Hl Hbad.
  assert (Hcode : (AuthenticateByCode p redirectUri bad cb (World h ob cl)).1
                  = Throw URIError).
  { unfold AuthenticateByCode.
    run_with get_field_provider. run_with get_field_provider.
    run_with alloc_object.
    run_with get_field_provider_last. run_with optional_set.
    run_with get_field_provider_last. run_with optional_set.
    run_with get_field_provider_last.
    fold (code_parameters prov redirectUri bad).
    apply bind_throw_fst.
    pose proof (code_parameters_plain prov redirectUri bad) as Hpl.
    rewrite code_parameters_shape in Hpl |- *.
    apply (buildQueryString_last_throw h ob cl
             [(str "client_id", get_prop prov (str "clientId"));
              (str "client_secret", get_prop prov (str "clientSecret"));
              (str "redirect_uri", redirectUri)]
             _ (str "code") bad Hpl); [|exact Hbad].
    repeat constructor; simpl; try assumption;
      apply get_prop_encodable; exact Hwf. }
  assert (Huser : (GetUserInfo p bad cb (World h ob cl)).1 = Throw URIError).
  { unfold GetUserInfo.
    run_with alloc_object. run_with get_field_provider_last.
    apply bind_throw_fst.
    apply (buildQueryString_last_throw h ob cl [] [] (str "access_token") bad);
      [apply plain_names_check; vm_compute; reflexivity
      |constructor|exact Hbad]. }
  split; [|split; split; try assumption].
  - rewrite (CreateRedirect_parameters h ob cl p prov Hp).
    apply bind_throw_fst.
    pose proof (redirect_parameters_plain prov bad locale) as Hpl.
    rewrite redirect_parameters_shape in Hpl |- *.
    apply (buildQueryString_last_throw h ob cl _ _ _ _ Hpl); [|exact Hbad].
    repeat constructor; simpl; try reflexivity.
    + apply get_prop_encodable; exact Hwf.
    + apply default_locale_wf. exact Hl.
  - destruct (AuthenticateByCode_sends_one p redirectUri bad cb
                (World h ob cl)) as [_ Hs].
    rewrite Hcode in Hs. exact Hs.
  - destruct (GetUserInfo_sends_one p bad cb (World h ob cl)) as [_ Hs].
    rewrite Huser in Hs. exact Hs.
Qed.

Lemma lone_surrogate_argument_witness :
  (CreateRedirect 0%nat (VStr [55357]) VUndefined
     (World [CObj sample_provider] [] [])).1 = Throw URIError /\
  ((AuthenticateByCode 0%nat (VStr (str "https://app.example/cb"))
      (VStr [55357]) 7%nat (World [CObj sample_provider] [] [])).1
   = Throw URIError /\
   outbox (AuthenticateByCode 0%nat (VStr (str "https://app.example/cb"))
             (VStr [55357]) 7%nat (World [CObj sample_provider] [] [])).2
   = []) /\
  ((GetUserInfo 0%nat (VStr [55357]) 7%nat
      (World [CObj sample_provider] [] [])).1 = Throw URIError /\
   outbox (GetUserInfo 0%nat (VStr [55357]) 7%nat
             (World [CObj sample_provider] [] [])).2 = []).
Proof.
  apply (lone_surrogate_argument [CObj sample_provider] [] [] 0%nat
           sample_provider (VStr (str "https://app.example/cb")) VUndefined
           (VStr [55357]) 7%nat); try reflexivity.
  repeat constructor.
Defined.

Lemma access_type_field (b : bool) :
  object_fields (if b then [(str "access_type", VStr (str "offline"))] else [])
  = if b then [str "access_type=offline"] else [].
Proof. destruct b; [vm_compute|]; reflexivity. Qed.

Lemma redirect_parameters_fields prov redirectUri locale :
  object_fields (redirect_parameters prov redirectUri locale)
  = [form_field "client_id" (get_prop prov (str "clientId"));
     str "display=page";
     form_field "locale" (effective_locale locale);
     form_field "redirect_uri" redirectUri;
     str "response_type=code"]
    ++ (if truthy (get_prop prov (str "offline"))
        then [str "access_type=offline"] else [])
    ++ optional_field "scope" (get_prop prov (str "scope"))
    ++ optional_field "state" (get_prop prov (str "state")).
Proof.
  rewrite redirect_parameters_shape.
  change (?a ++ ?x :: ?b ++ ?c) with (a ++ (x :: b) ++ c).
  rewrite !object_fields_app.
  rewrite (object_fields_optional "scope"), (object_fields_optional "state").
  rewrite access_type_field.
  assert (Hd : form_field "display" (VStr (str "page")) = str "display=page")
    by (vm_compute; reflexivity).
  assert (Hc : form_field "response_type" (VStr (str "code"))
               = str "response_type=code") by (vm_compute; reflexivity).
  rewrite <- Hd, <- Hc. reflexivity.
Qed.

(** X17: on any descriptor object with well-formed strings
    [CreateRedirect] returns the provider's [authUri], a question mark and
    a query string of the fields [client_id], [display=page], [locale],
    [redirect_uri], [response_type=code], then [access_type=offline] when
    [offline] is truthy, [scope] when it is truthy and [state] when it is
    truthy, in this order and no others; the query string is made of
    unreserved characters, [%], [&] and [=] only. *)
Theorem CreateRedirect_fields
    (h : list cell) (ob : list client_request) (cl : list (callback * cbarg))
    (p : loc) (prov : object) (redirectUri locale : value) :
  h !! p = Some (CObj prov) ->
  encodable prov ->
  wf_value redirectUri -> wf_value locale ->
  exists qs,
    (CreateRedirect p redirectUri locale (World h ob cl)).1
    = Ok (ToString (get_prop prov (str "authUri")) ++ str "?" ++ qs) /\
    query_fields qs
    = [form_field "client_id" (get_prop prov (str "clientId"));
       str "display=page";
       form_field "locale" (effective_locale locale);
       form_field "redirect_uri" redirectUri;
       str "response_type=code"]
      ++ (if truthy (get_prop prov (str "offline"))
          then [str "access_type=offline"] else [])
      ++ optional_field "scope" (get_prop prov (str "scope"))
      ++ optional_field "state" (get_prop prov (str "state")) /\
    forallb query_char qs = true.
Proof.
  intros Hp Hwf Hr Hl.
  pose proof (redirect_parameters_plain prov redirectUri locale) as Hpl.
  pose proof (redirect_parameters_nonempty prov redirectUri locale) as Hne.
  exists (join_amp (object_fields (redirect_parameters prov redirectUri locale))).
  rewrite (CreateRedirect_run h ob cl p prov Hp Hwf redirectUri locale Hr Hl).
  rewrite (query_fields_object _ Hpl Hne), (object_query_chars _ Hpl).
  rewrite redirect_parameters_fields. repeat split; reflexivity.
Qed.

Lemma CreateRedirect_fields_witness :
  exists qs,
    (CreateRedirect 0%nat (VStr (str "https://app.example/cb")) VUndefined
       (World [CObj ((str "offline", VBool true) ::
                     (str "state", VStr (str "a b")) :: sample_provider)]
              [] [])).1
    = Ok (str "https://provider.example/auth" ++ str "?" ++ qs) /\
    query_fields qs
    = [str "client_id=id"; str "display=page"; str "locale=en";
       str "redirect_uri=https%253A%252F%252Fapp.example%252Fcb";
       str "response_type=code"; str "access_type=offline";
       str "scope=email%2520profile"; str "state=a%2520b"] /\
    forallb query_char qs = true.
Proof.
  destruct (CreateRedirect_fields
              [CObj ((str "offline", VBool true) ::
                     (str "state", VStr (str "a b")) :: sample_provider)]
              [] [] 0%nat
              ((str "offline", VBool true) ::
               (str "state", VStr (str "a b")) :: sample_provider)
              (VStr (str "https://app.example/cb")) VUndefined)
    as (qs & Hrun & Hfields & Hchars); try reflexivity.
  - repeat constructor.
  - exists qs. split; [exact Hrun|]. split; [|exact Hchars].
    rewrite Hfields. vm_compute. reflexivity.
Defined.

Lemma redirect_parameters_client_id prov redirectUri locale :
  List.filter (fun kv => jsstring_eqb kv.1 (str "client_id"))
              (redirect_parameters prov redirectUri locale)
  = [(str "client_id", get_prop prov (str "clientId"))].
Proof.
  unfold redirect_parameters, optional_prop.
  destruct (truthy (get_prop prov (str "offline")));
    destruct (truthy (get_prop prov (str "scope")));
    destruct (truthy (get_prop prov (str "state"))); vm_compute; reflexivity.
Qed.

Lemma redirect_parameters_redirect_uri prov redirectUri locale :
  List.filter (fun kv => jsstring_eqb kv.1 (str "redirect_uri"))
              (redirect_parameters prov redirectUri locale)
  = [(str "redirect_uri", redirectUri)].
Proof.
  unfold redirect_parameters, optional_prop.
  destruct (truthy (get_prop prov (str "offline")));
    destruct (truthy (get_prop prov (str "scope")));
    destruct (truthy (get_prop prov (str "state"))); vm_compute; reflexivity.
Qed.

(** X18: [CreateRedirect] checks nothing: on a descriptor object without
    [clientId] and [authUri], called without [redirectUri], it does not
    throw; it returns a URL that begins with [undefined?] and whose
    [client_id] and [redirect_uri] are the text [undefined]. *)
Theorem CreateRedirect_missing_fields
    (h : list cell) (ob : list client_request) (cl : list (callback * cbarg))
    (p : loc) (prov : object) (locale : value) :
  h !! p = Some (CObj prov) ->
  encodable prov ->
  wf_value locale ->
  get_prop prov (str "clientId") = VUndefined ->
  get_prop prov (str "authUri") = VUndefined ->
  exists qs,
    (CreateRedirect p VUndefined locale (World h ob cl)).1
    = Ok (str "undefined?" ++ qs) /\
    query_params qs (str "client_id") = [str "undefined"] /\
    query_params qs (str "redirect_uri") = [str "undefined"].
Proof.
  intros Hp Hwf Hl Hid Hauth.
  pose proof (redirect_parameters_plain prov VUndefined locale) as Hpl.
  pose proof (redirect_parameters_nonempty prov VUndefined locale) as Hne.
  exists (join_amp (object_fields (redirect_parameters prov VUndefined locale))).
  rewrite (CreateRedirect_run h ob cl p prov Hp Hwf VUndefined locale
             eq_refl Hl).
  rewrite !(query_params_object _ _ Hpl Hne).
  rewrite redirect_parameters_client_id, redirect_parameters_redirect_uri.
  rewrite Hauth, Hid. repeat split; vm_compute; reflexivity.
Qed.

Lemma CreateRedirect_missing_fields_witness :
  exists qs,
    (CreateRedirect 0%nat VUndefined VUndefined
       (World [CObj [(str "scope", VStr (str "email"))]] [] [])).1
    = Ok (str "undefined?" ++ qs) /\
    query_params qs (str "client_id") = [str "undefined"] /\
    query_params qs (str "redirect_uri") = [str "undefined"].
Proof.
  apply (CreateRedirect_missing_fields
           [CObj [(str "scope", VStr (str "email"))]] [] [] 0%nat
           [(str "scope", VStr (str "email"))] VUndefined);
    try reflexivity.
  repeat constructor.
Defined.



(** X20: on a descriptor with well-formed strings whose [userInfoUri] is
    [https://host/path], with a host and a path Node accepts, [GetUserInfo]
    makes one [GET] request to [host] and [/path], with content length zero and nothing written, whose
    handler will pass the body on as it is; the access token, encoded, is
    in the parameters object only: the request is the same for every
    token. *)
Theorem GetUserInfo_request
    (h : list cell) (ob : list client_request) (cl : list (callback * cbarg))
    (p : loc) (prov : object) (accessToken : value) (cb : callback)
    (hst rest : jsstring) :
  h !! p = Some (CObj prov) ->
  wf_value accessToken ->
  get_prop prov (str "userInfoUri")
  = VStr (str "https://" ++ hst ++ 47 :: rest) ->
  slash_free hst = true ->
  valid_host hst = true ->
  valid_path (47 :: rest) = true ->
  GetUserInfo p accessToken cb (World h ob cl)
  = (Ok tt,
     World (h ++ [CObj [(str "access_token",
                         VStr (uri_encoded (ToString accessToken)))]])
           (ob ++ [ClientRequest
                     (Options hst (47 :: rest) 443 (str "GET")
                        (str "application/x-www-form-urlencoded") 0)
                     VUndefined cb [] true false])
           cl).
Proof.
  intros Hp Ht Huri Hh Hhost Hpath.
  rewrite (GetUserInfo_run h ob cl p prov Hp accessToken cb _ Ht Huri)
    by (apply accepted_url; [exact Hh|exact Hhost|exact Hpath|reflexivity]).
  rewrite (request_options_url hst rest _ _ Hh). reflexivity.
Qed.

Lemma GetUserInfo_request_witness :
  GetUserInfo 0%nat (VStr (str "t/1")) 7%nat
    (World [CObj sample_provider] [] [])
  = (Ok tt,
     World ([CObj sample_provider] ++
            [CObj [(str "access_token",
                    VStr (uri_encoded (ToString (VStr (str "t/1")))))]])
           ([] ++ [ClientRequest
                     (Options (str "provider.example") (47 :: str "me") 443
                        (str "GET") (str "application/x-www-form-urlencoded")
                        0)
                     VUndefined 7%nat [] true false])
           []).
Proof.
  apply (GetUserInfo_request [CObj sample_provider] [] [] 0%nat
           sample_provider (VStr (str "t/1")) 7%nat
           (str "provider.example") (str "me")); reflexivity.
Defined.

(** ** Decoding what [buildQueryString] encodes *)

Lemma hex_value_hex_digit n : n < 16 -> hex_value (hex_digit n) = Some n.
Proof.
  intros H. destruct n as [|p]; [reflexivity|].
  do 4 (destruct p as [p|p|]; try reflexivity; try lia).
Qed.

Lemma nibble_lt b : N.land b 15 < 16.
Proof.
  change 15 with (N.ones 4). rewrite N.land_ones. apply N.mod_lt. discriminate.
Qed.

Lemma byte_of_nibbles b :
  b < 256 -> 16 * N.land (N.shiftr b 4) 15 + N.land b 15 = b.
Proof.
  intros Hb. change 15 with (N.ones 4). rewrite !N.land_ones.
  rewrite N.shiftr_div_pow2. change (2 ^ 4) with 16.
  assert (Hq : b / 16 < 16) by (apply N.Div0.div_lt_upper_bound; lia).
  rewrite (N.mod_small _ _ Hq).
  pose proof (N.div_mod b 16 ltac:(discriminate)) as Hd. lia.
Qed.

Lemma percent_decode_pct b r :
  b < 256 -> percent_decode (pct b ++ r) = b :: percent_decode r.
Proof.
  intros Hb. unfold pct.
  change (percent_decode ([37; ?x; ?y] ++ r))
    with (match hex_value x, hex_value y with
          | Some a, Some c => (16 * a + c) :: percent_decode r
          | _, _ => 37 :: percent_decode (x :: y :: r)
          end).
  rewrite !hex_value_hex_digit by apply nibble_lt.
  rewrite (byte_of_nibbles b Hb). reflexivity.
Qed.

Lemma percent_decode_plain c r :
  unreserved c = true -> percent_decode (c :: r) = c :: percent_decode r.
Proof.
  intros Hu.
  assert (H : (c =? 37) = false /\ (c =? 43) = false).
  { revert Hu. unfold unreserved, is_alpha, is_digit, in_range; simpl.
    rewrite !orb_true_iff, !andb_true_iff, !N.leb_le, !N.eqb_eq, !N.eqb_neq.
    lia. }
  destruct H as [H37 H43].
  change (percent_decode (c :: r))
    with (if c =? 37 then
            match r with
            | a :: b :: r' =>
              match hex_value a, hex_value b with
              | Some x, Some y => (16 * x + y) :: percent_decode r'
              | _, _ => c :: percent_decode r
              end
            | _ => c :: percent_decode r
            end
          else if c =? 43 then 32 :: percent_decode r
          else c :: percent_decode r).
  rewrite H37, H43. reflexivity.
Qed.

Lemma ascii_not_surrogate c :
  (c <? 128) = true ->
  is_low_surrogate c = false /\ is_high_surrogate c = false.
Proof.
  intros H%N.ltb_lt. unfold is_low_surrogate, is_high_surrogate, in_range.
  rewrite !andb_false_iff, !N.leb_gt. lia.
Qed.

Lemma pct_utf8_ascii c : (c <? 128) = true -> pct_utf8 c = pct c.
Proof.
  intros H. unfold pct_utf8, utf8. rewrite H. reflexivity.
Qed.

(** On ASCII text [encodeURIComponent] returns; one decoding undoes it;
    it adds two characters for each character it escapes. *)
Lemma encodeURIComponent_ascii s :
  ascii_only s = true ->
  exists e, encodeURIComponent s = Ok e /\ percent_decode e = s /\
            length e
            = (length s
               + 2 * length (List.filter (fun c => negb (unreserved c)) s))%nat.
Proof.
  induction s as [|c r IH]; intros Hs; [exists []; repeat split; reflexivity|].
  apply andb_true_iff in Hs as [Hc Hr].
  destruct (IH Hr) as (e & He & Hd & Hlen).
  simpl encodeURIComponent. cbn [List.filter].
  destruct (unreserved c) eqn:Hu.
  - rewrite He. exists (c :: e). split; [reflexivity|]. split.
    + rewrite (percent_decode_plain c e Hu), Hd. reflexivity.
    + simpl. lia.
  - destruct (ascii_not_surrogate c Hc) as [-> ->]. simpl.
    rewrite He, (pct_utf8_ascii c Hc). exists (pct c ++ e).
    split; [reflexivity|]. split.
    + rewrite percent_decode_pct, Hd; [reflexivity|].
      apply N.ltb_lt in Hc. lia.
    + rewrite length_app. simpl. lia.
Qed.

(** One decoding undoes [querystring.escape] on percent-encoded text. *)
Lemma qsEscape_decode e :
  forallb url_safe e = true -> percent_decode (escaped e) = e.
Proof.
  intros Hs. unfold escaped.
  assert (H : exists q, qsEscape e = Ok q /\ percent_decode q = e).
  { induction e as [|c r IH]; [exists []; split; reflexivity|].
    simpl in Hs. apply andb_true_iff in Hs as [Hc Hr].
    destruct (IH Hr) as (q & Hq & Hd).
    simpl qsEscape. rewrite (safe_ascii c Hc), Hq.
    eexists. split; [reflexivity|].
    destruct (unreserved c) eqn:Hu.
    - simpl app. rewrite (percent_decode_plain c q Hu), Hd. reflexivity.
    - rewrite percent_decode_pct, Hd; [reflexivity|].
      apply safe_ascii, N.ltb_lt in Hc. lia. }
  destruct H as (q & -> & Hd). exact Hd.
Qed.

(** X21: for a value of ASCII characters, decoding once what
    [buildQueryString] puts into a field gives the [encodeURIComponent]
    form of the value, and only a second decoding gives the value: one
    decoding gives the value back exactly when the value has unreserved
    characters only. *)
Theorem field_value_decodes_twice (s : jsstring) :
  ascii_only s = true ->
  percent_decode (encoded_twice s) = uri_encoded s /\
  percent_decode (percent_decode (encoded_twice s)) = s /\
  (forallb unreserved s = true -> percent_decode (encoded_twice s) = s) /\
  (forallb unreserved s = false -> percent_decode (encoded_twice s) <> s).
Proof.
  intros Hs. destruct (encodeURIComponent_ascii s Hs) as (e & He & Hd & Hlen).
  assert (Hu : uri_encoded s = e) by (unfold uri_encoded; rewrite He; reflexivity).
  assert (H1 : percent_decode (encoded_twice s) = uri_encoded s)
    by (apply qsEscape_decode, uri_encoded_safe).
  split; [exact H1|]. split; [rewrite H1, Hu; exact Hd|]. split.
  - intros Hall. rewrite (encoded_twice_unreserved s Hall).
    rewrite <- Hd at 2. rewrite <- Hu.
    unfold uri_encoded. rewrite (encodeURIComponent_unreserved s Hall).
    reflexivity.
  - intros Hnot. rewrite H1, Hu. intros Heq. rewrite Heq in Hlen.
    assert (Hf : List.filter (fun c => negb (unreserved c)) s <> []).
    { clear -Hnot. induction s as [|c r IH]; [discriminate|].
      simpl in *. destruct (unreserved c); simpl in *; [auto|discriminate]. }
    destruct (List.filter (fun c => negb (unreserved c)) s);
      [congruence|simpl in Hlen; lia].
Qed.

Lemma field_value_decodes_twice_witness :
  percent_decode (encoded_twice (str "https://app.example/cb?x=1 2"))
  = uri_encoded (str "https://app.example/cb?x=1 2") /\
  percent_decode
    (percent_decode (encoded_twice (str "https://app.example/cb?x=1 2")))
  = str "https://app.example/cb?x=1 2" /\
  percent_decode (encoded_twice (str "https://app.example/cb?x=1 2"))
  <> str "https://app.example/cb?x=1 2".
Proof.
  destruct (field_value_decodes_twice (str "https://app.example/cb?x=1 2"))
    as (H1 & H2 & _ & H4); [reflexivity|].
  split; [exact H1|]. split; [exact H2|]. apply H4. reflexivity.
Defined.

(** ** A call and its response *)

(** X22: a call and the response to its request, end to end, on a
    descriptor with well-formed strings and URIs [https://host/path] with
    hosts and paths Node accepts: after [AuthenticateByToken] the handler,
    unless the body, the decoded chunks put together, is JSON for [null],
    calls the continuation of that call one time with a new record holding
    what [interpretReply] reads from the body; after [GetUserInfo] it
    calls the continuation one time with the body itself.  The descriptor
    is as it was. *)
Theorem call_then_response
    (h : list cell) (ob : list client_request) (cl : list (callback * cbarg))
    (p : loc) (prov : object) (refreshToken accessToken : value)
    (cb : callback) (hst rest hst' rest' : jsstring)
    (chunks : list buffer) :
  h !! p = Some (CObj prov) ->
  encodable prov ->
  wf_value refreshToken -> wf_value accessToken ->
  get_prop prov (str "accessTokenUri")
  = VStr (str "https://" ++ hst ++ 47 :: rest) ->
  slash_free hst = true -> valid_host hst = true ->
  valid_path (47 :: rest) = true ->
  get_prop prov (str "userInfoUri")
  = VStr (str "https://" ++ hst' ++ 47 :: rest') ->
  slash_free hst' = true -> valid_host hst' = true ->
  valid_path (47 :: rest') = true ->
  (is_null_reply (concat (map utf8_decode chunks)) = false ->
   exists w,
     response_handler (length ob) chunks
       (AuthenticateByToken p refreshToken cb (World h ob cl)).2
     = (Ok tt, w) /\
     calls w = cl ++ [(cb, ArgToken (S (length h)))] /\
     heap w !! S (length h)
     = Some (CToken (interpret_token
                       (parsed_reply (concat (map utf8_decode chunks))))) /\
     heap w !! p = Some (CObj prov)) /\
  (exists w,
     response_handler (length ob) chunks
       (GetUserInfo p accessToken cb (World h ob cl)).2
     = (Ok tt, w) /\
     calls w = cl ++ [(cb, ArgBody (concat (map utf8_decode chunks)))] /\
     heap w !! p = Some (CObj prov)).
Proof.
  intros Hp Hwf Hr Ha Htok Hh Hhost Hpath Huser Hh' Hhost' Hpath'.
  unfold response_handler. split.
  - intros Hn. rewrite <- body_of_concat in *.
    rewrite (AuthenticateByToken_run h ob cl p prov Hp Hwf refreshToken cb _
               Hr Htok)
      by (apply accepted_url; [exact Hh|exact Hhost|exact Hpath|reflexivity]).
    cbv zeta. cbn [snd].
    erewrite respond_interpreted;
      [|apply lookup_last|reflexivity|reflexivity|reflexivity|exact Hn].
    eexists. split; [reflexivity|]. cbn [heap calls req_callback].
    assert (Hlen : length (h ++ [CObj (encode_object
                            (token_parameters prov refreshToken))])
                   = S (length h))
      by (rewrite length_app; simpl; lia).
    split; [rewrite Hlen; reflexivity|]. split.
    + rewrite <- Hlen. apply lookup_last.
    + apply lookup_before, lookup_before, Hp.
  - rewrite (GetUserInfo_run h ob cl p prov Hp accessToken cb _ Ha Huser)
      by (apply accepted_url; [exact Hh'|exact Hhost'|exact Hpath'|reflexivity]).
    cbn [snd].
    erewrite respond_raw;
      [|apply lookup_last|reflexivity|reflexivity|reflexivity].
    rewrite body_of_concat.
    eexists. split; [reflexivity|]. cbn [heap calls req_callback].
    split; [reflexivity|]. apply lookup_before, Hp.
Qed.

Lemma call_then_response_witness :
  (exists w,
     response_handler 0%nat
       [dq "{'access_token':'A',"; dq "'expires_in':3600}"]
       (AuthenticateByToken 0%nat (VStr (str "r1")) 7%nat
          (World [CObj sample_provider] [] [])).2
     = (Ok tt, w) /\
     calls w = [(7%nat, ArgToken 2%nat)] /\
     heap w !! 2%nat
     = Some (CToken (Token (JStr (str "A")) JNull (JNum 3600 0))) /\
     heap w !! 0%nat = Some (CObj sample_provider)) /\
  (exists w,
     response_handler 0%nat
       [dq "{'access_token':'A',"; dq "'expires_in':3600}"]
       (GetUserInfo 0%nat (VStr (str "A")) 7%nat
          (World [CObj sample_provider] [] [])).2
     = (Ok tt, w) /\
     calls w
     = [(7%nat, ArgBody (dq "{'access_token':'A','expires_in':3600}"))] /\
     heap w !! 0%nat = Some (CObj sample_provider)).
Proof.
  assert (Henc : encodable sample_provider) by repeat constructor.
  destruct (call_then_response [CObj sample_provider] [] [] 0%nat
              sample_provider (VStr (str "r1")) (VStr (str "A")) 7%nat
              (str "provider.example") (str "token")
              (str "provider.example") (str "me")
              [dq "{'access_token':'A',"; dq "'expires_in':3600}"]
              eq_refl Henc eq_refl eq_refl eq_refl eq_refl eq_refl eq_refl
              eq_refl eq_refl eq_refl eq_refl)
    as [Htoken Hinfo].
  split.
  - destruct (Htoken eq_refl) as (w & Hrun & Hcalls & Hrec & Hprov).
    exists w. split; [exact Hrun|]. split; [exact Hcalls|].
    split; [exact Hrec|exact Hprov].
  - destruct Hinfo as (w & Hrun & Hcalls & Hprov).
    exists w. split; [exact Hrun|]. split; [exact Hcalls|exact Hprov].
Defined.
